(** * bart-proxy: the real-time aggregation core, embedded in Rocq

    The development follows the services of the repository and the
    request handlers that use them:

    - [StaticDataService]  (static GTFS tables: load / reload / lookups),
    - [GtfsMonitor]        (feed poller: fetchFeed / updateTrips / updateAlerts),
    - [TransitService]     (getStopInfo and its helpers),
    - the request handlers of the HTTP front end,
    - [GtfsUpdater]        (the download and installation of a new data set),
    - [fetchGtfsRtData] of the single-file server.

    JavaScript values are modelled as the code uses them: [undefined] and
    [null] are [None], CSV cells are strings, numbers that hold integers
    are [Z], 64-bit protobuf fields are numbers or [Long] objects,
    exceptions are the [Throw] case of [result], and the module-level
    singletons live in one [App] state that every method threads through.
    The state survives an exception, as it does in JavaScript.

    What lies outside the process is part of that state: the files of the
    static data directory, the readings of the clock, and what each call
    of [fetch] meets.  What the process awaits is given with the time it
    takes: a reply or a body that never arrives is outside the model.  A
    method is run alone: the interleaving of two refreshes at their
    [await]s is not modelled, nor is console output.

    The file has three parts: the program, the vocabulary of the
    statements (with sample data), and the properties. *)

From Stdlib Require Import ZArith Lia Ascii.
From stdpp Require Import base option list strings gmap sorting pretty.

Local Open Scope Z_scope.

(** ** Exceptions and the state-and-exception monad *)

(** A JavaScript [Error]; only its [message] is ever inspected. *)
Record Error := MkError { message : string }.

Inductive result (A : Type) : Type :=
| Ok (a : A)
| Throw (e : Error).
Arguments Ok {A} a.
Arguments Throw {A} e.

(** A method running against state [S]: it returns or throws, and leaves a
    state behind in both cases. *)
Definition M (S A : Type) : Type := S -> result A * S.

Definition ret {S A} (a : A) : M S A := fun s => (Ok a, s).
Definition throw {S A} (e : Error) : M S A := fun s => (Throw e, s).
Definition bind {S A B} (c : M S A) (k : A -> M S B) : M S B :=
  fun s => match c s with
           | (Ok a, s') => k a s'
           | (Throw e, s') => (Throw e, s')
           end.
Definition try_catch {S A} (c : M S A) (h : Error -> M S A) : M S A :=
  fun s => match c s with
           | (Ok a, s') => (Ok a, s')
           | (Throw e, s') => h e s'
           end.
Definition get {S} : M S S := fun s => (Ok s, s).
Definition modify {S} (f : S -> S) : M S unit := fun s => (Ok tt, f s).

Global Instance M_ret {S} : MRet (M S) := fun A a => ret a.
Global Instance M_bind {S} : MBind (M S) := fun A B k c => bind c k.

(** [list.forEach(f)] where [f] may throw: the first exception stops the
    iteration. *)
Fixpoint forEach {S A} (f : A -> M S unit) (l : list A) : M S unit :=
  match l with
  | [] => ret tt
  | x :: l' => f x ;; forEach f l'
  end.

(** ** JavaScript truthiness, strings and numbers *)

Module Js.

(** [!!s] for a possibly-undefined string: the empty string is falsy. *)
Definition truthy_str (o : option string) : bool :=
  match o with
  | Some s => negb (String.eqb s "")
  | None => false
  end.

(** [o || d] where [d] is a string. *)
Definition or_str (o : option string) (d : string) : string :=
  match o with
  | Some s => if String.eqb s "" then d else s
  | None => d
  end.

(** A value handed over where a string is expected, as far as the code
    tells the cases apart: [undefined] or [null]; a string; or an object,
    such as the array Express makes of a repeated query parameter and the
    object it makes of a bracketed one.  An object is truthy and has no
    [toLowerCase]. *)
Inductive loose :=
| Nullish
| Str (s : string)
| Obj.

(** [v || null] *)
Definition or_null (v : loose) : loose :=
  match v with
  | Nullish => Nullish
  | Str s => if String.eqb s "" then Nullish else Str s
  | Obj => Obj
  end.

(** 64-bit protobuf integers are decoded either to a JavaScript number or
    to a [Long] object, depending on how protobufjs was built (the source
    comments on this at the conversion).  A number is falsy when it is 0;
    an object is always truthy. *)
Inductive int64 :=
| Num (z : Z)
| LongObj (z : Z).

(** [Number(v)].  The conversion is exact up to 2^53; beyond, the number
    it yields is still too large to be the seconds of a valid [Date]. *)
Definition Number (v : int64) : Z :=
  match v with Num z => z | LongObj z => z end.

Definition truthy_int64 (o : option int64) : bool :=
  match o with
  | Some (Num z) => negb (z =? 0)
  | Some (LongObj _) => true
  | None => false
  end.

(** [a || b] on possibly-undefined 64-bit values. *)
Definition or_int64 (a b : option int64) : option int64 :=
  if truthy_int64 a then a else b.

(** [a || b || 0] on possibly-undefined 32-bit numbers. *)
Definition or_num (a b : option Z) : Z :=
  match a with
  | Some x => if x =? 0
              then match b with Some y => y | None => 0 end
              else x
  | None => match b with Some y => y | None => 0 end
  end.

(** [Math.round(n / d)] for an integer [n] and a positive integer [d]:
    JavaScript rounds halves up, so the result is [floor(n/d + 1/2)].
    The model is exact: the quotient of two safe integers is correctly
    rounded and a half-integer is representable, so the floating-point
    quotient lies on the same side of the half as the real one. *)
Definition round_div (n d : Z) : Z := (2 * n + d) / (2 * d).

(** [String.prototype.toLowerCase], on the ASCII letters.  A string is the
    sequence of its UTF-8 bytes; the bytes of other characters are left as
    they are. *)
Definition lower_ascii (c : ascii) : ascii :=
  let n := N_of_ascii c in
  if ((65 <=? n) && (n <=? 90))%N then ascii_of_N (n + 32) else c.

Fixpoint toLowerCase (s : string) : string :=
  match s with
  | EmptyString => EmptyString
  | String c s' => String (lower_ascii c) (toLowerCase s')
  end.

(** [s.startsWith(p)]. *)
Fixpoint startsWith (p s : string) : bool :=
  match p, s with
  | EmptyString, _ => true
  | String a p', String b s' => if Ascii.eqb a b then startsWith p' s' else false
  | String _ _, EmptyString => false
  end.

(** [hay.includes(needle)]. *)
Fixpoint includes (needle hay : string) : bool :=
  if startsWith needle hay then true
  else match hay with
       | EmptyString => false
       | String _ hay' => includes needle hay'
       end.

(** [s.split(sep)] for a non-empty separator: the string is scanned from
    the left, and a match consumes the separator, so occurrences that
    overlap an earlier one are not separators.  [skip] counts the
    characters of a matched separator still to be dropped, [cur] is the
    part being read. *)
Fixpoint split_go (sep : string) (skip : nat) (cur : string) (s : string)
  : list string :=
  match s with
  | EmptyString => [cur]
  | String c s' =>
      match skip with
      | S k => split_go sep k cur s'
      | O => if startsWith sep s
             then cur :: split_go sep (String.length sep - 1) "" s'
             else split_go sep O (cur +:+ String c "") s'
      end
  end.

Definition split (sep s : string) : list string := split_go sep O "" s.

(** [arr.slice(0, n)]: a negative [n] counts from the end. *)
Definition slice0 {A} (n : Z) (l : list A) : list A :=
  if n <? 0 then take (Z.to_nat (Z.of_nat (length l) + n)) l
  else take (Z.to_nat n) l.

(** An ISO-8601 timestamp string as produced by [Date.prototype.toISOString],
    represented by the instant (milliseconds since the epoch) it denotes;
    [new Date(s)] reads that instant back. *)
Inductive IsoString := Iso (ms : Z).

Definition Date_parse (s : IsoString) : Z := match s with Iso ms => ms end.

(** The largest time value of a [Date]; outside it the date is invalid
    and [toISOString] throws a [RangeError]. *)
Definition maxTime : Z := 8640000000000000.

Definition toISOString (ms : Z) : result IsoString :=
  if (- maxTime <=? ms) && (ms <=? maxTime) then Ok (Iso ms)
  else Throw (MkError "Invalid time value").

End Js.

(** ** Data model *)

(** *** Rows of the static GTFS tables ([csv-parse] with [columns: true]):
    every cell is a string; a column the file does not have reads as
    [undefined]. *)

Module Stop.
Record t := Build {
  stop_id : string;
  stop_name : option string;
  stop_code : option string;
  platform_code : option string;
  stop_lat : option string;
  stop_lon : option string }.
End Stop.

Module Route.
Record t := Build {
  route_id : string;
  route_short_name : option string;
  route_long_name : option string;
  route_color : option string;
  route_text_color : option string }.
End Route.

Module Trip.
Record t := Build {
  trip_id : string;
  route_id : string;
  trip_headsign : option string;
  direction_id : option string }.
End Trip.

Module StopTime.
Record t := Build {
  trip_id : string;
  stop_id : string;
  stop_sequence : string }.
End StopTime.

(** *** The decoded GTFS-realtime feed (the fields the services read) *)

Module StopTimeEvent.
Record t := Build { time : option Js.int64; delay : option Z }.
End StopTimeEvent.

Module StopTimeUpdate.
Record t := Build {
  stopId : string;
  arrival : option StopTimeEvent.t;
  departure : option StopTimeEvent.t }.
End StopTimeUpdate.

Module Vehicle.
Record t := Build { occupancyStatus : option Z; label : option string }.
End Vehicle.

Module TripDescriptor.
Record t := Build { tripId : option string }.
End TripDescriptor.

Module TripUpdate.
Record t := Build {
  trip : option TripDescriptor.t;
  vehicle : option Vehicle.t;
  stopTimeUpdate : option (list StopTimeUpdate.t) }.
End TripUpdate.

Module TranslatedString.
(** [translation] is the list of the [text] fields of the translations. *)
Record t := Build { translation : option (list (option string)) }.
(** [ts?.translation?.[0]?.text] *)
Definition first_text (ts : option t) : option string :=
  match ts with
  | Some (Build (Some (Some txt :: _))) => Some txt
  | _ => None
  end.
End TranslatedString.

Module TimeRange.
Record t := Build { start : option Js.int64; end_ : option Js.int64 }.
End TimeRange.

Module Alert.
Record t := Build {
  informedEntity : option (list string);   (* the [stopId] of each selector *)
  headerText : option TranslatedString.t;
  descriptionText : option TranslatedString.t;
  url : option TranslatedString.t;
  activePeriod : option (list TimeRange.t) }.
End Alert.

Module FeedEntity.
Record t := Build {
  tripUpdate : option TripUpdate.t;
  vehicle : option Vehicle.t;
  alert : option Alert.t }.
End FeedEntity.

Record FeedMessage := MkFeed { entity : list FeedEntity.t }.

(** *** The singletons *)

Record StaticDataService := MkStatic {
  stops : gmap string Stop.t;
  routes : gmap string Route.t;
  trips : gmap string Trip.t;
  stopTimes : gmap string (list StopTime.t);
  initialized : bool }.

Record Stats := MkStats {
  tripUpdates : Z;
  tripErrors : Z;
  alertUpdates : Z;
  alertErrors : Z }.

Record GtfsMonitor := MkMonitor {
  tripsFeed : option FeedMessage;
  alertsFeed : option FeedMessage;
  lastTripsUpdate : option Z;      (* a [Date], as its time value in ms *)
  lastAlertsUpdate : option Z;
  tripsError : option Error;
  alertsError : option Error;
  isPolling : bool;
  stats : Stats }.

(** *** The world outside the process *)

(** The four files of [config.paths.staticData] as [readFileSync] followed
    by [parse] sees them: the rows, or the exception raised for a missing
    or malformed file. *)
Record StaticFiles := MkFiles {
  stops_txt : result (list Stop.t);
  routes_txt : result (list Route.t);
  trips_txt : result (list Trip.t);
  stop_times_txt : result (list StopTime.t) }.

(** What one call of [fetch] meets: how long the server takes to answer,
    and what comes back.  The body of a response is read once [fetch] has
    resolved: [bodyTime] is how long [response.arrayBuffer()] takes to
    settle, and [payload] is the outcome of that read followed by the
    decoding as a [FeedMessage]. *)
Inductive Reply :=
| NetworkError (e : Error)
| Response (status : Z) (statusText : string) (bodyTime : Z)
           (payload : result FeedMessage).

Record Attempt := MkAttempt { latency : Z; reply : Reply }.

Inductive MonitorRead := ReadTrips | ReadAlerts | ReadStatus.

(** Effects a method leaves behind, oldest first.  Console output is not
    recorded. *)
Inductive Event :=
| SetAbortTimer (ms : Z)                  (* setTimeout(() => controller.abort(), ms) *)
| Fetch (url : string) (elapsed : Z)      (* await fetch(url, {signal}) settled after [elapsed] ms *)
| ClearAbortTimer                         (* clearTimeout(timeoutId) *)
| ReadBody (elapsed : Z)                  (* await response.arrayBuffer() settled after [elapsed] ms *)
| Sleep (ms : Z)                          (* await new Promise(r => setTimeout(r, ms)) *)
| Read (r : MonitorRead).                 (* a getter of the monitor was called *)

Record World := MkWorld {
  files : StaticFiles;
  clock : nat -> Z;        (* the successive readings of [Date.now()] *)
  ticks : nat;             (* how many readings were taken *)
  net : nat -> Attempt;    (* what the successive calls of [fetch] meet *)
  sent : nat;              (* how many calls of [fetch] were made *)
  trace : list Event }.

Record App := MkApp {
  staticDataService : StaticDataService;
  gtfsMonitor : GtfsMonitor;
  world : World }.

Definition with_static (f : StaticDataService -> StaticDataService) (a : App) : App :=
  MkApp (f (staticDataService a)) (gtfsMonitor a) (world a).
Definition with_monitor (f : GtfsMonitor -> GtfsMonitor) (a : App) : App :=
  MkApp (staticDataService a) (f (gtfsMonitor a)) (world a).
Definition with_world (f : World -> World) (a : App) : App :=
  MkApp (staticDataService a) (gtfsMonitor a) (f (world a)).

(** [Date.now()] *)
Definition Date_now : M App Z :=
  fun a => (Ok (clock (world a) (ticks (world a))),
            with_world (fun w => MkWorld (files w) (clock w) (S (ticks w))
                                         (net w) (sent w) (trace w)) a).

Definition emit (e : Event) : M App unit :=
  modify (with_world (fun w => MkWorld (files w) (clock w) (ticks w)
                                       (net w) (sent w) (trace w ++ [e]))).

(** The object [getStats()] returns: the [size] of three of the maps. *)
Module StaticStats.
Record t := Build { stops : nat; routes : nat; trips : nat }.
End StaticStats.

(** ** StaticDataService *)

Module StaticData.

Definition set_stops f (s : StaticDataService) :=
  MkStatic (f (stops s)) (routes s) (trips s) (stopTimes s) (initialized s).
Definition set_routes f (s : StaticDataService) :=
  MkStatic (stops s) (f (routes s)) (trips s) (stopTimes s) (initialized s).
Definition set_trips f (s : StaticDataService) :=
  MkStatic (stops s) (routes s) (f (trips s)) (stopTimes s) (initialized s).
Definition set_stopTimes f (s : StaticDataService) :=
  MkStatic (stops s) (routes s) (trips s) (f (stopTimes s)) (initialized s).
Definition set_initialized b (s : StaticDataService) :=
  MkStatic (stops s) (routes s) (trips s) (stopTimes s) b.

(** The constructor: four empty maps. *)
Definition constructor : StaticDataService := MkStatic ∅ ∅ ∅ ∅ false.

(** [parse(readFileSync(join(dir, name)))] *)
Definition readTable {R} (file : StaticFiles -> result (list R)) : M App (list R) :=
  fun a => (file (files (world a)), a).

(** The body of the [stopTimes.forEach]: create the group if it is
    missing, then push. *)
Definition push_stopTime (st : StopTime.t) (m : gmap string (list StopTime.t))
  : gmap string (list StopTime.t) :=
  let m' := match m !! StopTime.trip_id st with
            | Some _ => m
            | None => <[StopTime.trip_id st := []]> m
            end in
  match m' !! StopTime.trip_id st with
  | Some g => <[StopTime.trip_id st := g ++ [st]]> m'
  | None => m'
  end.

Definition load : M App unit :=
  a ← get;
  if initialized (staticDataService a) then mret tt
  else
    try_catch
      (rows ← readTable stops_txt;
       forEach (fun stop =>
         modify (with_static (set_stops <[Stop.stop_id stop := stop]>))) rows;;
       rows ← readTable routes_txt;
       forEach (fun route =>
         modify (with_static (set_routes <[Route.route_id route := route]>))) rows;;
       rows ← readTable trips_txt;
       forEach (fun trip =>
         modify (with_static (set_trips <[Trip.trip_id trip := trip]>))) rows;;
       rows ← readTable stop_times_txt;
       forEach (fun stopTime =>
         modify (with_static (set_stopTimes (push_stopTime stopTime)))) rows;;
       modify (with_static (set_initialized true)))
      (fun error => throw error).

Definition reload : M App unit :=
  modify (with_static (set_stops (fun _ => ∅)));;
  modify (with_static (set_routes (fun _ => ∅)));;
  modify (with_static (set_trips (fun _ => ∅)));;
  modify (with_static (set_stopTimes (fun _ => ∅)));;
  modify (with_static (set_initialized false));;
  load.

Definition getStop (stopId : string) (s : StaticDataService) : option Stop.t :=
  stops s !! stopId.
Definition getRoute (routeId : string) (s : StaticDataService) : option Route.t :=
  routes s !! routeId.
Definition getTrip (tripId : string) (s : StaticDataService) : option Trip.t :=
  trips s !! tripId.

Definition getStats (s : StaticDataService) : StaticStats.t :=
  StaticStats.Build (size (stops s)) (size (routes s)) (size (trips s)).

End StaticData.

(** ** Configuration (the defaults of [config.js]) *)

Module config.
Definition feeds_trips : string := "https://api.bart.gov/gtfsrt/tripupdate.aspx".
Definition feeds_alerts : string := "https://api.bart.gov/gtfsrt/alerts.aspx".
Definition station_id : string := "M20-2".
Definition station_direction : string := "eastbound".
End config.

(** ** GtfsMonitor *)

Module Status.
Record feed := Build {
  lastUpdate : option Z;
  hasData : bool;
  error : option string }.
Record t := Make { trips : feed; alerts : feed; stats : Stats }.
End Status.

Module Monitor.

Definition constructor : GtfsMonitor :=
  MkMonitor None None None None None None false (MkStats 0 0 0 0).

Definition retries : Z := 3.

(** The abort delay armed for each attempt, in milliseconds. *)
Definition timeout : Z := 10000.

(** What [fetch] rejects with once [controller.abort()] has run. *)
Definition AbortError : Error := MkError "This operation was aborted".

(** [response.ok] *)
Definition ok (status : Z) : bool := (200 <=? status) && (status <=? 299).

(** The next call of [fetch] takes the next entry of the world. *)
Definition next_attempt : M App Attempt :=
  fun a => (Ok (net (world a) (sent (world a))),
            with_world (fun w => MkWorld (files w) (clock w) (ticks w)
                                         (net w) (S (sent w)) (trace w)) a).

(** The [try] block of one iteration of [fetchFeed].  The abort timer
    and the request race: a reply that takes [timeout] or longer loses,
    and [fetch] rejects with the abort.  The timer is cleared as soon as
    [fetch] has resolved, before the status check and the body: the read
    of the body is awaited with no timer armed, for as long as it takes. *)
Definition attempt_body (url : string) : M App FeedMessage :=
  emit (SetAbortTimer timeout);;
  att ← next_attempt;
  if latency att <? timeout then
    emit (Fetch url (latency att));;
    match reply att with
    | NetworkError e => throw e
    | Response status statusText bodyTime payload =>
        emit ClearAbortTimer;;
        if ok status then
          emit (ReadBody bodyTime);;
          match payload with
          | Ok feed => mret feed
          | Throw e => throw e
          end
        else throw (MkError ("HTTP " +:+ pretty status +:+ ": " +:+ statusText))
    end
  else
    emit (Fetch url timeout);;
    throw AbortError.

(** The [for] loop of [fetchFeed], entered with [attempt <= retries];
    [remaining] is [retries - attempt + 1], the iterations left.  When
    the loop is left without a [return], [lastError] is thrown. *)
Fixpoint fetchFeed_loop (url : string) (remaining : nat) (attempt : Z)
    (lastError : option Error) : M App FeedMessage :=
  match remaining with
  | O => throw (default (MkError "null") lastError)
  | S remaining' =>
      r ← try_catch
            (feed ← attempt_body url; mret (inl feed))
            (fun error =>
               let isLastAttempt := attempt =? retries in
               (if negb isLastAttempt
                then emit (Sleep (1000 * 2 ^ (attempt - 1)))
                else mret tt);;
               mret (inr error));
      match r with
      | inl feed => mret feed
      | inr error => fetchFeed_loop url remaining' (attempt + 1) (Some error)
      end
  end.

Definition fetchFeed (url : string) (type : string) : M App FeedMessage :=
  fetchFeed_loop url (Z.to_nat retries) 1 None.

Definition set_tripsFeed v (m : GtfsMonitor) :=
  MkMonitor v (alertsFeed m) (lastTripsUpdate m) (lastAlertsUpdate m)
            (tripsError m) (alertsError m) (isPolling m) (stats m).
Definition set_alertsFeed v (m : GtfsMonitor) :=
  MkMonitor (tripsFeed m) v (lastTripsUpdate m) (lastAlertsUpdate m)
            (tripsError m) (alertsError m) (isPolling m) (stats m).
Definition set_lastTripsUpdate v (m : GtfsMonitor) :=
  MkMonitor (tripsFeed m) (alertsFeed m) v (lastAlertsUpdate m)
            (tripsError m) (alertsError m) (isPolling m) (stats m).
Definition set_lastAlertsUpdate v (m : GtfsMonitor) :=
  MkMonitor (tripsFeed m) (alertsFeed m) (lastTripsUpdate m) v
            (tripsError m) (alertsError m) (isPolling m) (stats m).
Definition set_tripsError v (m : GtfsMonitor) :=
  MkMonitor (tripsFeed m) (alertsFeed m) (lastTripsUpdate m) (lastAlertsUpdate m)
            v (alertsError m) (isPolling m) (stats m).
Definition set_alertsError v (m : GtfsMonitor) :=
  MkMonitor (tripsFeed m) (alertsFeed m) (lastTripsUpdate m) (lastAlertsUpdate m)
            (tripsError m) v (isPolling m) (stats m).
Definition set_stats f (m : GtfsMonitor) :=
  MkMonitor (tripsFeed m) (alertsFeed m) (lastTripsUpdate m) (lastAlertsUpdate m)
            (tripsError m) (alertsError m) (isPolling m) (f (stats m)).

Definition incr_tripUpdates (s : Stats) :=
  MkStats (tripUpdates s + 1) (tripErrors s) (alertUpdates s) (alertErrors s).
Definition incr_tripErrors (s : Stats) :=
  MkStats (tripUpdates s) (tripErrors s + 1) (alertUpdates s) (alertErrors s).
Definition incr_alertUpdates (s : Stats) :=
  MkStats (tripUpdates s) (tripErrors s) (alertUpdates s + 1) (alertErrors s).
Definition incr_alertErrors (s : Stats) :=
  MkStats (tripUpdates s) (tripErrors s) (alertUpdates s) (alertErrors s + 1).

Definition updateTrips : M App unit :=
  try_catch
    (feed ← fetchFeed config.feeds_trips "trips";
     modify (with_monitor (set_tripsFeed (Some feed)));;
     now ← Date_now;
     modify (with_monitor (set_lastTripsUpdate (Some now)));;
     modify (with_monitor (set_tripsError None));;
     modify (with_monitor (set_stats incr_tripUpdates)))
    (fun error =>
       modify (with_monitor (set_tripsError (Some error)));;
       modify (with_monitor (set_stats incr_tripErrors))).

Definition updateAlerts : M App unit :=
  try_catch
    (feed ← fetchFeed config.feeds_alerts "alerts";
     modify (with_monitor (set_alertsFeed (Some feed)));;
     now ← Date_now;
     modify (with_monitor (set_lastAlertsUpdate (Some now)));;
     modify (with_monitor (set_alertsError None));;
     modify (with_monitor (set_stats incr_alertUpdates)))
    (fun error =>
       modify (with_monitor (set_alertsError (Some error)));;
       modify (with_monitor (set_stats incr_alertErrors))).

Definition getTrips : M App (option FeedMessage) :=
  emit (Read ReadTrips);;
  a ← get;
  mret (tripsFeed (gtfsMonitor a)).

Definition getAlerts : M App (option FeedMessage) :=
  emit (Read ReadAlerts);;
  a ← get;
  mret (alertsFeed (gtfsMonitor a)).

(** The object [getStatus] builds from the fields of the monitor. *)
Definition status_of (m : GtfsMonitor) : Status.t :=
  Status.Make
    (Status.Build (lastTripsUpdate m) (bool_decide (is_Some (tripsFeed m)))
                  (message <$> tripsError m))
    (Status.Build (lastAlertsUpdate m) (bool_decide (is_Some (alertsFeed m)))
                  (message <$> alertsError m))
    (stats m).

Definition getStatus : M App Status.t :=
  emit (Read ReadStatus);;
  a ← get;
  mret (status_of (gtfsMonitor a)).

End Monitor.

(** The two feeds, to speak of a refresh of either. *)
Inductive FeedKind := TripsFeed | AlertsFeed.

Definition refresh (kind : FeedKind) : M App unit :=
  match kind with
  | TripsFeed => Monitor.updateTrips
  | AlertsFeed => Monitor.updateAlerts
  end.

(** The slot of a feed: snapshot, time of the last update, last error and
    error counter. *)
Definition snapshot (kind : FeedKind) (m : GtfsMonitor) : option FeedMessage :=
  match kind with TripsFeed => tripsFeed m | AlertsFeed => alertsFeed m end.
Definition lastUpdateOf (kind : FeedKind) (m : GtfsMonitor) : option Z :=
  match kind with TripsFeed => lastTripsUpdate m | AlertsFeed => lastAlertsUpdate m end.
Definition errorCount (kind : FeedKind) (m : GtfsMonitor) : Z :=
  match kind with
  | TripsFeed => tripErrors (stats m)
  | AlertsFeed => alertErrors (stats m)
  end.
Definition successCount (kind : FeedKind) (m : GtfsMonitor) : Z :=
  match kind with
  | TripsFeed => tripUpdates (stats m)
  | AlertsFeed => alertUpdates (stats m)
  end.
Definition statusOf (kind : FeedKind) (s : Status.t) : Status.feed :=
  match kind with TripsFeed => Status.trips s | AlertsFeed => Status.alerts s end.

(** ** TransitService *)

Module TripInfo.
Record t := Build {
  tripId : string;
  routeId : string;
  routeName : string;
  routeLongName : string;
  headsign : option string;
  direction : string;
  scheduledArrival : Js.IsoString;
  estimatedArrival : Js.IsoString;
  minutesUntilArrival : Z;
  delay : Z;
  routeColor : option string;
  routeTextColor : option string;
  occupancyStatus : option Z;
  vehicleLabel : option string }.
End TripInfo.

Module StopView.
(** [lat] and [lon] keep the cell that [parseFloat] is applied to. *)
Record t := Build {
  id : string;
  name : option string;
  code : option string;
  platform : option string;
  lat : option string;
  lon : option string }.
End StopView.

Module AlertView.
Record t := Build {
  header : string;
  description : string;
  url : option string;
  activePeriod : list (option Js.IsoString * option Js.IsoString) }.
End AlertView.

Record StopInfo := MkStopInfo {
  stop : option StopView.t;
  upcomingTrips : list TripInfo.t;
  alerts : list AlertView.t;
  warnings : list string;
  lastUpdated : Js.IsoString }.

Module Transit.

(** [array.push(x)] on the array a helper fills. *)
Definition push {A} (x : A) : M (list A) unit := modify (fun l => l ++ [x]).

(** A call that can only throw or return, inside a method with state. *)
Definition lift {S A} (r : result A) : M S A := fun s => (r, s).

(** Run a helper that fills an array it was handed empty; the array is
    dropped if the helper throws. *)
Definition collect {S A} (c : M (list A) unit) : M S (list A) :=
  fun s => match c [] with
           | (Ok _, l) => (Ok l, s)
           | (Throw e, _) => (Throw e, s)
           end.

(** [c ? `#${c}` : null] *)
Definition colorOf (c : option string) : option string :=
  match c with
  | Some v => if Js.truthy_str c then Some ("#" +:+ v) else None
  | None => None
  end.

(** The body of the inner [forEach] of [_processTrips]. *)
Definition processStopTimeUpdate (now : Z) (stopId : string)
    (tripId : string) (trip : Trip.t) (tripDirection : string)
    (route : option Route.t) (vehicle : option Vehicle.t)
    (stopTimeUpdate : StopTimeUpdate.t) : M (list TripInfo.t) unit :=
  if String.eqb (StopTimeUpdate.stopId stopTimeUpdate) stopId then
    let arrival := StopTimeUpdate.arrival stopTimeUpdate in
    let departure := StopTimeUpdate.departure stopTimeUpdate in
    if bool_decide (is_Some arrival) || bool_decide (is_Some departure) then
      let time := Js.or_int64 (arrival ≫= StopTimeEvent.time)
                              (departure ≫= StopTimeEvent.time) in
      let delay := Js.or_num (arrival ≫= StopTimeEvent.delay)
                             (departure ≫= StopTimeEvent.delay) in
      match time with
      | Some t =>
          if Js.truthy_int64 time && (now <? Js.Number t) then
            let timeNum := Js.Number t in
            let scheduledTime := timeNum - delay in
            let minutesUntilArrival := Js.round_div (timeNum - now) 60 in
            scheduledArrival ← lift (Js.toISOString (scheduledTime * 1000));
            estimatedArrival ← lift (Js.toISOString (timeNum * 1000));
            push (TripInfo.Build
              tripId
              (Trip.route_id trip)
              (Js.or_str (route ≫= Route.route_short_name) (Trip.route_id trip))
              (Js.or_str (route ≫= Route.route_long_name) "")
              (Trip.trip_headsign trip)
              tripDirection
              scheduledArrival
              estimatedArrival
              minutesUntilArrival
              delay
              (colorOf (route ≫= Route.route_color))
              (colorOf (route ≫= Route.route_text_color))
              (vehicle ≫= Vehicle.occupancyStatus)
              (let l := vehicle ≫= Vehicle.label in
               if Js.truthy_str l then l else None))
          else mret tt
      | None => mret tt
      end
    else mret tt
  else mret tt.

(** The body of the outer [forEach] of [_processTrips]. *)
Definition processEntity (sds : StaticDataService) (now : Z) (stopId : string)
    (entity : FeedEntity.t) : M (list TripInfo.t) unit :=
  match FeedEntity.tripUpdate entity with
  | None => mret tt
  | Some tripUpdate =>
      let tripId := TripUpdate.trip tripUpdate ≫= TripDescriptor.tripId in
      if negb (Js.truthy_str tripId) then mret tt
      else
        let tripId := Js.or_str tripId "" in
        match StaticData.getTrip tripId sds with
        | None => mret tt
        | Some trip =>
            let tripDirection :=
              if bool_decide (Trip.direction_id trip = Some "0")
              then "outbound" else "inbound" in
            let route := StaticData.getRoute (Trip.route_id trip) sds in
            let vehicle := match TripUpdate.vehicle tripUpdate with
                           | Some v => Some v
                           | None => FeedEntity.vehicle entity
                           end in
            match TripUpdate.stopTimeUpdate tripUpdate with
            | Some updates =>
                forEach (processStopTimeUpdate now stopId tripId trip
                           tripDirection route vehicle) updates
            | None => mret tt
            end
        end
  end.

(** [_processTrips]: the predictions pushed onto [stopInfo.upcomingTrips]. *)
Definition _processTrips (tripsFeed : FeedMessage) (stopId : string)
  : M App (list TripInfo.t) :=
  ms ← Date_now;
  let now := ms / 1000 in
  a ← get;
  collect (forEach (processEntity (staticDataService a) now stopId)
                   (entity tripsFeed)).

(** The instant a prediction is sorted by: [new Date(t.estimatedArrival)]. *)
Definition arrivalInstant (t : TripInfo.t) : Z :=
  Js.Date_parse (TripInfo.estimatedArrival t).

(** [Array.prototype.sort] with the comparator
    [(a, b) => new Date(a.estimatedArrival) - new Date(b.estimatedArrival)].
    The sort is stable: predictions with equal instants keep their order. *)
Fixpoint sort_insert (x : TripInfo.t) (l : list TripInfo.t) : list TripInfo.t :=
  match l with
  | [] => [x]
  | y :: l' => if arrivalInstant x - arrivalInstant y <=? 0
               then x :: y :: l'
               else y :: sort_insert x l'
  end.

Fixpoint sort (l : list TripInfo.t) : list TripInfo.t :=
  match l with
  | [] => []
  | x :: l' => sort_insert x (sort l')
  end.

(** The predicate of the direction filter. *)
Definition directionMatches (direction : string) (trip : TripInfo.t) : bool :=
  let routeName := Js.toLowerCase (Js.or_str (Some (TripInfo.routeName trip)) "") in
  let headsign := Js.toLowerCase (Js.or_str (TripInfo.headsign trip) "") in
  let dir := Js.toLowerCase direction in
  if String.eqb dir "eastbound" then
    Js.includes "n" routeName ||
    Js.includes "antioch" headsign ||
    Js.includes "berryessa" headsign ||
    Js.includes "dublin" headsign ||
    Js.includes "pittsburg" headsign
  else if String.eqb dir "westbound" then
    Js.includes "s" routeName ||
    Js.includes "millbrae" headsign ||
    Js.includes "sfo" headsign ||
    Js.includes "daly city" headsign ||
    Js.includes "richmond" headsign
  else true.

Definition _sortAndFilterTrips (upcomingTrips : list TripInfo.t)
    (direction : option string) : list TripInfo.t :=
  let sorted := sort upcomingTrips in
  match direction with
  | Some d => if Js.truthy_str direction
              then filter (fun trip => directionMatches d trip = true) sorted
              else sorted
  | None => sorted
  end.

(** What [direction.toLowerCase()] throws when [direction] is an object. *)
Definition notAFunction : Error :=
  MkError "direction.toLowerCase is not a function".

(** [_sortAndFilterTrips] for any [direction].  An object is truthy, so
    the filter runs, and its callback throws at [direction.toLowerCase()]
    on the first prediction; on an empty array the callback is not
    called. *)
Definition _sortAndFilterTrips_any (upcomingTrips : list TripInfo.t)
    (direction : Js.loose) : result (list TripInfo.t) :=
  match direction with
  | Js.Nullish => Ok (_sortAndFilterTrips upcomingTrips None)
  | Js.Str d => Ok (_sortAndFilterTrips upcomingTrips (Some d))
  | Js.Obj => match sort upcomingTrips with
              | [] => Ok []
              | _ :: _ => Throw notAFunction
              end
  end.

(** One element of [alert.activePeriod.map(...)]. *)
Definition periodBound (b : option Js.int64) : result (option Js.IsoString) :=
  match b with
  | Some v => if Js.truthy_int64 b
              then match Js.toISOString (Js.Number v * 1000) with
                   | Ok s => Ok (Some s)
                   | Throw e => Throw e
                   end
              else Ok None
  | None => Ok None
  end.

Definition mapPeriod (ap : TimeRange.t)
  : M (list (option Js.IsoString * option Js.IsoString)) unit :=
  s ← lift (periodBound (TimeRange.start ap));
  e ← lift (periodBound (TimeRange.end_ ap));
  push (s, e).

(** The body of the [forEach] of [_processAlerts]. *)
Definition processAlertEntity (stopId : string) (entity : FeedEntity.t)
  : M (list AlertView.t) unit :=
  match FeedEntity.alert entity with
  | None => mret tt
  | Some alert =>
      let affectsStop :=
        match Alert.informedEntity alert with
        | Some ies => existsb (fun ie => String.eqb ie stopId) ies
        | None => false
        end in
      if affectsStop then
        periods ← match Alert.activePeriod alert with
                  | Some aps => collect (forEach mapPeriod aps)
                  | None => mret []
                  end;
        push (AlertView.Build
          (Js.or_str (TranslatedString.first_text (Alert.headerText alert)) "Alert")
          (Js.or_str (TranslatedString.first_text (Alert.descriptionText alert)) "")
          (let u := TranslatedString.first_text (Alert.url alert) in
           if Js.truthy_str u then u else None)
          periods)
      else mret tt
  end.

Definition _processAlerts (alertsFeed : FeedMessage) (stopId : string)
  : M App (list AlertView.t) :=
  collect (forEach (processAlertEntity stopId) (entity alertsFeed)).

Definition notFound (stopId : string) : Error :=
  MkError ("Stop " +:+ stopId +:+ " not found").

Definition staleWarning (dataAge : Z) : string :=
  "Real-time data is stale (" +:+ pretty (Js.round_div dataAge 1000) +:+ "s old)".

(** [getStopInfo] for any [direction]. *)
Definition getStopInfo_any (stopId : string) (direction : Js.loose)
  : M App StopInfo :=
  created ← Date_now;
  a ← get;
  match StaticData.getStop stopId (staticDataService a) with
  | None => throw (notFound stopId)
  | Some stop =>
      let stopView :=
        StopView.Build (Stop.stop_id stop) (Stop.stop_name stop)
                       (Stop.stop_code stop) (Stop.platform_code stop)
                       (Stop.stop_lat stop) (Stop.stop_lon stop) in
      tripsFeed ← Monitor.getTrips;
      status ← Monitor.getStatus;
      let tripsStatus := Status.trips status in
      '(warnings1, lastUpdated) ←
        match tripsFeed with
        | None =>
            match Status.error tripsStatus with
            | Some err =>
                if Js.truthy_str (Some err)
                then mret (["Real-time trip data unavailable: " +:+ err],
                           Js.Iso created)
                else mret (["Real-time trip data initializing..."], Js.Iso created)
            | None => mret (["Real-time trip data initializing..."], Js.Iso created)
            end
        | Some _ =>
            now ← Date_now;
            let dataAge := now - default 0 (Status.lastUpdate tripsStatus) in
            mret (if 120000 <? dataAge then [staleWarning dataAge] else [],
                  match Status.lastUpdate tripsStatus with
                  | Some d => Js.Iso d
                  | None => Js.Iso created
                  end)
        end;
      pushed ← match tripsFeed with
               | Some feed => _processTrips feed stopId
               | None => mret []
               end;
      upcoming ← lift (_sortAndFilterTrips_any pushed direction);
      alertsFeed ← Monitor.getAlerts;
      '(alertViews, warnings2) ←
        match alertsFeed with
        | Some feed =>
            views ← _processAlerts feed stopId;
            mret (views, [])
        | None =>
            status ← Monitor.getStatus;
            if Js.truthy_str (Status.error (Status.alerts status))
            then mret ([], ["Real-time alerts data unavailable"])
            else mret ([], [])
        end;
      mret (MkStopInfo (Some stopView) upcoming alertViews
                       (warnings1 ++ warnings2) lastUpdated)
  end.

(** [getStopInfo] for a [direction] that is a string or missing, as the
    callers mean it. *)
Definition getStopInfo (stopId : string) (direction : option string)
  : M App StopInfo :=
  getStopInfo_any stopId
    match direction with Some d => Js.Str d | None => Js.Nullish end.

End Transit.

(** ** The [GET /next] handler *)

Module Arrival.
Record t := Build {
  destination : string;
  minutesUntilArrival : Z;
  status : string;
  vehicle : option string;
  occupancy : option Z }.
End Arrival.

Module NextBody.
Record t := Build {
  station : option string;
  platform : option string;
  direction : string;
  nextArrivals : list Arrival.t;
  lastUpdated : Js.IsoString;
  warnings : option (list string) }.
End NextBody.

Inductive NextReply :=
| NextJson (body : NextBody.t)                          (* res.json(...) *)
| NextFailed (code : Z) (error : string) (timestamp : Js.IsoString).

Module Next.

(** The destination shown for a headsign. *)
Definition destinationOf (headsign : option string) : string :=
  if Js.truthy_str headsign then
    let destination := Js.or_str headsign "" in
    let parts := Js.split " / " destination in
    if (1 <? length parts)%nat then default destination (last parts)
    else destination
  else "Unknown".

Definition statusOf (minutesUntilArrival : Z) : string :=
  if minutesUntilArrival <=? 1 then "arriving" else "scheduled".

(** The function mapped over the truncated list. *)
Definition toArrival (trip : TripInfo.t) : Arrival.t :=
  Arrival.Build
    (destinationOf (TripInfo.headsign trip))
    (TripInfo.minutesUntilArrival trip)
    (statusOf (TripInfo.minutesUntilArrival trip))
    (if Js.truthy_str (TripInfo.vehicleLabel trip)
     then TripInfo.vehicleLabel trip else None)
    (TripInfo.occupancyStatus trip).

(** [parseInt(req.query.limit) || 4]; [parsed] is what [parseInt]
    returned, [None] for [NaN]. *)
Definition limitOf (parsed : option Z) : Z :=
  match parsed with
  | Some n => if n =? 0 then 4 else n
  | None => 4
  end.

Definition nextArrivalsOf (limit : Z) (upcomingTrips : list TripInfo.t)
  : list Arrival.t :=
  toArrival <$> Js.slice0 limit upcomingTrips.

Definition handler (query_stop query_direction : option string)
    (parsedLimit : option Z) : M App NextReply :=
  try_catch
    (let stopId := Js.or_str query_stop config.station_id in
     let direction := Js.or_str query_direction config.station_direction in
     let limit := limitOf parsedLimit in
     stopInfo ← Transit.getStopInfo stopId (Some direction);
     let nextArrivals := nextArrivalsOf limit (upcomingTrips stopInfo) in
     mret (NextJson (NextBody.Build
       (stop stopInfo ≫= StopView.name)
       (stop stopInfo ≫= StopView.platform)
       (Js.or_str (Some direction) "all")
       nextArrivals
       (lastUpdated stopInfo)
       (if (0 <? length (warnings stopInfo))%nat
        then Some (warnings stopInfo) else None))))
    (fun error =>
       now ← Date_now;
       mret (NextFailed 500 (message error) (Js.Iso now))).

End Next.

(** ** The other request handlers of the HTTP front end *)

Module Http.

(** What a handler sends: the status code (200 unless [res.status] was
    called) and the JSON body. *)
Record Sent (B : Type) := Send { code : Z; body : B }.
Arguments Send {B} code body.
Arguments code {B} s.
Arguments body {B} s.

(** [{ error: error.message, timestamp: new Date().toISOString() }] *)
Record Failure := MkFailure { error : string; timestamp : Js.IsoString }.

Inductive StationBody :=
| StopInfoJson (stopInfo : StopInfo)          (* res.json(stopInfo) *)
| StationFailure (failure : Failure).

(** [GET /station]: the configured station. *)
Definition station (query_direction : option string) : M App (Sent StationBody) :=
  try_catch
    (let direction := Js.or_str query_direction config.station_direction in
     stopInfo ← Transit.getStopInfo config.station_id (Some direction);
     mret (Send 200 (StopInfoJson stopInfo)))
    (fun error =>
       now ← Date_now;
       mret (Send 500 (StationFailure (MkFailure (message error) (Js.Iso now))))).

(** [GET /station/:stopId]: any station.  [req.query.direction] is a
    string when the parameter occurs once, and an array or an object when
    it is repeated or written with brackets. *)
Definition stationById (stopId : string) (query_direction : Js.loose)
  : M App (Sent StationBody) :=
  try_catch
    (let direction := Js.or_null query_direction in
     stopInfo ← Transit.getStopInfo_any stopId direction;
     mret (Send 200 (StopInfoJson stopInfo)))
    (fun error =>
       let status := if Js.includes "not found" (message error)
                     then 404 else 500 in
       now ← Date_now;
       mret (Send status (StationFailure (MkFailure (message error) (Js.Iso now))))).

Record HealthBody := MkHealth {
  status : string;
  health_timestamp : Js.IsoString;
  monitor : Status.t;
  staticDataLoaded : StaticStats.t }.

(** [GET /health] *)
Definition health : M App (Sent HealthBody) :=
  status ← Monitor.getStatus;
  let isHealthy := negb (Js.truthy_str (Status.error (Status.trips status)))
                   || Status.hasData (Status.trips status) in
  let responseCode := if isHealthy then 200 else 503 in
  now ← Date_now;
  a ← get;
  mret (Send responseCode
          (MkHealth (if isHealthy then "healthy" else "unhealthy")
                    (Js.Iso now)
                    status
                    (StaticData.getStats (staticDataService a)))).

(** [GET /status] *)
Definition monitorStatus : M App (Sent Status.t) :=
  status ← Monitor.getStatus;
  mret (Send 200 status).

End Http.

(** ** GtfsUpdater *)

(** The updater singleton ([bartUrl] is a constant). *)
Record GtfsUpdater := MkUpdater {
  isUpdating : bool;
  lastUpdate : option Z }.          (* a [Date], as its time value in ms *)

(** What [fetch(initialUrl)] followed by [response.text()] gives, as
    [_resolveDownloadUrl] reads it.  The regular expression of the method
    is not interpreted: [metaRefresh] is its first group on the text of
    the page, [None] when the text has no match. *)
Record Page := MkPage {
  metaRefresh : option string;
  contentType : option string;     (* response.headers.get('content-type') *)
  finalUrl : string }.             (* response.url *)

(** An extraction that does not complete: [extractAllTo] writes the
    entries one after the other and throws at the first it cannot extract
    or write (corrupt data, a bad checksum, an error of the disk).
    [fault_leaves] gives the data directory as the call leaves it, from
    what it was: the entries written before the failure replaced, the
    rest as before. *)
Record Fault := MkFault {
  fault_error : Error;
  fault_leaves : StaticFiles -> StaticFiles }.

(** A zip archive as [AdmZip] opens it: for each of the four tables,
    whether the archive has the entry and, if it has, what [readFileSync]
    followed by [parse] makes of the extracted file.  Other entries do not
    matter to the services.  [zip_fault] is [None] when the extraction of
    the archive goes through. *)
Record Archive := MkArchive {
  zip_stops : option (result (list Stop.t));
  zip_routes : option (result (list Route.t));
  zip_trips : option (result (list Trip.t));
  zip_stop_times : option (result (list StopTime.t));
  zip_fault : option Fault }.

(** The response to the download: [arrayBuffer] is the outcome of reading
    the body, and inside it the outcome of [new AdmZip(Buffer.from(...))]. *)
Record Download := MkDownload {
  download_ok : bool;
  download_statusText : string;
  arrayBuffer : result (result Archive) }.

(** What the two calls of [fetch] of the updater meet, by address. *)
Record Internet := MkInternet {
  pageAt : string -> result Page;
  downloadAt : string -> result Download }.

(** The process as a whole: the services, the updater, and the part of
    the world only the updater talks to. *)
Record Server := MkServer {
  services : App;
  gtfsUpdater : GtfsUpdater;
  internet : Internet }.

(** A method of the services, run inside the server. *)
Definition in_app {A} (c : M App A) : M Server A :=
  fun s => match c (services s) with
           | (r, a') => (r, MkServer a' (gtfsUpdater s) (internet s))
           end.

(** [try { c } finally { f }] where [f] does not throw. *)
Definition finally {S A} (c : M S A) (f : S -> S) : M S A :=
  fun s => match c s with (r, s') => (r, f s') end.

Module Updater.

Definition constructor : GtfsUpdater := MkUpdater false None.

Definition bartUrl : string :=
  "https://www.bart.gov/dev/schedules/google_transit.zip".

(** [u.protocol] and [u.host] of [new URL(bartUrl)]. *)
Definition bartProtocol : string := "https:".
Definition bartHost : string := "www.bart.gov".

Definition set_isUpdating (b : bool) (s : Server) : Server :=
  MkServer (services s) (MkUpdater b (lastUpdate (gtfsUpdater s))) (internet s).
Definition set_lastUpdate (d : option Z) (s : Server) : Server :=
  MkServer (services s) (MkUpdater (isUpdating (gtfsUpdater s)) d) (internet s).

(** [_resolveDownloadUrl(this.bartUrl)] *)
Definition _resolveDownloadUrl : M Server (option string) :=
  s ← get;
  match pageAt (internet s) bartUrl with
  | Throw e => throw e
  | Ok page =>
      if Js.truthy_str (metaRefresh page) then
        let redirectUrl := Js.or_str (metaRefresh page) "" in
        if Js.startsWith "/" redirectUrl
        then mret (Some (bartProtocol +:+ "//" +:+ bartHost +:+ redirectUrl))
        else mret (Some redirectUrl)
      else
        if Js.truthy_str (contentType page)
           && (Js.includes "zip" (Js.or_str (contentType page) "")
               || Js.includes "octet-stream" (Js.or_str (contentType page) ""))
        then mret (Some (finalUrl page))
        else mret None
  end.

(** [_downloadFile(url)] *)
Definition _downloadFile (url : string) : M Server (result Archive) :=
  s ← get;
  match downloadAt (internet s) url with
  | Throw e => throw e
  | Ok response =>
      if negb (download_ok response)
      then throw (MkError ("Download failed: " +:+ download_statusText response))
      else match arrayBuffer response with
           | Ok buffer => mret buffer
           | Throw e => throw e
           end
  end.

(** [zip.extractAllTo(config.paths.staticData, true)], on the files of
    the data directory: every entry of the archive overwrites the file of
    its name, and a file the archive does not have stays as it is; or the
    call throws part of the way. *)
Definition extractAllTo (zip : Archive) : M StaticFiles unit :=
  fun fs =>
    match zip_fault zip with
    | None =>
        (Ok tt,
         MkFiles (default (stops_txt fs) (zip_stops zip))
                 (default (routes_txt fs) (zip_routes zip))
                 (default (trips_txt fs) (zip_trips zip))
                 (default (stop_times_txt fs) (zip_stop_times zip)))
    | Some fault => (Throw (fault_error fault), fault_leaves fault fs)
    end.

(** A call that works on the files of the data directory. *)
Definition on_files {A} (c : M StaticFiles A) : M App A :=
  fun a => match c (files (world a)) with
           | (r, fs) =>
               (r, with_world (fun w => MkWorld fs (clock w) (ticks w)
                                                (net w) (sent w) (trace w)) a)
           end.

(** [_processUpdate(arrayBuffer)] *)
Definition _processUpdate (arrayBuffer : result Archive) : M Server unit :=
  match arrayBuffer with
  | Throw e => throw e
  | Ok zip =>
      if negb (bool_decide (is_Some (zip_trips zip)))
         || negb (bool_decide (is_Some (zip_stops zip)))
      then throw (MkError "Invalid GTFS zip: missing required files")
      else
        in_app (on_files (extractAllTo zip));;
        in_app StaticData.reload
  end.

(** The [try] block of [checkForUpdates]. *)
Definition tryUpdate : M Server unit :=
  downloadUrl ← _resolveDownloadUrl;
  (if negb (Js.truthy_str downloadUrl)
   then throw (MkError "Could not resolve GTFS download URL")
   else mret tt);;
  zipBuffer ← _downloadFile (Js.or_str downloadUrl "");
  _processUpdate zipBuffer;;
  now ← in_app Date_now;
  modify (set_lastUpdate (Some now)).

Definition checkForUpdates : M Server unit :=
  s ← get;
  if isUpdating (gtfsUpdater s) then mret tt
  else
    modify (set_isUpdating true);;
    finally (try_catch tryUpdate (fun error => mret tt))
            (set_isUpdating false).

Inductive UpdateBody :=
| UpdateExecuted (status : string) (timestamp : Js.IsoString)
| UpdateFailure (error : string).

(** [POST /update] *)
Definition update : M Server (Http.Sent UpdateBody) :=
  try_catch
    (checkForUpdates;;
     now ← in_app Date_now;
     mret (Http.Send 200 (UpdateExecuted "Update executed" (Js.Iso now))))
    (fun e => mret (Http.Send 500 (UpdateFailure (message e)))).

End Updater.

(** ** The single-file server the services were split from

    The second program of the HTTP front end keeps no snapshot: it
    fetches a feed for every request. *)

Module Legacy.

(** How an iteration of the loop of [fetchGtfsRtData] ends. *)
Inductive Step :=
| Return (feed : option FeedMessage)
| NextAttempt.

(** The [for] loop of [fetchGtfsRtData], entered with
    [attempt <= retries]; [remaining] is [retries - attempt + 1].  The
    call hands [{ timeout: 5000 }] to the global [fetch], which reads no
    such member, and no abort signal is made: the request is awaited for
    as long as it takes. *)
Fixpoint fetchGtfsRtData_loop (url : string) (retries : Z) (remaining : nat)
    (attempt : Z) : M App (option FeedMessage) :=
  match remaining with
  | O => mret None
  | S remaining' =>
      r ← try_catch
            (att ← Monitor.next_attempt;
             emit (Fetch url (latency att));;
             match reply att with
             | NetworkError e => throw e
             | Response status statusText bodyTime payload =>
                 if negb (Monitor.ok status) then
                   if attempt <? retries
                   then emit (Sleep 1000);; mret NextAttempt
                   else throw (MkError ("HTTP error! status: " +:+ pretty status))
                 else
                   emit (ReadBody bodyTime);;
                   match payload with
                   | Ok feed => mret (Return (Some feed))
                   | Throw e => throw e
                   end
             end)
            (fun error =>
               if attempt <? retries
               then emit (Sleep 1000);; mret NextAttempt
               else mret (Return None));
      match r with
      | Return feed => mret feed
      | NextAttempt => fetchGtfsRtData_loop url retries remaining' (attempt + 1)
      end
  end.

(** [fetchGtfsRtData(url, retries = 2)] *)
Definition fetchGtfsRtData (url : string) (retries : Z)
  : M App (option FeedMessage) :=
  fetchGtfsRtData_loop url retries (Z.to_nat (retries + 1)) 0.

End Legacy.

(** * Vocabulary of the statements *)

(** ** Static index *)

(** The row an identifier resolves to once [rows] have been [set] in
    order: the last row carrying it. *)
Definition lastRow {R} (key : R -> string) (id : string) (rows : list R)
  : option R :=
  last (filter (fun r => key r = id) rows).

(** The index a failed reload leaves, table by table: a table holds the
    rows of its file when that file and those read before it parsed, and
    nothing otherwise. *)
Definition stopsAfterFailure (fs : StaticFiles) (id : string) : option Stop.t :=
  match stops_txt fs with
  | Ok rows => lastRow Stop.stop_id id rows
  | Throw _ => None
  end.

Definition routesAfterFailure (fs : StaticFiles) (id : string) : option Route.t :=
  match stops_txt fs, routes_txt fs with
  | Ok _, Ok rows => lastRow Route.route_id id rows
  | _, _ => None
  end.

Definition tripsAfterFailure (fs : StaticFiles) (id : string) : option Trip.t :=
  match stops_txt fs, routes_txt fs, trips_txt fs with
  | Ok _, Ok _, Ok rows => lastRow Trip.trip_id id rows
  | _, _, _ => None
  end.

(** The exception of the first file that does not parse. *)
Definition firstFailure (fs : StaticFiles) : option Error :=
  match stops_txt fs, routes_txt fs, trips_txt fs, stop_times_txt fs with
  | Throw e, _, _, _ => Some e
  | Ok _, Throw e, _, _ => Some e
  | Ok _, Ok _, Throw e, _ => Some e
  | Ok _, Ok _, Ok _, Throw e => Some e
  | Ok _, Ok _, Ok _, Ok _ => None
  end.

(** The state [reload] hands to [load]. *)
Definition cleared (a : App) : App :=
  with_static (fun _ => MkStatic ∅ ∅ ∅ ∅ false) a.

(** ** Feed poller *)

(** What one attempt comes to, read off the world: the decoded feed, or
    the error the [catch] block receives. *)
Definition attemptResult (att : Attempt) : result FeedMessage :=
  if latency att <? Monitor.timeout then
    match reply att with
    | NetworkError e => Throw e
    | Response status statusText bodyTime payload =>
        if Monitor.ok status then payload
        else Throw (MkError ("HTTP " +:+ pretty status +:+ ": " +:+ statusText))
    end
  else Throw Monitor.AbortError.

(** The events of one attempt. *)
Definition attemptEvents (url : string) (att : Attempt) : list Event :=
  if latency att <? Monitor.timeout then
    match reply att with
    | NetworkError _ => [SetAbortTimer Monitor.timeout; Fetch url (latency att)]
    | Response status _ bodyTime _ =>
        [SetAbortTimer Monitor.timeout; Fetch url (latency att); ClearAbortTimer]
        ++ (if Monitor.ok status then [ReadBody bodyTime] else [])
    end
  else [SetAbortTimer Monitor.timeout; Fetch url Monitor.timeout].

(** The state after [k] more calls of [fetch] that left the events [evs]. *)
Definition advanced (k : nat) (evs : list Event) (a : App) : App :=
  with_world (fun w => MkWorld (files w) (clock w) (ticks w) (net w)
                               (k + sent w) (trace w ++ evs)) a.

(** The [i]-th attempt a call of [fetchFeed] started in [a] will make. *)
Definition upcoming (a : App) (i : nat) : Attempt :=
  net (world a) (i + sent (world a)).

(** How long each [fetch] of a trace was awaited. *)
Fixpoint fetchTimes (evs : list Event) : list Z :=
  match evs with
  | [] => []
  | Fetch _ elapsed :: evs' => elapsed :: fetchTimes evs'
  | _ :: evs' => fetchTimes evs'
  end.

(** The backoff waits of a trace, in order. *)
Fixpoint sleepsOf (evs : list Event) : list Z :=
  match evs with
  | [] => []
  | Sleep ms :: evs' => ms :: sleepsOf evs'
  | _ :: evs' => sleepsOf evs'
  end.







(** The monitor reads of a trace. *)
Fixpoint readsOf (evs : list Event) : list MonitorRead :=
  match evs with
  | [] => []
  | Read r :: evs' => r :: readsOf evs'
  | _ :: evs' => readsOf evs'
  end.

(** The getter that serves the snapshot of a feed. *)
Definition getSnapshot (kind : FeedKind) : M App (option FeedMessage) :=
  match kind with
  | TripsFeed => Monitor.getTrips
  | AlertsFeed => Monitor.getAlerts
  end.

(** A monitor that holds a snapshot of a feed also holds the time it was
    taken. *)
Definition timestamped (m : GtfsMonitor) : Prop :=
  forall kind, is_Some (snapshot kind m) -> is_Some (lastUpdateOf kind m).

(** The address a feed is fetched from and the name it is logged under. *)
Definition feedUrl (kind : FeedKind) : string :=
  match kind with
  | TripsFeed => config.feeds_trips
  | AlertsFeed => config.feeds_alerts
  end.

Definition feedType (kind : FeedKind) : string :=
  match kind with TripsFeed => "trips" | AlertsFeed => "alerts" end.

(** ** Aggregation *)

(** The order predictions are returned in. *)
Definition arrivesNoLater (p q : TripInfo.t) : Prop :=
  Transit.arrivalInstant p <= Transit.arrivalInstant q.

(** [needle] occurs in [text] once [text] is put in lower case. *)
Definition containsCI (needle text : string) : Prop :=
  exists pre suf, Js.toLowerCase text = pre +:+ needle +:+ suf.

(** The headsign of a prediction as text; a missing headsign is empty. *)
Definition headsignText (p : TripInfo.t) : string :=
  default "" (TripInfo.headsign p).

(** The two rules of the direction classifier, as the specification words
    them. *)
Definition eastboundRule (p : TripInfo.t) : Prop :=
  containsCI "n" (TripInfo.routeName p)
  \/ containsCI "antioch" (headsignText p)
  \/ containsCI "berryessa" (headsignText p)
  \/ containsCI "dublin" (headsignText p)
  \/ containsCI "pittsburg" (headsignText p).

Definition westboundRule (p : TripInfo.t) : Prop :=
  containsCI "s" (TripInfo.routeName p)
  \/ containsCI "millbrae" (headsignText p)
  \/ containsCI "sfo" (headsignText p)
  \/ containsCI "daly city" (headsignText p)
  \/ containsCI "richmond" (headsignText p).

(** The prediction passes the direction filter of a call: the rule of
    the direction when it reads "eastbound" or "westbound" in lower case,
    and nothing otherwise. *)
Definition passes (direction : option string) (p : TripInfo.t) : Prop :=
  forall d, direction = Some d ->
    (Js.toLowerCase d = "eastbound" -> eastboundRule p) /\
    (Js.toLowerCase d = "westbound" -> westboundRule p).

(** The state after [k] more readings of the clock that left the events
    [evs]. *)
Definition ticked (k : nat) (evs : list Event) (a : App) : App :=
  with_world (fun w => MkWorld (files w) (clock w) (k + ticks w) (net w)
                               (sent w) (trace w ++ evs)) a.

(** The [i]-th reading of [Date.now()] a method started in [a] will take. *)
Definition reading (a : App) (i : nat) : Z :=
  clock (world a) (i + ticks (world a)).

(** [stopInfo.stop] for a row of stops.txt. *)
Definition viewOf (stop : Stop.t) : StopView.t :=
  StopView.Build (Stop.stop_id stop) (Stop.stop_name stop) (Stop.stop_code stop)
                 (Stop.platform_code stop) (Stop.stop_lat stop) (Stop.stop_lon stop).

(** [arrival?.time || departure?.time] and
    [arrival?.delay || departure?.delay || 0] of a stop time update. *)
Definition timeOf (u : StopTimeUpdate.t) : option Js.int64 :=
  Js.or_int64 (StopTimeUpdate.arrival u ≫= StopTimeEvent.time)
              (StopTimeUpdate.departure u ≫= StopTimeEvent.time).

Definition delayOf (u : StopTimeUpdate.t) : Z :=
  Js.or_num (StopTimeUpdate.arrival u ≫= StopTimeEvent.delay)
            (StopTimeUpdate.departure u ≫= StopTimeEvent.delay).

(** The stop time update is for [stopId] and carries a time after [now]:
    the test a prediction has to pass. *)
Definition upcomingAt (now : Z) (stopId : string) (u : StopTimeUpdate.t) : bool :=
  String.eqb (StopTimeUpdate.stopId u) stopId &&
  match timeOf u with
  | Some t => Js.truthy_int64 (Some t) && (now <? Js.Number t)
  | None => false
  end.

(** [p] is the prediction built at [now] from the stop time update [u] of
    trip [trip], whose route lookup gave [route]. *)
Definition emitted (now : Z) (tripId : string) (trip : Trip.t)
    (route : option Route.t) (u : StopTimeUpdate.t) (p : TripInfo.t) : Prop :=
  exists t,
    timeOf u = Some t /\ now < Js.Number t /\
    TripInfo.tripId p = tripId /\
    TripInfo.routeId p = Trip.route_id trip /\
    TripInfo.headsign p = Trip.trip_headsign trip /\
    TripInfo.estimatedArrival p = Js.Iso (Js.Number t * 1000) /\
    TripInfo.scheduledArrival p = Js.Iso ((Js.Number t - delayOf u) * 1000) /\
    TripInfo.minutesUntilArrival p = Js.round_div (Js.Number t - now) 60 /\
    TripInfo.delay p = delayOf u /\
    TripInfo.routeName p
      = Js.or_str (route ≫= Route.route_short_name) (Trip.route_id trip) /\
    TripInfo.routeLongName p = Js.or_str (route ≫= Route.route_long_name) "" /\
    TripInfo.routeColor p = Transit.colorOf (route ≫= Route.route_color) /\
    TripInfo.routeTextColor p = Transit.colorOf (route ≫= Route.route_text_color).

(** The stop time update [u] belongs to an entity of [feed] whose trip
    identifier [tripId] resolves to [trip] in the static index. *)
Definition updateOf (sds : StaticDataService) (feed : FeedMessage)
    (tripId : string) (trip : Trip.t) (u : StopTimeUpdate.t) : Prop :=
  exists e tu updates,
    e ∈ entity feed /\
    FeedEntity.tripUpdate e = Some tu /\
    TripUpdate.trip tu ≫= TripDescriptor.tripId = Some tripId /\
    tripId <> "" /\
    StaticData.getTrip tripId sds = Some trip /\
    TripUpdate.stopTimeUpdate tu = Some updates /\
    u ∈ updates.

(** The reply of a call that returned (an empty reply otherwise). *)
Definition replyOf (r : result StopInfo * App) : StopInfo :=
  match r.1 with
  | Ok info => info
  | Throw _ => MkStopInfo None [] [] [] (Js.Iso 0)
  end.

(** A time in seconds that [new Date(1000 * seconds)] can hold. *)
Definition timeValid (seconds : Z) : Prop :=
  - Js.maxTime <= seconds * 1000 <= Js.maxTime.

(** Every time of the trip-updates feed, and that time less its delay, is
    a valid date. *)
Definition tripTimesValid (feed : FeedMessage) : Prop :=
  forall e tu updates u t,
    e ∈ entity feed ->
    FeedEntity.tripUpdate e = Some tu ->
    TripUpdate.stopTimeUpdate tu = Some updates ->
    u ∈ updates ->
    timeOf u = Some t ->
    timeValid (Js.Number t) /\ timeValid (Js.Number t - delayOf u).

(** Every bound of an active period of the alerts feed is a valid date. *)
Definition alertTimesValid (feed : FeedMessage) : Prop :=
  forall e al periods ap v,
    e ∈ entity feed ->
    FeedEntity.alert e = Some al ->
    Alert.activePeriod al = Some periods ->
    ap ∈ periods ->
    TimeRange.start ap = Some v \/ TimeRange.end_ ap = Some v ->
    timeValid (Js.Number v).

(** Where a pushed prediction comes from. *)
Definition sourced (sds : StaticDataService) (feed : FeedMessage) (now : Z)
    (stopId : string) (p : TripInfo.t) : Prop :=
  exists tripId trip u,
    updateOf sds feed tripId trip u /\
    StopTimeUpdate.stopId u = stopId /\
    emitted now tripId trip (StaticData.getRoute (Trip.route_id trip) sds) u p.

(** The last part of [getStopInfo], from the read of the alerts feed on. *)
Definition finish (stopId : string) (direction : option string) (a : App)
    (k : nat) (stop : Stop.t) (pushed : list TripInfo.t)
    (warnings1 : list string) (lastUpdated : Js.IsoString)
  : result StopInfo * App :=
  let reads := [Read ReadTrips; Read ReadStatus; Read ReadAlerts] in
  match alertsFeed (gtfsMonitor a) with
  | Some feed =>
      match forEach (Transit.processAlertEntity stopId) (entity feed) [] with
      | (Ok _, views) =>
          (Ok (MkStopInfo (Some (viewOf stop))
                          (Transit._sortAndFilterTrips pushed direction) views
                          (warnings1 ++ []) lastUpdated),
           ticked k reads a)
      | (Throw e, _) => (Throw e, ticked k reads a)
      end
  | None =>
      (Ok (MkStopInfo (Some (viewOf stop))
                      (Transit._sortAndFilterTrips pushed direction) []
                      (warnings1 ++
                       if Js.truthy_str (message <$> alertsError (gtfsMonitor a))
                       then ["Real-time alerts data unavailable"] else [])
                      lastUpdated),
       ticked k (reads ++ [Read ReadStatus]) a)
  end.

(** The same for any [direction]: an object makes the call throw after
    the predictions were gathered, unless there are none. *)
Definition finish_any (stopId : string) (direction : Js.loose) (a : App)
    (k : nat) (stop : Stop.t) (pushed : list TripInfo.t)
    (warnings1 : list string) (lastUpdated : Js.IsoString)
  : result StopInfo * App :=
  match direction with
  | Js.Nullish => finish stopId None a k stop pushed warnings1 lastUpdated
  | Js.Str d => finish stopId (Some d) a k stop pushed warnings1 lastUpdated
  | Js.Obj =>
      match pushed with
      | [] => finish stopId None a k stop pushed warnings1 lastUpdated
      | _ :: _ =>
          (Throw Transit.notAFunction,
           ticked k [Read ReadTrips; Read ReadStatus] a)
      end
  end.

(** ** Next arrivals *)

(** [sep] starts at no position of [cur] when [cur] is followed by [s]. *)
Definition unmatched (sep cur s : string) : Prop :=
  forall pre suf, cur = pre +:+ suf -> suf <> "" ->
                  Js.startsWith sep (suf +:+ s) = false.

(** The last of the parts [sep] cuts [s] into. *)
Definition finalSegment (sep s : string) : string :=
  default s (last (Js.split sep s)).

(** ** Sample data *)

Module Sample.

Definition montgomery : Stop.t :=
  Stop.Build "M20-2" (Some "Montgomery St.") (Some "MONT") (Some "2")
             (Some "37.789355") (Some "-122.401942").

Definition yellow : Route.t :=
  Route.Build "1" (Some "Yellow-N") (Some "Millbrae/SFIA to Antioch")
              (Some "FFFF33") (Some "000000").

Definition trip1 : Trip.t :=
  Trip.Build "1508086" "1" (Some "Antioch") (Some "0").

Definition stopTime1 : StopTime.t := StopTime.Build "1508086" "M20-2" "12".

Definition index : StaticDataService :=
  MkStatic {[ "M20-2" := montgomery ]} {[ "1" := yellow ]}
           {[ "1508086" := trip1 ]} {[ "1508086" := [stopTime1] ]} true.

Definition ENOENT (file : string) : Error :=
  MkError ("ENOENT: no such file or directory, open '" +:+ file +:+ "'").

(** All four files present. *)
Definition filesPresent : StaticFiles :=
  MkFiles (Ok [montgomery]) (Ok [yellow]) (Ok [trip1]) (Ok [stopTime1]).

(** [routes.txt] has gone missing. *)
Definition filesWithoutRoutes : StaticFiles :=
  MkFiles (Ok [montgomery]) (Throw (ENOENT "routes.txt")) (Ok [trip1])
          (Ok [stopTime1]).

(** A server that answers 503 after 120 ms, every time. *)
Definition unavailable : nat -> Attempt :=
  fun _ => MkAttempt 120 (Response 503 "Service Unavailable" 0
                            (Throw (MkError "index out of range: 0 + 1 > 0"))).

Definition world (fs : StaticFiles) (now : Z) : World :=
  MkWorld fs (fun _ => now) 0 unavailable 0 [].

(** The process once the index is loaded, before any feed arrived. *)
Definition started (fs : StaticFiles) (now : Z) : App :=
  MkApp index Monitor.constructor (world fs now).

Definition emptyFeed : FeedMessage := MkFeed [].

(** The process holding a trip-updates snapshot taken at 1000, while the
    server has become unavailable. *)
Definition serving : App :=
  MkApp index
        (MkMonitor (Some emptyFeed) None (Some 1000) None None None true
                   (MkStats 1 0 0 0))
        (world filesPresent 31000).

(** A trip update for trip 1508086: its arrival at M20-2 is 90 s after
    1700000000, with a delay of 30 s. *)
Definition update90 : StopTimeUpdate.t :=
  StopTimeUpdate.Build "M20-2"
    (Some (StopTimeEvent.Build (Some (Js.LongObj 1700000090)) (Some 30)))
    None.

Definition tripUpdate90 : TripUpdate.t :=
  TripUpdate.Build (Some (TripDescriptor.Build (Some "1508086"))) None
                   (Some [update90]).

Definition arrivalIn90s : FeedEntity.t :=
  FeedEntity.Build (Some tripUpdate90) None None.

(** The same trip reaching M20-2 again 600 s after 1700000000, on time. *)
Definition arrivalIn600s : FeedEntity.t :=
  FeedEntity.Build
    (Some (TripUpdate.Build
       (Some (TripDescriptor.Build (Some "1508086")))
       None
       (Some [StopTimeUpdate.Build "M20-2"
                None
                (Some (StopTimeEvent.Build (Some (Js.Num 1700000600)) None))])))
    None None.


(** A prediction as the handlers see it, for a train to Millbrae. *)
Definition toMillbrae : TripInfo.t :=
  TripInfo.Build "1508100" "2" "Yellow-S" "Antioch to SFIA/Millbrae"
                 (Some "SFO/Millbrae") "inbound"
                 (Js.Iso 1700000030000) (Js.Iso 1700000060000) 1 30
                 (Some "#FFFF33") (Some "#000000") None None.

(** The process 250 ms past 1700000000 s, holding that update in a
    snapshot taken 10 s before. *)
Definition arriving : App :=
  MkApp index
        (MkMonitor (Some (MkFeed [arrivalIn90s])) None (Some 1699999990250) None
                   None None true (MkStats 1 0 0 0))
        (world filesPresent 1700000000250).

(** The same process with a snapshot taken 200.6 s before. *)
Definition stale : App :=
  MkApp index
        (MkMonitor (Some (MkFeed [arrivalIn90s])) None (Some 1699999799650) None
                   None None true (MkStats 1 0 0 0))
        (world filesPresent 1700000000250).

(** The same process with a second, later arrival listed first. *)
Definition twoTrains : App :=
  MkApp index
        (MkMonitor (Some (MkFeed [arrivalIn600s; arrivalIn90s])) None
                   (Some 1699999990250) None None None true (MkStats 1 0 0 0))
        (world filesPresent 1700000000250).

(** The same process after the route table has lost route 1. *)
Definition routeLost : App :=
  with_static (StaticData.set_routes (fun _ => ∅)) arriving.

(** The loaded process at the moment routes.txt is missing on disk. *)
Definition routesFileLost : App := started filesWithoutRoutes 0.

End Sample.

(** ** Vocabulary of the further properties *)

(** The process with the files of the data directory replaced by [fs]. *)
Definition with_files (fs : StaticFiles) (a : App) : App :=
  with_world (fun w => MkWorld fs (clock w) (ticks w) (net w) (sent w) (trace w)) a.

(** The stop-time rows of a trip, in the order of the file; a trip
    without rows has no group. *)
Definition groupOf (id : string) (rows : list StopTime.t)
  : option (list StopTime.t) :=
  match filter (fun r => StopTime.trip_id r = id) rows with
  | [] => None
  | g => Some g
  end.

(** The stop-times table is the grouping of the rows of one file, and is
    empty while the index is not initialized. *)
Definition grouped (s : StaticDataService) : Prop :=
  (exists rows, forall id, stopTimes s !! id = groupOf id rows)
  /\ (initialized s = false -> stopTimes s = ∅).

(** The number of different identifiers among the rows of a file. *)
Definition distinct {R} (key : R -> string) (rows : list R) : nat :=
  length (remove_dups (key <$> rows)).

(** The index [load] leaves when it starts from [s] and the four files
    parse to these rows. *)
Definition loaded (s : StaticDataService) (srows : list Stop.t)
    (rrows : list Route.t) (trows : list Trip.t) (strows : list StopTime.t)
  : StaticDataService :=
  MkStatic (foldl (fun m r => <[Stop.stop_id r := r]> m) (stops s) srows)
           (foldl (fun m r => <[Route.route_id r := r]> m) (routes s) rrows)
           (foldl (fun m r => <[Trip.trip_id r := r]> m) (trips s) trows)
           (foldl (fun m r => StaticData.push_stopTime r m) (stopTimes s) strows)
           true.

Global Instance FeedKind_eq_dec : EqDecision FeedKind.
Proof. solve_decision. Defined.

(** Refreshes run one after the other, as the polling timers fire. *)
Definition refreshes (kinds : list FeedKind) : M App unit := forEach refresh kinds.

(** The status code and the status text of a health reply. *)
Definition healthOf (a : App) : Z * string :=
  match (Http.health a).1 with
  | Ok sent => (Http.code sent, Http.status (Http.body sent))
  | Throw _ => (0, "")
  end.

(** The stop time updates of an entity that yield a prediction for
    [stopId] at [now], in the order of the feed, each with the trip
    identifier of the entity and the trip it resolves to. *)
Definition candidates (sds : StaticDataService) (now : Z) (stopId : string)
    (e : FeedEntity.t) : list (string * Trip.t * StopTimeUpdate.t) :=
  match FeedEntity.tripUpdate e with
  | Some tu =>
      match TripUpdate.trip tu ≫= TripDescriptor.tripId with
      | Some tripId =>
          match StaticData.getTrip tripId sds, TripUpdate.stopTimeUpdate tu with
          | Some trip, Some updates =>
              if decide (tripId = "") then []
              else (fun u => (tripId, trip, u))
                     <$> filter (fun u => upcomingAt now stopId u = true) updates
          | _, _ => []
          end
      | None => []
      end
  | None => []
  end.

Definition qualifying (sds : StaticDataService) (now : Z) (stopId : string)
    (feed : FeedMessage) : list (string * Trip.t * StopTimeUpdate.t) :=
  entity feed ≫= candidates sds now stopId.

(** [p] is the prediction of the candidate [c]. *)
Definition predicts (sds : StaticDataService) (now : Z)
    (c : string * Trip.t * StopTimeUpdate.t) (p : TripInfo.t) : Prop :=
  emitted now c.1.1 c.1.2
          (StaticData.getRoute (Trip.route_id c.1.2) sds) c.2 p.

(** The alert names [stopId] in one of its informed entities. *)
Definition affectsStop (stopId : string) (al : Alert.t) : Prop :=
  exists ies, Alert.informedEntity al = Some ies /\ stopId ∈ ies.

Global Instance affectsStop_dec stopId al : Decision (affectsStop stopId al).
Proof.
  unfold affectsStop. destruct (Alert.informedEntity al) as [ies|].
  - destruct (decide (stopId ∈ ies)) as [Hin|Hn].
    + left. by exists ies.
    + right. intros (ies' & [= <-] & Hin). by apply Hn.
  - right. by intros (ies & [=] & _).
Defined.

(** A bound of an active period as a reply shows it.  A [Long] object
    is shown as the instant of its value whatever the value: the 0 the
    decoder puts for a bound the feed leaves out is shown as 1970-01-01.
    A plain number is shown as its instant unless it is 0; a member that
    is not there is not shown. *)
Definition boundView (b : option Js.int64) : option Js.IsoString :=
  match b with
  | Some (Js.LongObj v) => Some (Js.Iso (v * 1000))
  | Some (Js.Num v) => if v =? 0 then None else Some (Js.Iso (v * 1000))
  | None => None
  end.

(** [v] is the view of the alert [al]. *)
Definition shows (al : Alert.t) (v : AlertView.t) : Prop :=
  AlertView.header v
    = Js.or_str (TranslatedString.first_text (Alert.headerText al)) "Alert" /\
  AlertView.description v
    = Js.or_str (TranslatedString.first_text (Alert.descriptionText al)) "" /\
  AlertView.url v
    = (if Js.truthy_str (TranslatedString.first_text (Alert.url al))
       then TranslatedString.first_text (Alert.url al) else None) /\
  AlertView.activePeriod v
    = (fun ap => (boundView (TimeRange.start ap), boundView (TimeRange.end_ ap)))
        <$> default [] (Alert.activePeriod al).

(** The alerts of a feed. *)
Definition alertsOf (feed : FeedMessage) : list Alert.t :=
  omap FeedEntity.alert (entity feed).

(** The alert names [stopId] and has an active period with a bound that
    is no valid date. *)
Definition datedBadly (stopId : string) (al : Alert.t) : Prop :=
  affectsStop stopId al /\
  exists periods ap v,
    Alert.activePeriod al = Some periods /\
    ap ∈ periods /\
    (TimeRange.start ap = Some v \/ TimeRange.end_ ap = Some v) /\
    ~ timeValid (Js.Number v).

Definition alertTimeInvalid (stopId : string) (feed : FeedMessage) : Prop :=
  exists al, al ∈ alertsOf feed /\ datedBadly stopId al.

(** The error [toISOString] raises on an invalid date. *)
Definition invalidTime : Error := MkError "Invalid time value".

(** The addresses the [fetch]es of a trace went to. *)
Fixpoint fetchedUrls (evs : list Event) : list string :=
  match evs with
  | [] => []
  | Fetch url _ :: evs' => url :: fetchedUrls evs'
  | _ :: evs' => fetchedUrls evs'
  end.

(** The feed an attempt delivers when nothing cuts the request short. *)
Definition settled (att : Attempt) : option FeedMessage :=
  match reply att with
  | Response status _ _ (Ok feed) => if Monitor.ok status then Some feed else None
  | _ => None
  end.

(** The events of one attempt of [fetchGtfsRtData]: the request, and the
    read of the body when the response is ok. *)
Definition requestEvents (url : string) (att : Attempt) : list Event :=
  Fetch url (latency att) ::
  match reply att with
  | NetworkError _ => []
  | Response status _ bodyTime _ =>
      if Monitor.ok status then [ReadBody bodyTime] else []
  end.

(** What a handler sent (nothing, with code 0, if it threw). *)
Definition codeOf {B} (r : result (Http.Sent B) * App) : Z :=
  match r.1 with Ok sent => Http.code sent | Throw _ => 0 end.

Definition failureOf (r : result (Http.Sent Http.StationBody) * App)
  : option string :=
  match r.1 with
  | Ok (Http.Send _ (Http.StationFailure f)) => Some (Http.error f)
  | _ => None
  end.

Definition stopInfoOf (r : result (Http.Sent Http.StationBody) * App)
  : option StopInfo :=
  match r.1 with
  | Ok (Http.Send _ (Http.StopInfoJson info)) => Some info
  | _ => None
  end.

(** The reply of [POST /update] (an empty one if the handler threw). *)
Definition updateReply (r : result (Http.Sent Updater.UpdateBody) * Server)
  : Z * option string :=
  match r.1 with
  | Ok (Http.Send code (Updater.UpdateExecuted status _)) => (code, Some status)
  | Ok (Http.Send code (Updater.UpdateFailure _)) => (code, None)
  | Throw _ => (0, None)
  end.

(** The archive has the two entries the updater insists on. *)
Definition complete (zip : Archive) : Prop :=
  is_Some (zip_trips zip) /\ is_Some (zip_stops zip).

Module Fixture.

(** The process right after the singletons are constructed, with the
    four sample files on disk. *)
Definition fresh : App :=
  MkApp StaticData.constructor Monitor.constructor
        (Sample.world Sample.filesPresent 0).

Definition powell : Stop.t :=
  Stop.Build "M30-2" (Some "Powell St.") (Some "POWL") (Some "2")
             (Some "37.784471") (Some "-122.407974").

(** A data set in which Montgomery St. has been replaced by Powell St.,
    and which lists that stop twice. *)
Definition filesPowell : StaticFiles :=
  MkFiles (Ok [powell; powell]) (Ok [Sample.yellow]) (Ok [Sample.trip1])
          (Ok [Sample.stopTime1]).

(** The loaded process with that data set on disk. *)
Definition powellOnDisk : App := with_files filesPowell Sample.serving.

Definition feed90 : FeedMessage := MkFeed [Sample.arrivalIn90s].

(** A train of route 1 that ends at Pleasant Hill, due at M20-2 in
    90 s. *)
Definition tripToPleasantHill : Trip.t :=
  Trip.Build "1508090" "1" (Some "Pleasant Hill") (Some "0").

Definition shortTurnFeed : FeedMessage :=
  MkFeed [FeedEntity.Build
            (Some (TripUpdate.Build
                     (Some (TripDescriptor.Build (Some "1508090"))) None
                     (Some [Sample.update90])))
            None None].

(** The sample process with that trip in its tables and that feed as
    snapshot, and the same once the route table has lost route 1. *)
Definition shortTurn : App :=
  MkApp (StaticData.set_trips (fun m => <["1508090" := tripToPleasantHill]> m)
                              Sample.index)
        (MkMonitor (Some shortTurnFeed) None (Some 1699999990250) None
                   None None true (MkStats 1 0 0 0))
        (Sample.world Sample.filesPresent 1700000000250).

Definition shortTurnLost : App :=
  with_static (StaticData.set_routes (fun _ => ∅)) shortTurn.

(** The stop time update of [Sample.arrivalIn600s]: a departure, with no
    delay. *)
Definition onTime600 : StopTimeUpdate.t :=
  StopTimeUpdate.Build "M20-2" None
    (Some (StopTimeEvent.Build (Some (Js.Num 1700000600)) None)).

(** A server that answers 503 once and then serves [feed90] after
    80 ms, the body taking 40 ms more. *)
Definition recovering : nat -> Attempt :=
  fun i => match i with
           | O => Sample.unavailable i
           | _ => MkAttempt 80 (Response 200 "OK" 40 (Ok feed90))
           end.

(** The freshly constructed process in front of that server, the clock
    at 5000. *)
Definition polling : App :=
  MkApp Sample.index Monitor.constructor
        (MkWorld Sample.filesPresent (fun _ => 5000) 0 recovering 0 []).





(** The freshly constructed process in front of a server that is down. *)
Definition down : App := Sample.started Sample.filesPresent 5000.

(** An alert for Montgomery St. and Powell St., open-ended from
    1700000000 on, as the decoder hands it over: the end the feed leaves
    out is the [Long] 0.  And an alert for another stop. *)
Definition elevator : Alert.t :=
  Alert.Build (Some ["M20-2"; "M30-2"])
              (Some (TranslatedString.Build (Some [Some "Elevator out of service"])))
              None None
              (Some [TimeRange.Build (Some (Js.LongObj 1700000000))
                                     (Some (Js.LongObj 0))]).

Definition elsewhere : Alert.t :=
  Alert.Build (Some ["A10-1"]) None None None None.

Definition alertsFeed : FeedMessage :=
  MkFeed [FeedEntity.Build None None (Some elsewhere);
          FeedEntity.Build None None (Some elevator)].

(** The process holding these alerts and no trip updates yet, the last
    refresh of the trip updates having failed. *)
Definition alerted : App :=
  MkApp Sample.index
        (MkMonitor None (Some alertsFeed) None (Some 1699999990250)
                   (Some (MkError "HTTP 503: Service Unavailable")) None true
                   (MkStats 0 1 1 0))
        (Sample.world Sample.filesPresent 1700000000250).

(** The process holding no feed at all, the last refresh of the trip
    updates having failed. *)
Definition failing : App :=
  MkApp Sample.index
        (MkMonitor None None None None
                   (Some (MkError "HTTP 503: Service Unavailable")) None true
                   (MkStats 0 1 0 0))
        (Sample.world Sample.filesPresent 1700000000250).

(** An alert for Montgomery St. whose period ends, in seconds, one past
    the largest time a [Date] can hold, and the process holding it while
    the refreshes of the trip updates fail. *)
Definition endless : Alert.t :=
  Alert.Build (Some ["M20-2"]) None None None
              (Some [TimeRange.Build (Some (Js.LongObj 1700000000))
                                     (Some (Js.LongObj 8640000000001))]).

Definition misdatedFeed : FeedMessage :=
  MkFeed [FeedEntity.Build None None (Some endless)].

Definition misdated : App :=
  MkApp Sample.index
        (MkMonitor None (Some misdatedFeed) None (Some 1699999990250)
                   (Some (MkError "HTTP 503: Service Unavailable")) None true
                   (MkStats 0 1 1 0))
        (Sample.world Sample.filesPresent 1700000000250).

(** A stop time update whose time, in seconds, is one past the largest
    a [Date] can hold. *)
Definition farFuture : StopTimeUpdate.t :=
  StopTimeUpdate.Build "M20-2"
    (Some (StopTimeEvent.Build (Some (Js.Num 8640000000001)) None)) None.

Definition corruptFeed : FeedMessage :=
  MkFeed [Sample.arrivalIn90s;
          FeedEntity.Build
            (Some (TripUpdate.Build
                     (Some (TripDescriptor.Build (Some "1508086"))) None
                     (Some [farFuture])))
            None None].

(** The sample process holding that feed. *)
Definition corrupt : App :=
  MkApp Sample.index
        (MkMonitor (Some corruptFeed) None (Some 1699999990250) None
                   None None true (MkStats 1 0 0 0))
        (Sample.world Sample.filesPresent 1700000000250).

(** A new data set published as a zip: Powell St. instead of
    Montgomery St., the other three tables as before. *)
Definition archive : Archive :=
  MkArchive (Some (Ok [powell])) (Some (Ok [Sample.yellow]))
            (Some (Ok [Sample.trip1])) (Some (Ok [Sample.stopTime1])) None.

(** The same archive with a routes.txt that does not parse. *)
Definition brokenArchive : Archive :=
  MkArchive (Some (Ok [powell])) (Some (Throw (MkError "Invalid Record Length")))
            (Some (Ok [Sample.trip1])) (Some (Ok [Sample.stopTime1])) None.

(** An archive without stops.txt. *)
Definition incompleteArchive : Archive :=
  MkArchive None (Some (Ok [Sample.yellow])) (Some (Ok [Sample.trip1])) None
            None.

(** The first archive on a disk that takes stops.txt and then refuses
    routes.txt. *)
Definition stuckArchive : Archive :=
  MkArchive (Some (Ok [powell])) (Some (Ok [Sample.yellow]))
            (Some (Ok [Sample.trip1])) (Some (Ok [Sample.stopTime1]))
            (Some (MkFault
                     (MkError "EACCES: permission denied, open 'routes.txt'")
                     (fun fs => MkFiles (Ok [powell]) (routes_txt fs)
                                        (trips_txt fs) (stop_times_txt fs)))).

(** The schedule page redirects to a relative address, where [zip] is
    served. *)
Definition publishing (zip : Archive) : Internet :=
  MkInternet
    (fun _ => Ok (MkPage (Some "/sites/default/files/google_transit.zip")
                         (Some "text/html") Updater.bartUrl))
    (fun url =>
       if String.eqb url "https://www.bart.gov/sites/default/files/google_transit.zip"
       then Ok (MkDownload true "OK" (Ok (Ok zip)))
       else Ok (MkDownload false "Not Found"
                           (Throw (MkError "body used already")))).

(** The loaded server in front of that site. *)
Definition server (zip : Archive) : Server :=
  MkServer Sample.serving Updater.constructor (publishing zip).

(** The loaded server with the network down. *)
Definition offline : Server :=
  MkServer Sample.serving Updater.constructor
           (MkInternet (fun _ => Throw (MkError "fetch failed"))
                       (fun _ => Throw (MkError "fetch failed"))).

End Fixture.

(** * Properties *)

(** ** The monad *)

(** Unfold the plumbing of the monad and compute. *)
Ltac unfold_monad :=
  unfold mbind, M_bind, bind, mret, M_ret, ret, throw, try_catch, modify, get,
    emit, Date_now, with_world, with_static, with_monitor in *;
  cbn in *.

Lemma bind_Ok {S A B} (c : M S A) (k : A -> M S B) s a s' :
  c s = (Ok a, s') -> (c ≫= k) s = k a s'.
Proof. intros H. unfold mbind, M_bind, bind. by rewrite H. Qed.

Lemma bind_Throw {S A B} (c : M S A) (k : A -> M S B) s e s' :
  c s = (Throw e, s') -> (c ≫= k) s = (Throw e, s').
Proof. intros H. unfold mbind, M_bind, bind. by rewrite H. Qed.

Lemma forEach_modify {S A} (f : A -> S -> S) (l : list A) (s : S) :
  forEach (fun x => modify (f x)) l s = (Ok tt, foldl (fun s x => f x s) s l).
Proof.
  revert s. induction l as [|x l IH]; intros s; [done|].
  cbn [forEach foldl]. by erewrite bind_Ok; [apply IH|].
Qed.

(** ** StaticDataService: what a failed reload leaves behind *)

Section StaticDataFacts.

Import StaticData.

Lemma lookup_foldl_insert {R} (key : R -> string) (rows : list R)
    (m : gmap string R) (id : string) :
  foldl (fun m r => <[key r := r]> m) m rows !! id
  = match lastRow key id rows with Some r => Some r | None => m !! id end.
Proof.
  revert m. induction rows as [|r rows IH]; intros m; [done|].
  cbn [foldl]. rewrite IH. unfold lastRow. rewrite filter_cons.
  destruct (decide (key r = id)) as [Heq|Hne].
  - destruct (filter _ rows) as [|r' l] eqn:Hf.
    + cbn. subst id. apply lookup_insert_eq.
    + rewrite last_cons_cons. destruct (last (r' :: l)) eqn:Hl; [done|].
      by apply last_None in Hl.
  - destruct (last (filter _ rows)); [done|]. by rewrite lookup_insert_ne.
Qed.

Lemma forEach_with_static {R} (upd : R -> StaticDataService -> StaticDataService)
    (rows : list R) (a : App) :
  forEach (fun r => modify (with_static (upd r))) rows a
  = (Ok tt, with_static (fun s => foldl (fun s r => upd r s) s rows) a).
Proof.
  rewrite forEach_modify. f_equal.
  revert a. induction rows as [|r rows IH]; intros a.
  - by destruct a.
  - cbn [foldl]. rewrite IH. by destruct a.
Qed.

Lemma foldl_set_stops (g : Stop.t -> gmap string Stop.t -> gmap string Stop.t)
    rows s :
  foldl (fun s r => set_stops (g r) s) s rows
  = set_stops (fun m => foldl (fun m r => g r m) m rows) s.
Proof.
  revert s. induction rows as [|r rows IH]; intros s; cbn [foldl].
  - by destruct s.
  - rewrite IH. by destruct s.
Qed.

Lemma foldl_set_routes (g : Route.t -> gmap string Route.t -> gmap string Route.t)
    rows s :
  foldl (fun s r => set_routes (g r) s) s rows
  = set_routes (fun m => foldl (fun m r => g r m) m rows) s.
Proof.
  revert s. induction rows as [|r rows IH]; intros s; cbn [foldl].
  - by destruct s.
  - rewrite IH. by destruct s.
Qed.

Lemma foldl_set_trips (g : Trip.t -> gmap string Trip.t -> gmap string Trip.t)
    rows s :
  foldl (fun s r => set_trips (g r) s) s rows
  = set_trips (fun m => foldl (fun m r => g r m) m rows) s.
Proof.
  revert s. induction rows as [|r rows IH]; intros s; cbn [foldl].
  - by destruct s.
  - rewrite IH. by destruct s.
Qed.

Lemma world_with_static f a : world (with_static f a) = world a.
Proof. done. Qed.

(** [load] on a service that is not initialized, file by file. *)
Lemma load_run (a : App) :
  initialized (staticDataService a) = false ->
  load a =
  match stops_txt (files (world a)) with
  | Throw e => (Throw e, a)
  | Ok srows =>
    let a1 := with_static (fun s => foldl (fun s r =>
                set_stops <[Stop.stop_id r := r]> s) s srows) a in
    match routes_txt (files (world a)) with
    | Throw e => (Throw e, a1)
    | Ok rrows =>
      let a2 := with_static (fun s => foldl (fun s r =>
                  set_routes <[Route.route_id r := r]> s) s rrows) a1 in
      match trips_txt (files (world a)) with
      | Throw e => (Throw e, a2)
      | Ok trows =>
        let a3 := with_static (fun s => foldl (fun s r =>
                    set_trips <[Trip.trip_id r := r]> s) s trows) a2 in
        match stop_times_txt (files (world a)) with
        | Throw e => (Throw e, a3)
        | Ok strows =>
          (Ok tt, with_static (set_initialized true)
                    (with_static (fun s => foldl (fun s r =>
                       set_stopTimes (push_stopTime r) s) s strows) a3))
        end
      end
    end
  end.
Proof.
  intros Hi. unfold load.
  rewrite (bind_Ok get _ a a a) by done. rewrite Hi. unfold try_catch.
  destruct (stops_txt (files (world a))) as [srows|e] eqn:Hs.
  2: { erewrite bind_Throw; [done|]. unfold readTable. by rewrite Hs. }
  erewrite bind_Ok; [|unfold readTable; by rewrite Hs].
  erewrite bind_Ok; [|apply forEach_with_static]. cbv zeta.
  destruct (routes_txt (files (world a))) as [rrows|e] eqn:Hr.
  2: { erewrite bind_Throw; [done|]. unfold readTable.
       by rewrite world_with_static, Hr. }
  erewrite bind_Ok; [|unfold readTable; by rewrite world_with_static, Hr].
  erewrite bind_Ok; [|apply forEach_with_static].
  destruct (trips_txt (files (world a))) as [trows|e] eqn:Ht.
  2: { erewrite bind_Throw; [done|]. unfold readTable.
       by rewrite !world_with_static, Ht. }
  erewrite bind_Ok; [|unfold readTable; by rewrite !world_with_static, Ht].
  erewrite bind_Ok; [|apply forEach_with_static].
  destruct (stop_times_txt (files (world a))) as [strows|e] eqn:Hst.
  2: { erewrite bind_Throw; [done|]. unfold readTable.
       by rewrite !world_with_static, Hst. }
  erewrite bind_Ok; [|unfold readTable; by rewrite !world_with_static, Hst].
  erewrite bind_Ok; [|apply forEach_with_static].
  done.
Qed.

Lemma reload_run (a : App) : reload a = load (cleared a).
Proof. by destruct a as [[] ? ?]. Qed.

(** C1 (as amended): when [reload()] meets a missing or malformed file it
    throws that file's error, and the index loaded before is not kept:
    the four tables were cleared first, so afterwards a table holds the
    rows of its current file if that file and the files read before it
    (stops, routes, trips, stop-times, in this order) parsed, and is
    empty otherwise; the stop-times table is empty and the service is
    left uninitialized.  Nothing but the static index changes. *)
Theorem reload_failure_index (a a' : App) (e : Error) :
  reload a = (Throw e, a') ->
  firstFailure (files (world a)) = Some e /\
  world a' = world a /\
  gtfsMonitor a' = gtfsMonitor a /\
  initialized (staticDataService a') = false /\
  stopTimes (staticDataService a') = ∅ /\
  (forall id, getStop id (staticDataService a')
              = stopsAfterFailure (files (world a)) id) /\
  (forall id, getRoute id (staticDataService a')
              = routesAfterFailure (files (world a)) id) /\
  (forall id, getTrip id (staticDataService a')
              = tripsAfterFailure (files (world a)) id).
Proof.
  rewrite reload_run, load_run by done.
  unfold firstFailure, stopsAfterFailure, routesAfterFailure,
    tripsAfterFailure, getStop, getRoute, getTrip.
  change (files (world (cleared a))) with (files (world a)).
  destruct (stops_txt (files (world a))) as [srows|es].
  2: { intros [= <- <-]. by repeat split. }
  destruct (routes_txt (files (world a))) as [rrows|er].
  2: { intros [= <- <-]. cbn. rewrite foldl_set_stops. cbn.
       repeat split; try done.
       intros id. rewrite lookup_foldl_insert, lookup_empty.
       by destruct (lastRow _ _ _). }
  destruct (trips_txt (files (world a))) as [trows|et].
  2: { intros [= <- <-]. cbn. rewrite foldl_set_routes, foldl_set_stops. cbn.
       repeat split; try done.
       all: intros id; rewrite lookup_foldl_insert, lookup_empty;
         by destruct (lastRow _ _ _). }
  destruct (stop_times_txt (files (world a))) as [strows|est].
  2: { intros [= <- <-]. cbn.
       rewrite foldl_set_trips, foldl_set_routes, foldl_set_stops. cbn.
       repeat split; try done.
       all: intros id; rewrite lookup_foldl_insert, lookup_empty;
         by destruct (lastRow _ _ _). }
  intros [=].
Qed.

(** C1, counterexample: an index that resolves route 1, trip 1508086 and
    stop M20-2, reloaded while routes.txt is missing.  The reload throws;
    the route and the trip no longer resolve and the stop-times table is
    empty, although trips.txt and stop_times.txt are intact; the stop
    resolves only because stops.txt was read again first. *)
Lemma reload_failure_loses_trips :
  (reload Sample.routesFileLost).1 = Throw (Sample.ENOENT "routes.txt") /\
  getRoute "1" (staticDataService Sample.routesFileLost) = Some Sample.yellow /\
  getRoute "1" (staticDataService (reload Sample.routesFileLost).2) = None /\
  getTrip "1508086" (staticDataService Sample.routesFileLost)
    = Some Sample.trip1 /\
  getTrip "1508086" (staticDataService (reload Sample.routesFileLost).2)
    = None /\
  stopTimes (staticDataService Sample.routesFileLost) !! "1508086"
    = Some [Sample.stopTime1] /\
  stopTimes (staticDataService (reload Sample.routesFileLost).2) !! "1508086"
    = None /\
  getStop "M20-2" (staticDataService (reload Sample.routesFileLost).2)
    = Some Sample.montgomery.
Proof. vm_compute. by repeat split. Qed.

Lemma reload_failure_index_witness :
  reload Sample.routesFileLost
    = (Throw (Sample.ENOENT "routes.txt"), (reload Sample.routesFileLost).2) /\
  getStop "M20-2" (staticDataService (reload Sample.routesFileLost).2)
    = Some Sample.montgomery /\
  getTrip "1508086" (staticDataService (reload Sample.routesFileLost).2)
    = None.
Proof.
  assert (H : reload Sample.routesFileLost
              = (Throw (Sample.ENOENT "routes.txt"),
                 (reload Sample.routesFileLost).2))
    by (vm_compute; reflexivity).
  split; [exact H|].
  destruct (reload_failure_index _ _ _ H) as (_ & _ & _ & _ & _ & Hs & _ & Ht).
  split; [rewrite Hs | rewrite Ht]; vm_compute; reflexivity.
Defined.

End StaticDataFacts.


(** ** GtfsMonitor: one refresh *)

Section MonitorFacts.

Import Monitor.

Lemma attempt_body_run (url : string) (a : App) :
  attempt_body url a
  = (attemptResult (upcoming a 0),
     advanced 1 (attemptEvents url (upcoming a 0)) a).
Proof.
  destruct a as [sds mon [fs ck tk nt sn tr]].
  unfold attempt_body, attemptResult, attemptEvents, upcoming, advanced.
  unfold mbind, M_bind, bind, emit, modify, next_attempt, throw, mret, M_ret, ret,
    with_world.
  cbn. destruct (latency (nt sn) <? timeout); cbn.
  - destruct (reply (nt sn)) as [e|status statusText bodyTime payload]; cbn.
    + by rewrite <- !app_assoc.
    + destruct (ok status); [destruct payload|]; cbn; by rewrite <- !app_assoc.
  - by rewrite <- !app_assoc.
Qed.

(** One iteration of the loop of [fetchFeed]. *)
Lemma fetchFeed_loop_step url remaining attempt lastError (a : App) :
  fetchFeed_loop url (S remaining) attempt lastError a
  = match attemptResult (upcoming a 0) with
    | Ok feed => (Ok feed, advanced 1 (attemptEvents url (upcoming a 0)) a)
    | Throw e =>
        fetchFeed_loop url remaining (attempt + 1) (Some e)
          (advanced 1 (attemptEvents url (upcoming a 0)
                       ++ (if attempt =? retries then []
                           else [Sleep (1000 * 2 ^ (attempt - 1))])) a)
    end.
Proof.
  cbn [fetchFeed_loop].
  unfold mbind at 1. unfold M_bind, bind, try_catch.
  unfold mbind at 1. unfold M_bind, bind.
  rewrite attempt_body_run.
  destruct (attemptResult (upcoming a 0)) as [feed|e]; [done|].
  destruct a as [sds mon [fs ck tk nt sn tr]].
  unfold advanced. destruct (attempt =? retries); unfold_monad.
  - by rewrite app_nil_r.
  - by rewrite <- !app_assoc.
Qed.

Lemma advanced_advanced k1 k2 evs1 evs2 a :
  advanced k2 evs2 (advanced k1 evs1 a) = advanced (k2 + k1) (evs1 ++ evs2) a.
Proof.
  destruct a as [sds mon [fs ck tk nt sn tr]]. unfold advanced, with_world. cbn.
  by rewrite <- app_assoc, Nat.add_assoc.
Qed.

Lemma upcoming_advanced k evs a i :
  upcoming (advanced k evs a) i = upcoming a (i + k).
Proof. unfold upcoming, advanced, with_world. cbn. by rewrite Nat.add_assoc. Qed.

(** [fetchFeed], attempt by attempt. *)
Lemma fetchFeed_run (url type : string) (a : App) :
  fetchFeed url type a
  = let ev i := attemptEvents url (upcoming a i) in
    match attemptResult (upcoming a 0) with
    | Ok feed => (Ok feed, advanced 1 (ev 0%nat) a)
    | Throw _ =>
      match attemptResult (upcoming a 1) with
      | Ok feed => (Ok feed, advanced 2 (ev 0%nat ++ [Sleep 1000] ++ ev 1%nat) a)
      | Throw _ =>
        let evs := ev 0%nat ++ [Sleep 1000] ++ ev 1%nat ++ [Sleep 2000] ++ ev 2%nat in
        match attemptResult (upcoming a 2) with
        | Ok feed => (Ok feed, advanced 3 evs a)
        | Throw e => (Throw e, advanced 3 evs a)
        end
      end
    end.
Proof.
  unfold fetchFeed. change (Z.to_nat retries) with 3%nat.
  rewrite fetchFeed_loop_step.
  destruct (attemptResult (upcoming a 0)) as [feed|e1]; [done|].
  rewrite fetchFeed_loop_step, upcoming_advanced, advanced_advanced.
  change (0 + 1)%nat with 1%nat.
  destruct (attemptResult (upcoming a 1)) as [feed|e2].
  { cbn. by rewrite <- !app_assoc. }
  rewrite fetchFeed_loop_step, !upcoming_advanced, !advanced_advanced.
  change (0 + 1 + 1)%nat with 2%nat.
  destruct (attemptResult (upcoming a 2)) as [feed|e3].
  { cbn. by rewrite <- !app_assoc. }
  cbn. unfold throw. by rewrite app_nil_r, <- !app_assoc.
Qed.

Lemma fetchTimes_app evs1 evs2 :
  fetchTimes (evs1 ++ evs2) = fetchTimes evs1 ++ fetchTimes evs2.
Proof.
  induction evs1 as [|[] evs1 IH]; cbn; by rewrite ?IH.
Qed.

Lemma sleepsOf_app evs1 evs2 :
  sleepsOf (evs1 ++ evs2) = sleepsOf evs1 ++ sleepsOf evs2.
Proof.
  induction evs1 as [|[] evs1 IH]; cbn; by rewrite ?IH.
Qed.


Lemma sleepsOf_attempt url att : sleepsOf (attemptEvents url att) = [].
Proof.
  unfold attemptEvents.
  destruct (latency att <? timeout); [|done].
  destruct (reply att) as [e|status statusText bodyTime payload]; [done|].
  by destruct (ok status).
Qed.




Lemma abort_on_timeout att :
  timeout <= latency att -> attemptResult att = Throw AbortError.
Proof.
  intros H. unfold attemptResult.
  destruct (latency att <? timeout) eqn:Hl; [apply Z.ltb_lt in Hl; lia|done].
Qed.

Lemma advanced_world k evs a :
  sent (world (advanced k evs a)) = (k + sent (world a))%nat
  /\ trace (world (advanced k evs a)) = trace (world a) ++ evs
  /\ clock (world (advanced k evs a)) = clock (world a)
  /\ ticks (world (advanced k evs a)) = ticks (world a)
  /\ net (world (advanced k evs a)) = net (world a)
  /\ files (world (advanced k evs a)) = files (world a)
  /\ gtfsMonitor (advanced k evs a) = gtfsMonitor a
  /\ staticDataService (advanced k evs a) = staticDataService a.
Proof. done. Qed.

Lemma updateTrips_failed (a a1 : App) (e : Error) :
  fetchFeed config.feeds_trips "trips" a = (Throw e, a1) ->
  updateTrips a
  = (Ok tt, with_monitor (fun m => set_stats incr_tripErrors
                                     (set_tripsError (Some e) m)) a1).
Proof.
  intros H. unfold updateTrips, try_catch.
  erewrite bind_Throw by exact H. by destruct a1.
Qed.

Lemma updateAlerts_failed (a a1 : App) (e : Error) :
  fetchFeed config.feeds_alerts "alerts" a = (Throw e, a1) ->
  updateAlerts a
  = (Ok tt, with_monitor (fun m => set_stats incr_alertErrors
                                     (set_alertsError (Some e) m)) a1).
Proof.
  intros H. unfold updateAlerts, try_catch.
  erewrite bind_Throw by exact H. by destruct a1.
Qed.

Lemma fetchFeed_exhausted url type (a : App) (e1 e2 e3 : Error) :
  attemptResult (upcoming a 0) = Throw e1 ->
  attemptResult (upcoming a 1) = Throw e2 ->
  attemptResult (upcoming a 2) = Throw e3 ->
  exists evs, fetchFeed url type a = (Throw e3, advanced 3 evs a).
Proof.
  intros H1 H2 H3. rewrite fetchFeed_run, H1, H2, H3. eauto.
Qed.

(** C2: a refresh of either feed whose three attempts all fail returns
    normally after exactly three calls of [fetch]; the snapshot of the feed
    and the time of its last update are what they were, and the getter
    still serves that snapshot; the status of the feed shows the message
    of the third error; the error counter of the feed is one higher and
    its success counter unchanged; the slot of the other feed is
    untouched. *)
Theorem refresh_exhausted (kind : FeedKind) (a : App) (e1 e2 e3 : Error) :
  attemptResult (upcoming a 0) = Throw e1 ->
  attemptResult (upcoming a 1) = Throw e2 ->
  attemptResult (upcoming a 2) = Throw e3 ->
  (refresh kind a).1 = Ok tt /\
  sent (world (refresh kind a).2) = (3 + sent (world a))%nat /\
  snapshot kind (gtfsMonitor (refresh kind a).2) = snapshot kind (gtfsMonitor a) /\
  lastUpdateOf kind (gtfsMonitor (refresh kind a).2)
    = lastUpdateOf kind (gtfsMonitor a) /\
  (getSnapshot kind (refresh kind a).2).1 = Ok (snapshot kind (gtfsMonitor a)) /\
  Status.error (statusOf kind (status_of (gtfsMonitor (refresh kind a).2)))
    = Some (message e3) /\
  errorCount kind (gtfsMonitor (refresh kind a).2)
    = errorCount kind (gtfsMonitor a) + 1 /\
  successCount kind (gtfsMonitor (refresh kind a).2)
    = successCount kind (gtfsMonitor a) /\
  (forall other, other <> kind ->
     snapshot other (gtfsMonitor (refresh kind a).2)
       = snapshot other (gtfsMonitor a) /\
     lastUpdateOf other (gtfsMonitor (refresh kind a).2)
       = lastUpdateOf other (gtfsMonitor a) /\
     statusOf other (status_of (gtfsMonitor (refresh kind a).2))
       = statusOf other (status_of (gtfsMonitor a)) /\
     errorCount other (gtfsMonitor (refresh kind a).2)
       = errorCount other (gtfsMonitor a) /\
     successCount other (gtfsMonitor (refresh kind a).2)
       = successCount other (gtfsMonitor a)).
Proof.
  intros H1 H2 H3. destruct kind; unfold refresh.
  - destruct (fetchFeed_exhausted config.feeds_trips "trips" a _ _ _ H1 H2 H3)
      as [evs Hf].
    rewrite (updateTrips_failed _ _ _ Hf).
    clear H1 H2 H3 Hf. destruct a as [sds mon [fs ck tk nt sn tr]]. cbn.
    repeat split; by destruct other.
  - destruct (fetchFeed_exhausted config.feeds_alerts "alerts" a _ _ _ H1 H2 H3)
      as [evs Hf].
    rewrite (updateAlerts_failed _ _ _ Hf).
    clear H1 H2 H3 Hf. destruct a as [sds mon [fs ck tk nt sn tr]]. cbn.
    repeat split; by destruct other.
Qed.

(** Three replies "503 Service Unavailable" in a row, met by a monitor
    that holds a trip-updates snapshot taken at 1000: the snapshot stays,
    the status reads "HTTP 503: Service Unavailable", and the error
    counter goes from 0 to 1. *)
Lemma refresh_exhausted_witness :
  attemptResult (upcoming Sample.serving 0)
    = Throw (MkError "HTTP 503: Service Unavailable") /\
  snapshot TripsFeed (gtfsMonitor (refresh TripsFeed Sample.serving).2)
    = Some Sample.emptyFeed /\
  lastUpdateOf TripsFeed (gtfsMonitor (refresh TripsFeed Sample.serving).2)
    = Some 1000 /\
  Status.error (statusOf TripsFeed
                  (status_of (gtfsMonitor (refresh TripsFeed Sample.serving).2)))
    = Some "HTTP 503: Service Unavailable" /\
  errorCount TripsFeed (gtfsMonitor Sample.serving) = 0 /\
  errorCount TripsFeed (gtfsMonitor (refresh TripsFeed Sample.serving).2) = 1.
Proof.
  assert (H : forall i, attemptResult (upcoming Sample.serving i)
                        = Throw (MkError "HTTP 503: Service Unavailable"))
    by (intros i; vm_compute; reflexivity).
  split; [apply H|].
  destruct (refresh_exhausted TripsFeed Sample.serving _ _ _
              (H 0%nat) (H 1%nat) (H 2%nat))
    as (_ & _ & Hs & Hl & _ & He & Hc & _).
  split; [etransitivity; [exact Hs|]; vm_compute; reflexivity|].
  split; [etransitivity; [exact Hl|]; vm_compute; reflexivity|].
  split; [etransitivity; [exact He|]; vm_compute; reflexivity|].
  split; [vm_compute; reflexivity|].
  etransitivity; [exact Hc|]; vm_compute; reflexivity.
Defined.

Lemma updateTrips_succeeded (a a1 : App) (feed : FeedMessage) :
  fetchFeed config.feeds_trips "trips" a = (Ok feed, a1) ->
  updateTrips a
  = (Ok tt,
     with_monitor (fun m => set_stats incr_tripUpdates
                              (set_tripsError None
                                 (set_lastTripsUpdate (Some (reading a1 0))
                                    (set_tripsFeed (Some feed) m))))
                  (ticked 1 [] a1)).
Proof.
  intros H. unfold updateTrips, try_catch.
  erewrite bind_Ok by exact H.
  destruct a1 as [sds mon [fs ck tk nt sn tr]].
  unfold_monad. unfold ticked, reading, with_world. cbn. by rewrite app_nil_r.
Qed.

Lemma updateAlerts_succeeded (a a1 : App) (feed : FeedMessage) :
  fetchFeed config.feeds_alerts "alerts" a = (Ok feed, a1) ->
  updateAlerts a
  = (Ok tt,
     with_monitor (fun m => set_stats incr_alertUpdates
                              (set_alertsError None
                                 (set_lastAlertsUpdate (Some (reading a1 0))
                                    (set_alertsFeed (Some feed) m))))
                  (ticked 1 [] a1)).
Proof.
  intros H. unfold updateAlerts, try_catch.
  erewrite bind_Ok by exact H.
  destruct a1 as [sds mon [fs ck tk nt sn tr]].
  unfold_monad. unfold ticked, reading, with_world. cbn. by rewrite app_nil_r.
Qed.

(** A refresh whose fetch succeeds installs the snapshot together with
    the time, clears the error and counts one more success. *)
Lemma refresh_succeeded (kind : FeedKind) (a a1 : App) (feed : FeedMessage) :
  fetchFeed (feedUrl kind) (feedType kind) a = (Ok feed, a1) ->
  (refresh kind a).1 = Ok tt /\
  snapshot kind (gtfsMonitor (refresh kind a).2) = Some feed /\
  lastUpdateOf kind (gtfsMonitor (refresh kind a).2) = Some (reading a1 0) /\
  Status.error (statusOf kind (status_of (gtfsMonitor (refresh kind a).2))) = None /\
  successCount kind (gtfsMonitor (refresh kind a).2)
    = successCount kind (gtfsMonitor a1) + 1 /\
  errorCount kind (gtfsMonitor (refresh kind a).2) = errorCount kind (gtfsMonitor a1).
Proof.
  intros H. destruct kind; unfold refresh; cbn [feedUrl feedType] in H.
  - by rewrite (updateTrips_succeeded _ _ _ H).
  - by rewrite (updateAlerts_succeeded _ _ _ H).
Qed.

Lemma fetchFeed_monitor url type (a : App) :
  gtfsMonitor (fetchFeed url type a).2 = gtfsMonitor a.
Proof.
  rewrite fetchFeed_run. cbv zeta.
  destruct (attemptResult (upcoming a 0)); [done|].
  destruct (attemptResult (upcoming a 1)); [done|].
  by destruct (attemptResult (upcoming a 2)).
Qed.










(** Refreshes keep every snapshot paired with its timestamp. *)
Lemma refresh_timestamped (kind : FeedKind) (a : App) :
  timestamped (gtfsMonitor a) -> timestamped (gtfsMonitor (refresh kind a).2).
Proof.
  intros Hts.
  pose proof (fetchFeed_monitor (feedUrl kind) (feedType kind) a) as Hmon.
  destruct (fetchFeed (feedUrl kind) (feedType kind) a) as [[feed|e] a1] eqn:Hf;
    cbn [snd] in Hmon.
  - destruct kind; unfold refresh; cbn [feedUrl feedType] in Hf.
    + rewrite (updateTrips_succeeded _ _ _ Hf). cbn.
      intros [] Hk; cbn in *; [by eexists|].
      rewrite Hmon in *. by apply (Hts AlertsFeed).
    + rewrite (updateAlerts_succeeded _ _ _ Hf). cbn.
      intros [] Hk; cbn in *; [|by eexists].
      rewrite Hmon in *. by apply (Hts TripsFeed).
  - destruct kind; unfold refresh; cbn [feedUrl feedType] in Hf.
    + rewrite (updateTrips_failed _ _ _ Hf). cbn.
      intros kind Hk. specialize (Hts kind). rewrite <- Hmon in Hts.
      destruct kind; by apply Hts.
    + rewrite (updateAlerts_failed _ _ _ Hf). cbn.
      intros kind Hk. specialize (Hts kind). rewrite <- Hmon in Hts.
      destruct kind; by apply Hts.
Qed.

Lemma constructor_timestamped : timestamped Monitor.constructor.
Proof. intros [] [? [=]]. Qed.

End MonitorFacts.


(** ** Strings *)

Section StringFacts.

Lemma append_cons c (s t : string) : String c s +:+ t = String c (s +:+ t).
Proof. done. Qed.

Lemma append_nil (t : string) : "" +:+ t = t.
Proof. done. Qed.

Lemma startsWith_spec (p s : string) :
  Js.startsWith p s = true <-> exists suf, s = p +:+ suf.
Proof.
  revert s. induction p as [|a p IH]; intros s; cbn.
  - split; [eauto|done].
  - destruct s as [|b s]; cbn.
    + split; [done|]. intros [suf H]. by rewrite append_cons in H.
    + destruct (Ascii.eqb_spec a b) as [->|Hne].
      * rewrite IH. split; intros [suf H]; exists suf;
          rewrite append_cons in *; congruence.
      * split; [done|]. intros [suf H]. rewrite append_cons in H. congruence.
Qed.

Lemma includes_spec (needle hay : string) :
  Js.includes needle hay = true
  <-> exists pre suf, hay = pre +:+ needle +:+ suf.
Proof.
  induction hay as [|c hay IH]; cbn [Js.includes].
  - destruct (Js.startsWith needle "") eqn:Hs.
    + split; [|done]. intros _. apply startsWith_spec in Hs as [suf Hs].
      by exists "", suf.
    + split; [done|]. intros (pre & suf & H).
      destruct pre; [|by rewrite append_cons in H]. rewrite append_nil in H.
      assert (Js.startsWith needle "" = true) by (apply startsWith_spec; eauto).
      congruence.
  - destruct (Js.startsWith needle (String c hay)) eqn:Hs.
    + split; [|done]. intros _. apply startsWith_spec in Hs as [suf Hs].
      by exists "", suf.
    + rewrite IH. split.
      * intros (pre & suf & ->). by exists (String c pre), suf.
      * intros (pre & suf & H).
        destruct pre as [|c' pre]; rewrite ?append_cons, ?append_nil in H.
        -- assert (Js.startsWith needle (String c hay) = true)
             by (apply startsWith_spec; eauto).
           congruence.
        -- injection H as -> ->. eauto.
Qed.

Lemma includes_containsCI (needle text : string) :
  Js.includes needle (Js.toLowerCase text) = true <-> containsCI needle text.
Proof. apply includes_spec. Qed.

Lemma or_str_default (o : option string) : Js.or_str o "" = default "" o.
Proof. destruct o as [s|]; [|done]. cbn. by destruct (String.eqb_spec s ""). Qed.

Lemma append_nil_r (s : string) : s +:+ "" = s.
Proof. induction s as [|c s IH]; [done|]. by rewrite append_cons, IH. Qed.

Lemma append_assoc (s t u : string) : (s +:+ t) +:+ u = s +:+ t +:+ u.
Proof. induction s as [|c s IH]; [done|]. by rewrite !append_cons, IH. Qed.

Lemma split_go_nonempty sep skip cur s : Js.split_go sep skip cur s <> [].
Proof.
  revert skip cur. induction s as [|c s IH]; intros skip cur; cbn; [done|].
  destruct skip; [|done]. by destruct (Js.startsWith _ _).
Qed.

Lemma concat_cons sep x l :
  l <> [] -> String.concat sep (x :: l) = x +:+ sep +:+ String.concat sep l.
Proof. by destruct l. Qed.

(** Joining the parts with the separator gives the string back; [skip]
    characters of [s] are dropped first when a separator is being
    consumed. *)
Lemma split_go_join sep s :
  sep <> "" ->
  forall cur,
    String.concat sep (Js.split_go sep 0 cur s) = cur +:+ s /\
    forall pre rest, s = pre +:+ rest ->
      String.concat sep (Js.split_go sep (String.length pre) cur s) = cur +:+ rest.
Proof.
  intros Hsep. induction s as [|c s IH]; intros cur.
  - split; [by rewrite append_nil_r|].
    intros [|? pre] rest H; [|by rewrite append_cons in H].
    rewrite append_nil in H. subst rest. cbn. by rewrite append_nil_r.
  - assert (String.concat sep (Js.split_go sep 0 cur (String c s))
            = cur +:+ String c s) as Hfirst.
    { cbn [Js.split_go].
      destruct (Js.startsWith sep (String c s)) eqn:Hs.
      - apply startsWith_spec in Hs as [rest Hs].
        destruct sep as [|c' sep']; [done|].
        rewrite append_cons in Hs. injection Hs as -> ->.
        rewrite concat_cons by apply split_go_nonempty.
        cbn [String.length].
        replace (S (String.length sep') - 1)%nat with (String.length sep') by lia.
        destruct (IH "") as [_ IH2]. by rewrite (IH2 sep' rest eq_refl).
      - destruct (IH (cur +:+ String c "")) as [-> _].
        by rewrite append_assoc. }
    split; [done|].
    intros [|c' pre] rest H.
    + rewrite append_nil in H. by subst rest.
    + rewrite append_cons in H. injection H as -> ->.
      cbn [String.length Js.split_go]. by apply IH.
Qed.

Lemma split_join (sep s : string) :
  sep <> "" -> String.concat sep (Js.split sep s) = s.
Proof.
  intros Hsep. unfold Js.split.
  destruct (split_go_join sep s Hsep "") as [H _]. by rewrite H.
Qed.

(** A string that does not contain the separator is its own single part. *)
Lemma split_go_absent sep s cur :
  Js.includes sep s = false -> Js.split_go sep 0 cur s = [cur +:+ s].
Proof.
  revert cur. induction s as [|c s IH]; intros cur; cbn [Js.split_go Js.includes].
  - by rewrite append_nil_r.
  - destruct (Js.startsWith sep (String c s)); [done|].
    intros H. by rewrite IH, append_assoc.
Qed.

Lemma startsWith_append sep s t :
  Js.startsWith sep s = true -> Js.startsWith sep (s +:+ t) = true.
Proof.
  rewrite !startsWith_spec. intros [suf ->]. exists (suf +:+ t).
  by rewrite append_assoc.
Qed.

Lemma snoc_split (cur pre suf : string) (c : ascii) :
  cur +:+ String c "" = pre +:+ suf -> suf <> "" ->
  exists suf0, suf = suf0 +:+ String c "" /\ cur = pre +:+ suf0.
Proof.
  revert pre. induction cur as [|a cur IH]; intros pre H Hsuf.
  - rewrite append_nil in H. destruct pre as [|b pre].
    + rewrite append_nil in H. subst suf. by exists "".
    + rewrite append_cons in H. injection H as -> H.
      destruct pre; [by destruct suf|done].
  - rewrite append_cons in H. destruct pre as [|b pre].
    + rewrite append_nil in H. subst suf. by exists (String a cur).
    + rewrite append_cons in H. injection H as -> H.
      destruct (IH pre H Hsuf) as (suf0 & -> & ->). by exists suf0.
Qed.

Lemma unmatched_includes sep cur s :
  sep <> "" -> unmatched sep cur s -> Js.includes sep cur = false.
Proof.
  intros Hsep. induction cur as [|c cur IH]; intros Hun; cbn [Js.includes].
  - by destruct sep.
  - destruct (Js.startsWith sep (String c cur)) eqn:Hs.
    + apply (startsWith_append _ _ s) in Hs.
      by rewrite (Hun "" (String c cur)) in Hs.
    + apply IH. intros pre suf -> Hsuf.
      by apply (Hun (String c pre) suf).
Qed.

(** No part of a split contains the separator. *)
Lemma split_go_free sep s :
  sep <> "" ->
  (forall cur, unmatched sep cur s ->
     Forall (fun part => Js.includes sep part = false) (Js.split_go sep 0 cur s)) /\
  (forall k, Forall (fun part => Js.includes sep part = false)
                    (Js.split_go sep k "" s)).
Proof.
  intros Hsep. induction s as [|c s [IH1 IH2]].
  - assert (Js.includes sep "" = false) as Hempty by by destruct sep.
    split.
    + intros cur Hun. cbn. constructor; [|done].
      by apply (unmatched_includes sep cur "").
    + intros k. cbn. by constructor.
  - assert (forall cur, unmatched sep cur (String c s) ->
              Forall (fun part => Js.includes sep part = false)
                     (Js.split_go sep 0 cur (String c s))) as Hfirst.
    { intros cur Hun. cbn [Js.split_go].
      destruct (Js.startsWith sep (String c s)) eqn:Hs.
      - constructor; [by eapply unmatched_includes|apply IH2].
      - apply IH1. intros pre suf Hcur Hsuf.
        destruct (snoc_split _ _ _ _ Hcur Hsuf) as (suf0 & -> & ->).
        rewrite append_assoc. rewrite append_cons, append_nil.
        destruct suf0 as [|a suf0]; [by rewrite append_nil|].
        by apply (Hun pre (String a suf0)). }
    split; [done|]. intros [|k]; [|apply IH2].
    apply Hfirst. intros pre suf H Hsuf. by destruct pre, suf.
Qed.

Lemma split_free (sep s : string) :
  sep <> "" ->
  Forall (fun part => Js.includes sep part = false) (Js.split sep s).
Proof.
  intros Hsep. destruct (split_go_free sep s Hsep) as [Hfree _].
  apply Hfree. intros pre suf H Hsuf. by destruct pre, suf.
Qed.

Lemma concat_snoc sep (l : list string) (x : string) :
  l <> [] ->
  String.concat sep (l ++ [x]) = String.concat sep l +:+ sep +:+ x.
Proof.
  induction l as [|y l IH]; [done|]. intros _.
  destruct l as [|z l]; [done|].
  change ((y :: z :: l) ++ [x]) with (y :: ((z :: l) ++ [x])).
  rewrite concat_cons by done. rewrite IH by done.
  rewrite (concat_cons sep y (z :: l)) by done.
  by rewrite !append_assoc.
Qed.

(** The last part of a split: it is free of the separator, and the
    string is either that part or ends with the separator followed by
    it. *)
Lemma split_last (sep s : string) :
  sep <> "" ->
  exists d, last (Js.split sep s) = Some d /\
            Js.includes sep d = false /\
            (s = d \/ exists pre, s = pre +:+ sep +:+ d).
Proof.
  intros Hsep.
  pose proof (split_join sep s Hsep) as Hjoin.
  pose proof (split_free sep s Hsep) as Hfree.
  destruct (Js.split sep s) as [|x l] eqn:Hsplit using rev_ind.
  { by apply split_go_nonempty in Hsplit. }
  clear IHl. exists x. rewrite last_snoc. split; [done|].
  rewrite Forall_app, Forall_singleton in Hfree. destruct Hfree as [_ Hx].
  split; [done|].
  destruct l as [|y l]; [by left|].
  right. exists (String.concat sep (y :: l)).
  by rewrite <- Hjoin, concat_snoc.
Qed.

Example split_headsign :
  Js.split " / " "SF / SFO Airport / Millbrae" = ["SF"; "SFO Airport"; "Millbrae"].
Proof. reflexivity. Qed.

Example split_overlapping : Js.split " / " "a / / b" = ["a"; "/ b"].
Proof. reflexivity. Qed.

Example split_bare_slash : Js.split " / " "SFO/Millbrae" = ["SFO/Millbrae"].
Proof. reflexivity. Qed.

End StringFacts.

(** ** Sorting and the direction filter *)

Section SortFacts.

Import Transit.

Lemma sort_insert_Permutation x l : sort_insert x l ≡ₚ x :: l.
Proof.
  induction l as [|y l IH]; cbn; [done|].
  destruct (_ <=? 0); [done|]. rewrite IH. apply Permutation_swap.
Qed.

Lemma sort_Permutation l : sort l ≡ₚ l.
Proof.
  induction l as [|x l IH]; cbn; [done|].
  by rewrite sort_insert_Permutation, IH.
Qed.

Lemma sort_insert_sorted x l :
  StronglySorted arrivesNoLater l -> StronglySorted arrivesNoLater (sort_insert x l).
Proof.
  induction 1 as [|y l Hl IH Hy]; cbn.
  - by repeat constructor.
  - destruct (_ <=? 0) eqn:Hc.
    + apply Z.leb_le in Hc. constructor; [by constructor|].
      constructor; [unfold arrivesNoLater; lia|].
      eapply Forall_impl; [exact Hy|]. unfold arrivesNoLater. intros; lia.
    + apply Z.leb_gt in Hc. constructor; [done|].
      rewrite sort_insert_Permutation. constructor; [|done].
      unfold arrivesNoLater. lia.
Qed.

Lemma sort_sorted l : StronglySorted arrivesNoLater (sort l).
Proof.
  induction l as [|x l IH]; cbn; [constructor|]. by apply sort_insert_sorted.
Qed.

Lemma filter_sorted (P : TripInfo.t -> Prop) `{!forall x, Decision (P x)} l :
  StronglySorted arrivesNoLater l -> StronglySorted arrivesNoLater (filter P l).
Proof.
  induction 1 as [|y l Hl IH Hy]; [constructor|].
  rewrite filter_cons. destruct (decide (P y)); [|done].
  constructor; [done|].
  rewrite Forall_forall in *. intros q Hq. apply Hy.
  by apply list_elem_of_filter in Hq as [_ ?].
Qed.

Lemma sortAndFilter_sorted l direction :
  StronglySorted arrivesNoLater (_sortAndFilterTrips l direction).
Proof.
  unfold _sortAndFilterTrips.
  destruct direction as [d|]; [destruct (Js.truthy_str _)|];
    auto using sort_sorted, filter_sorted.
Qed.

Lemma sortAndFilter_subset l direction p :
  p ∈ _sortAndFilterTrips l direction -> p ∈ l.
Proof.
  unfold _sortAndFilterTrips.
  destruct direction as [d|]; [destruct (Js.truthy_str _)|];
    rewrite ?list_elem_of_filter, sort_Permutation; tauto.
Qed.

Lemma sortAndFilter_unfiltered l p :
  p ∈ _sortAndFilterTrips l None <-> p ∈ l.
Proof. unfold _sortAndFilterTrips. by rewrite sort_Permutation. Qed.

Lemma directionMatches_eastbound d p :
  Js.toLowerCase d = "eastbound" ->
  directionMatches d p = true <-> eastboundRule p.
Proof.
  intros Hd. unfold directionMatches, eastboundRule, headsignText.
  rewrite Hd. cbn [String.eqb Ascii.eqb Bool.eqb].
  rewrite !orb_true_iff, !or_str_default, !includes_containsCI. cbn [default].
  tauto.
Qed.

Lemma directionMatches_westbound d p :
  Js.toLowerCase d = "westbound" ->
  directionMatches d p = true <-> westboundRule p.
Proof.
  intros Hd. unfold directionMatches, westboundRule, headsignText.
  rewrite Hd. cbn [String.eqb Ascii.eqb Bool.eqb].
  rewrite !orb_true_iff, !or_str_default, !includes_containsCI. cbn [default].
  tauto.
Qed.

Lemma directionMatches_other d p :
  Js.toLowerCase d <> "eastbound" -> Js.toLowerCase d <> "westbound" ->
  directionMatches d p = true.
Proof.
  intros He Hw. unfold directionMatches.
  destruct (String.eqb_spec (Js.toLowerCase d) "eastbound"); [done|].
  by destruct (String.eqb_spec (Js.toLowerCase d) "westbound").
Qed.

Lemma filter_all (P : TripInfo.t -> Prop) `{!forall x, Decision (P x)}
    (l : list TripInfo.t) :
  (forall x, P x) -> filter P l = l.
Proof.
  intros HP. induction l as [|x l IH]; [done|].
  rewrite filter_cons, IH. destruct (decide (P x)) as [|Hn]; [done|by destruct Hn].
Qed.

Lemma sortAndFilter_filtered l d :
  Js.toLowerCase d = "eastbound" \/ Js.toLowerCase d = "westbound" ->
  _sortAndFilterTrips l (Some d)
  = filter (fun trip => directionMatches d trip = true) (sort l).
Proof.
  intros Hd. unfold _sortAndFilterTrips, Js.truthy_str.
  destruct (String.eqb_spec d "") as [->|]; [|done].
  by destruct Hd.
Qed.



End SortFacts.


(** ** TransitService: how a call of [getStopInfo] runs *)

Section GetStopInfoFacts.

Import Transit.

Lemma collect_run {S A} (c : M (list A) unit) (s : S) :
  collect c s = match c [] with
                | (Ok _, l) => (Ok l, s)
                | (Throw e, _) => (Throw e, s)
                end.
Proof. done. Qed.

Lemma sort_nil_inv (l : list TripInfo.t) : sort l = [] -> l = [].
Proof.
  destruct l as [|x l]; [done|]. cbn.
  destruct (sort l) as [|y l']; [done|]. cbn. by destruct (_ <=? 0).
Qed.

Lemma getStopInfo_any_run (stopId : string) (direction : Js.loose) (a : App) :
  getStopInfo_any stopId direction a =
  match StaticData.getStop stopId (staticDataService a) with
  | None => (Throw (notFound stopId), ticked 1 [] a)
  | Some stop =>
      match tripsFeed (gtfsMonitor a) with
      | None =>
          finish_any stopId direction a 1 stop []
            [match message <$> tripsError (gtfsMonitor a) with
             | Some err =>
                 if Js.truthy_str (Some err)
                 then "Real-time trip data unavailable: " +:+ err
                 else "Real-time trip data initializing..."
             | None => "Real-time trip data initializing..."
             end]
            (Js.Iso (reading a 0))
      | Some feed =>
          let dataAge := reading a 1 - default 0 (lastTripsUpdate (gtfsMonitor a)) in
          match forEach (processEntity (staticDataService a)
                                       (reading a 2 / 1000) stopId)
                        (entity feed) [] with
          | (Ok _, pushed) =>
              finish_any stopId direction a 3 stop pushed
                (if 120000 <? dataAge then [staleWarning dataAge] else [])
                (match lastTripsUpdate (gtfsMonitor a) with
                 | Some d => Js.Iso d
                 | None => Js.Iso (reading a 0)
                 end)
          | (Throw e, _) =>
              (Throw e, ticked 3 [Read ReadTrips; Read ReadStatus] a)
          end
      end
  end.
Proof.
  destruct a as [sds mon [fs ck tk nt sn tr]].
  unfold getStopInfo_any, finish_any, finish, reading, ticked, StaticData.getStop.
  unfold_monad.
  destruct (stops sds !! stopId) as [stop|]; cbn.
  2: { by rewrite app_nil_r. }
  unfold Monitor.getTrips, Monitor.getStatus, Monitor.getAlerts,
    _processTrips, _processAlerts, _sortAndFilterTrips_any, lift.
  unfold_monad.
  assert (forall (pushed : list TripInfo.t) (A : Type) (x y : A),
            match sort pushed with [] => x | _ :: _ => y end
            = match pushed with [] => x | _ :: _ => y end) as Hsort.
  { intros pushed A x y. destruct pushed as [|p pushed]; [done|].
    destruct (sort (p :: pushed)) eqn:Hs; [|done].
    by apply sort_nil_inv in Hs. }
  destruct (tripsFeed mon) as [feed|]; cbn.
  - rewrite collect_run. cbn.
    destruct (forEach _ (entity feed) []) as [[[]|e] pushed]; cbn.
    + destruct direction as [|d|]; cbn;
        [| |destruct pushed as [|p pushed];
            [|rewrite Hsort; cbn; by rewrite <- ?app_assoc]; cbn];
        (destruct (alertsFeed mon) as [afeed|]; cbn;
         [rewrite collect_run;
          destruct (forEach _ (entity afeed) []) as [[[]|e] views]; cbn;
            by rewrite <- ?app_assoc
         |destruct (Js.truthy_str _); cbn; by rewrite <- ?app_assoc]).
    + by rewrite <- ?app_assoc.
  - destruct (tripsError mon) as [[msg]|]; cbn.
    + destruct (negb (String.eqb msg "")); cbn; destruct direction as [|d|]; cbn;
        (destruct (alertsFeed mon) as [afeed|]; cbn;
         [rewrite collect_run;
          destruct (forEach _ (entity afeed) []) as [[[]|e] views]; cbn;
            by rewrite <- ?app_assoc
         |destruct (Js.truthy_str _); cbn; by rewrite <- ?app_assoc]).
    + destruct direction as [|d|]; cbn;
        (destruct (alertsFeed mon) as [afeed|]; cbn;
         [rewrite collect_run;
          destruct (forEach _ (entity afeed) []) as [[[]|e] views]; cbn;
            by rewrite <- ?app_assoc
         |destruct (Js.truthy_str _); cbn; by rewrite <- ?app_assoc]).
Qed.

Lemma getStopInfo_run (stopId : string) (direction : option string) (a : App) :
  getStopInfo stopId direction a =
  match StaticData.getStop stopId (staticDataService a) with
  | None => (Throw (notFound stopId), ticked 1 [] a)
  | Some stop =>
      match tripsFeed (gtfsMonitor a) with
      | None =>
          finish stopId direction a 1 stop []
            [match message <$> tripsError (gtfsMonitor a) with
             | Some err =>
                 if Js.truthy_str (Some err)
                 then "Real-time trip data unavailable: " +:+ err
                 else "Real-time trip data initializing..."
             | None => "Real-time trip data initializing..."
             end]
            (Js.Iso (reading a 0))
      | Some feed =>
          let dataAge := reading a 1 - default 0 (lastTripsUpdate (gtfsMonitor a)) in
          match forEach (processEntity (staticDataService a)
                                       (reading a 2 / 1000) stopId)
                        (entity feed) [] with
          | (Ok _, pushed) =>
              finish stopId direction a 3 stop pushed
                (if 120000 <? dataAge then [staleWarning dataAge] else [])
                (match lastTripsUpdate (gtfsMonitor a) with
                 | Some d => Js.Iso d
                 | None => Js.Iso (reading a 0)
                 end)
          | (Throw e, _) =>
              (Throw e, ticked 3 [Read ReadTrips; Read ReadStatus] a)
          end
      end
  end.
Proof.
  unfold getStopInfo. rewrite getStopInfo_any_run. by destruct direction.
Qed.

(** *** Loops that fill an array *)

Lemma forEach_invariant {S A} (I : S -> Prop) (f : A -> M S unit) (l : list A) :
  (forall x s r s', x ∈ l -> f x s = (r, s') -> I s -> I s') ->
  forall s r s', forEach f l s = (r, s') -> I s -> I s'.
Proof.
  induction l as [|x l IH]; intros Hf s r s' Hrun Hs.
  - by injection Hrun as <- <-.
  - cbn [forEach] in Hrun. unfold mbind, M_bind, bind in Hrun.
    destruct (f x s) as [[[]|e] s1] eqn:Hx.
    + eapply IH; [|exact Hrun|].
      * intros y ? ? ? Hy. apply Hf. by right.
      * eapply Hf; [by left|exact Hx|done].
    + injection Hrun as <- <-. eapply Hf; [by left|exact Hx|done].
Qed.

(** When every step only moves the state up a preorder, a run that
    returns has run every element, from a state above the initial one to
    a state below the final one. *)
Lemma forEach_Ok_elem {S A} (R : relation S) `{!PreOrder R}
    (f : A -> M S unit) (l : list A) :
  (forall x s r s', f x s = (r, s') -> R s s') ->
  forall s s' x, forEach f l s = (Ok tt, s') -> x ∈ l ->
    exists s1 s2, R s s1 /\ f x s1 = (Ok tt, s2) /\ R s2 s'.
Proof.
  intros Hf. induction l as [|y l IH]; intros s s' x Hrun Hx.
  - by apply elem_of_nil in Hx.
  - cbn [forEach] in Hrun. unfold mbind, M_bind, bind in Hrun.
    destruct (f y s) as [[[]|e] s1] eqn:Hy; [|done].
    assert (R s1 s') as Hs1.
    { eapply (forEach_invariant (R s1)); [|exact Hrun|done].
      intros z t r t' _ Hz Ht. etransitivity; [exact Ht|]. by eapply Hf. }
    apply elem_of_cons in Hx as [->|Hx].
    + exists s, s1. done.
    + destruct (IH _ _ _ Hrun Hx) as (t1 & t2 & ? & ? & ?).
      exists t1, t2. split; [|done]. etransitivity; [by eapply Hf|done].
Qed.

(** A loop whose steps all return, returns. *)
Lemma forEach_returns {S A} (f : A -> M S unit) (l : list A) :
  (forall x s, x ∈ l -> exists s', f x s = (Ok tt, s')) ->
  forall s, exists s', forEach f l s = (Ok tt, s').
Proof.
  induction l as [|x l IH]; intros Hf s; [by exists s|].
  destruct (Hf x s) as [s1 Hx]; [by left|].
  destruct (IH (fun y t Hy => Hf y t (list_elem_of_further _ _ _ Hy)) s1) as [s' Hl].
  exists s'. cbn [forEach]. by erewrite bind_Ok.
Qed.

(** *** One stop time update *)

Lemma processStopTimeUpdate_run now stopId tripId trip dir route vehicle u l :
  let r := processStopTimeUpdate now stopId tripId trip dir route vehicle u l in
  if upcomingAt now stopId u
  then (exists p, r = (Ok tt, l ++ [p]) /\ emitted now tripId trip route u p)
       \/ (exists e, r = (Throw e, l))
  else r = (Ok tt, l).
Proof.
  unfold processStopTimeUpdate, upcomingAt, timeOf, emitted.
  destruct (String.eqb _ stopId); [|done]. cbn [andb].
  destruct (StopTimeUpdate.arrival u) as [arr|] eqn:Harr;
    destruct (StopTimeUpdate.departure u) as [dep|] eqn:Hdep; cbn [orb bool_decide];
    rewrite ?bool_decide_eq_true_2, ?bool_decide_eq_false_2 by (by eauto || by inversion 1);
    cbn [orb].
  4: { done. }
  all: match goal with
       | |- context [Js.or_int64 ?x ?y] => destruct (Js.or_int64 x y) as [t|] eqn:Ht
       end; [|done].
  all: destruct (Js.truthy_int64 (Some t)); [|done]; cbn [andb].
  all: destruct (now <? Js.Number t) eqn:Hfut; [apply Z.ltb_lt in Hfut|done].
  all: unfold mbind, M_bind, bind, lift, push, modify.
  all: destruct (Js.toISOString ((Js.Number t - _) * 1000)) as [sch|e] eqn:Hs;
    [|right; by eexists].
  all: destruct (Js.toISOString (Js.Number t * 1000)) as [est|e] eqn:He;
    [|right; by eexists].
  all: left; eexists; split; [reflexivity|]; exists t; cbn.
  all: unfold Js.toISOString in Hs, He.
  all: destruct (_ && _) in Hs; [|done]; destruct (_ && _) in He; [|done].
  all: injection Hs as <-; injection He as <-.
  all: unfold delayOf, timeOf; rewrite Harr, Hdep.
  all: by repeat split.
Qed.

Lemma processStopTimeUpdate_prefix now stopId tripId trip dir route vehicle u l r l' :
  processStopTimeUpdate now stopId tripId trip dir route vehicle u l = (r, l') ->
  l `prefix_of` l'.
Proof.
  intros Hrun.
  pose proof (processStopTimeUpdate_run now stopId tripId trip dir route vehicle u l)
    as H.
  cbv zeta in H. rewrite Hrun in H.
  destruct (upcomingAt now stopId u).
  - destruct H as [(p & [= -> ->] & _)|(e & [= -> ->])]; [by eexists|done].
  - by injection H as -> ->.
Qed.

(** *** One entity *)

(** The trip and the updates an entity contributes, when it has any. *)
Lemma processEntity_run sds now stopId e l :
  processEntity sds now stopId e l =
  match FeedEntity.tripUpdate e with
  | Some tu =>
      match TripUpdate.trip tu ≫= TripDescriptor.tripId with
      | Some tripId =>
          if String.eqb tripId "" then (Ok tt, l)
          else
            match StaticData.getTrip tripId sds, TripUpdate.stopTimeUpdate tu with
            | Some trip, Some updates =>
                forEach (processStopTimeUpdate now stopId tripId trip
                           (if bool_decide (Trip.direction_id trip = Some "0")
                            then "outbound" else "inbound")
                           (StaticData.getRoute (Trip.route_id trip) sds)
                           (match TripUpdate.vehicle tu with
                            | Some v => Some v
                            | None => FeedEntity.vehicle e
                            end))
                        updates l
            | _, _ => (Ok tt, l)
            end
      | None => (Ok tt, l)
      end
  | None => (Ok tt, l)
  end.
Proof.
  unfold processEntity.
  destruct (FeedEntity.tripUpdate e) as [tu|]; [|done].
  destruct (TripUpdate.trip tu ≫= TripDescriptor.tripId) as [tripId|]; [|done].
  cbn [Js.truthy_str Js.or_str negb].
  destruct (String.eqb tripId ""); [done|]. cbn [negb].
  destruct (StaticData.getTrip tripId sds) as [trip|]; [|done].
  by destruct (TripUpdate.stopTimeUpdate tu).
Qed.

Lemma processEntity_prefix sds now stopId e l r l' :
  processEntity sds now stopId e l = (r, l') -> l `prefix_of` l'.
Proof.
  rewrite processEntity_run.
  destruct (FeedEntity.tripUpdate e) as [tu|]; [|by intros [= <- <-]].
  destruct (TripUpdate.trip tu ≫= TripDescriptor.tripId) as [tripId|];
    [|by intros [= <- <-]].
  destruct (String.eqb tripId ""); [by intros [= <- <-]|].
  destruct (StaticData.getTrip tripId sds) as [trip|]; [|by intros [= <- <-]].
  destruct (TripUpdate.stopTimeUpdate tu) as [updates|]; [|by intros [= <- <-]].
  intros Hrun.
  eapply (forEach_invariant (fun l' => l `prefix_of` l')); [|exact Hrun|done].
  intros u s r0 s' _ Hu Hs. etransitivity; [exact Hs|].
  by eapply processStopTimeUpdate_prefix.
Qed.

Lemma pushed_sourced sds feed now stopId r pushed :
  forEach (processEntity sds now stopId) (entity feed) [] = (r, pushed) ->
  forall p, p ∈ pushed -> sourced sds feed now stopId p.
Proof.
  intros Hrun.
  eapply (forEach_invariant (fun l => forall p, p ∈ l -> sourced sds feed now stopId p));
    [|exact Hrun|by intros ? ?%elem_of_nil].
  clear Hrun. intros e l r0 l' He Hrun Hl.
  rewrite processEntity_run in Hrun.
  destruct (FeedEntity.tripUpdate e) as [tu|] eqn:Htu; [|by injection Hrun as <- <-].
  destruct (TripUpdate.trip tu ≫= TripDescriptor.tripId) as [tripId|] eqn:Hid;
    [|by injection Hrun as <- <-].
  destruct (String.eqb_spec tripId "") as [|Hne]; [by injection Hrun as <- <-|].
  destruct (StaticData.getTrip tripId sds) as [trip|] eqn:Htrip;
    [|by injection Hrun as <- <-].
  destruct (TripUpdate.stopTimeUpdate tu) as [updates|] eqn:Hups;
    [|by injection Hrun as <- <-].
  eapply (forEach_invariant (fun l => forall p, p ∈ l -> sourced sds feed now stopId p));
    [|exact Hrun|done].
  clear Hrun Hl. intros u s r1 s' Hu Hrun Hs p Hp.
  match type of Hrun with
  | processStopTimeUpdate _ _ _ _ ?dir ?route ?vehicle _ _ = _ =>
      pose proof (processStopTimeUpdate_run now stopId tripId trip dir route vehicle u s) as H
  end.
  cbv zeta in H. rewrite Hrun in H.
  destruct (upcomingAt now stopId u) eqn:Hup.
  - destruct H as [(q & [= -> ->] & Hq)|(e' & [= -> ->])]; [|by apply Hs].
    apply elem_of_app in Hp as [Hp|Hp]; [by apply Hs|].
    apply list_elem_of_singleton in Hp as ->.
    exists tripId, trip, u. split; [by exists e, tu, updates|]. split; [|done].
    unfold upcomingAt in Hup. apply andb_true_iff in Hup as [Hup _].
    by apply String.eqb_eq in Hup.
  - injection H as -> ->. by apply Hs.
Qed.

(** Every update that passes the test is in a run that returned. *)
Lemma upcoming_pushed sds feed now stopId pushed tripId trip u :
  forEach (processEntity sds now stopId) (entity feed) [] = (Ok tt, pushed) ->
  updateOf sds feed tripId trip u ->
  upcomingAt now stopId u = true ->
  exists p, p ∈ pushed /\
    emitted now tripId trip (StaticData.getRoute (Trip.route_id trip) sds) u p.
Proof.
  intros Hrun (e & tu & updates & He & Htu & Hid & Hne & Htrip & Hups & Hu) Hup.
  destruct (forEach_Ok_elem prefix _ _ (processEntity_prefix sds now stopId)
              _ _ _ Hrun He) as (l1 & l2 & _ & Hstep & Hl2).
  rewrite processEntity_run, Htu, Hid, Htrip, Hups in Hstep.
  destruct (String.eqb_spec tripId ""); [done|].
  match type of Hstep with
  | forEach (processStopTimeUpdate _ _ _ _ ?dir ?route ?vehicle) _ _ = _ =>
      destruct (forEach_Ok_elem prefix _ _
                  (processStopTimeUpdate_prefix now stopId tripId trip dir route vehicle)
                  _ _ _ Hstep Hu) as (m1 & m2 & _ & Hone & Hm2);
      pose proof (processStopTimeUpdate_run now stopId tripId trip dir route vehicle u m1)
        as H
  end.
  cbv zeta in H. rewrite Hone, Hup in H.
  destruct H as [(p & [= ->] & Hp)|(e' & [=])].
  exists p. split; [|done].
  destruct Hm2 as [k1 ->]. destruct Hl2 as [k2 ->].
  rewrite !elem_of_app, list_elem_of_singleton. auto.
Qed.

(** *** A call that returns *)

Lemma getStopInfo_Ok_inv stopId direction (a a' : App) (info : StopInfo) :
  getStopInfo stopId direction a = (Ok info, a') ->
  exists stop pushed w1 w2,
    StaticData.getStop stopId (staticDataService a) = Some stop /\
    upcomingTrips info = _sortAndFilterTrips pushed direction /\
    warnings info = w1 ++ w2 /\
    (w2 = [] \/ w2 = ["Real-time alerts data unavailable"]) /\
    match tripsFeed (gtfsMonitor a) with
    | None => pushed = [] /\ lastUpdated info = Js.Iso (reading a 0)
    | Some feed =>
        forEach (processEntity (staticDataService a) (reading a 2 / 1000) stopId)
                (entity feed) [] = (Ok tt, pushed) /\
        w1 = (if 120000 <? reading a 1 - default 0 (lastTripsUpdate (gtfsMonitor a))
              then [staleWarning (reading a 1
                                  - default 0 (lastTripsUpdate (gtfsMonitor a)))]
              else []) /\
        lastUpdated info = match lastTripsUpdate (gtfsMonitor a) with
                           | Some d => Js.Iso d
                           | None => Js.Iso (reading a 0)
                           end
    end.
Proof.
  rewrite getStopInfo_run.
  destruct (StaticData.getStop stopId _) as [stop|]; [|done].
  destruct (tripsFeed (gtfsMonitor a)) as [feed|].
  - cbv zeta.
    destruct (forEach _ (entity feed) []) as [[[]|e] pushed] eqn:Hrun; [|done].
    unfold finish. destruct (alertsFeed (gtfsMonitor a)) as [afeed|].
    + destruct (forEach _ (entity afeed) []) as [[[]|e] views]; [|done].
      intros [= <- <-]. cbn. eexists stop, pushed, _, [].
      repeat split; try reflexivity; auto.
    + intros [= <- <-]. cbn. eexists stop, pushed, _, _.
      repeat split; try reflexivity. destruct (Js.truthy_str _); [by right|by left].
  - unfold finish. destruct (alertsFeed (gtfsMonitor a)) as [afeed|].
    + destruct (forEach _ (entity afeed) []) as [[[]|e] views]; [|done].
      intros [= <- <-]. cbn. eexists stop, [], _, [].
      repeat split; try reflexivity; auto. symmetry; apply app_nil_r.
    + intros [= <- <-]. cbn. eexists stop, [], [_], _.
      repeat split; try reflexivity. destruct (Js.truthy_str _); [by right|by left].
Qed.

(** C3: for a stop identifier the static index does not hold,
    [getStopInfo] throws "Stop <id> not found" having called no getter of
    the monitor: the trace of the call is empty, so neither the
    trip-updates snapshot nor the alerts snapshot nor the status was read;
    the monitor and the index are as before. *)
Theorem unknown_stop (stopId : string) (direction : option string) (a : App) :
  StaticData.getStop stopId (staticDataService a) = None ->
  (getStopInfo stopId direction a).1
    = Throw (MkError ("Stop " +:+ stopId +:+ " not found")) /\
  trace (world (getStopInfo stopId direction a).2) = trace (world a) /\
  readsOf (trace (world (getStopInfo stopId direction a).2))
    = readsOf (trace (world a)) /\
  gtfsMonitor (getStopInfo stopId direction a).2 = gtfsMonitor a /\
  staticDataService (getStopInfo stopId direction a).2 = staticDataService a.
Proof.
  intros Hstop. rewrite getStopInfo_run, Hstop. cbn.
  by rewrite app_nil_r.
Qed.

Lemma unknown_stop_witness :
  StaticData.getStop "X99" (staticDataService Sample.serving) = None /\
  (getStopInfo "X99" None Sample.serving).1
    = Throw (MkError "Stop X99 not found") /\
  readsOf (trace (world (getStopInfo "X99" None Sample.serving).2)) = [].
Proof.
  assert (H : StaticData.getStop "X99" (staticDataService Sample.serving) = None)
    by (vm_compute; reflexivity).
  split; [exact H|].
  destruct (unknown_stop "X99" None Sample.serving H) as (Hr & _ & Ht & _).
  split; [etransitivity; [exact Hr|]; vm_compute; reflexivity|].
  etransitivity; [exact Ht|]; vm_compute; reflexivity.
Defined.

(** A known stop, by contrast, has the monitor read: the trip-updates
    snapshot first. *)
Lemma known_stop_reads (stopId : string) (direction : option string) (a : App)
    (stop : Stop.t) :
  StaticData.getStop stopId (staticDataService a) = Some stop ->
  exists evs,
    trace (world (getStopInfo stopId direction a).2)
    = trace (world a) ++ Read ReadTrips :: Read ReadStatus :: evs.
Proof.
  intros Hstop. rewrite getStopInfo_run, Hstop.
  destruct (tripsFeed (gtfsMonitor a)) as [feed|].
  - cbv zeta. destruct (forEach _ (entity feed) []) as [[[]|e] pushed].
    + unfold finish. destruct (alertsFeed (gtfsMonitor a)) as [afeed|].
      * destruct (forEach _ (entity afeed) []) as [[[]|e] views]; by eexists.
      * by eexists.
    + by eexists.
  - unfold finish. destruct (alertsFeed (gtfsMonitor a)) as [afeed|].
    + destruct (forEach _ (entity afeed) []) as [[[]|e] views]; by eexists.
    + by eexists.
Qed.

(** C7: whatever the trip-updates snapshot and whatever the direction,
    the [upcomingTrips] of a reply are in non-decreasing order of their
    estimated arrival instants: each prediction arrives no later than all
    those after it. *)
Theorem upcomingTrips_sorted (stopId : string) (direction : option string)
    (a a' : App) (info : StopInfo) :
  getStopInfo stopId direction a = (Ok info, a') ->
  StronglySorted arrivesNoLater (upcomingTrips info).
Proof.
  intros (stop & pushed & w1 & w2 & _ & -> & _)%getStopInfo_Ok_inv.
  apply sortAndFilter_sorted.
Qed.

(** The arrival in 600 s is listed first in the feed and second in the
    reply. *)
Lemma upcomingTrips_sorted_witness :
  getStopInfo "M20-2" None Sample.twoTrains
    = (Ok (replyOf (getStopInfo "M20-2" None Sample.twoTrains)),
       (getStopInfo "M20-2" None Sample.twoTrains).2) /\
  arrivalInstant <$> upcomingTrips (replyOf (getStopInfo "M20-2" None Sample.twoTrains))
    = [1700000090000; 1700000600000] /\
  StronglySorted arrivesNoLater
    (upcomingTrips (replyOf (getStopInfo "M20-2" None Sample.twoTrains))).
Proof.
  assert (H : getStopInfo "M20-2" None Sample.twoTrains
              = (Ok (replyOf (getStopInfo "M20-2" None Sample.twoTrains)),
                 (getStopInfo "M20-2" None Sample.twoTrains).2))
    by (vm_compute; reflexivity).
  split; [exact H|]. split; [vm_compute; reflexivity|].
  exact (upcomingTrips_sorted _ _ _ _ _ H).
Defined.

Lemma round_div_spec (n d : Z) :
  0 < d -> 2 * d * Js.round_div n d - d <= 2 * n < 2 * d * Js.round_div n d + d.
Proof.
  intros Hd. unfold Js.round_div.
  pose proof (Z.div_mod (2 * n + d) (2 * d)).
  pose proof (Z.mod_pos_bound (2 * n + d) (2 * d)). lia.
Qed.

(** C5: with a trip-updates snapshot present and last updated at [ts],
    the age is the second clock reading of the call minus [ts].  When the
    age exceeds 120000 ms the warnings contain "Real-time data is stale
    (<r>s old)", [r] being the age in seconds rounded to the nearest
    integer, halves up.  Otherwise no warning starts with "Real-time data
    is stale", and [lastUpdated] is the snapshot's timestamp; it is that
    timestamp in the stale case as well. *)
Theorem staleness_warning (stopId : string) (direction : option string)
    (a a' : App) (info : StopInfo) (feed : FeedMessage) (ts : Z) :
  tripsFeed (gtfsMonitor a) = Some feed ->
  lastTripsUpdate (gtfsMonitor a) = Some ts ->
  getStopInfo stopId direction a = (Ok info, a') ->
  (120000 < reading a 1 - ts ->
     exists r, 1000 * r - 500 <= reading a 1 - ts < 1000 * r + 500 /\
               "Real-time data is stale (" +:+ pretty r +:+ "s old)"
                 ∈ warnings info) /\
  (reading a 1 - ts <= 120000 ->
     lastUpdated info = Js.Iso ts /\
     forall w, w ∈ warnings info ->
               Js.startsWith "Real-time data is stale" w = false) /\
  lastUpdated info = Js.Iso ts.
Proof.
  intros Hfeed Hts (stop & pushed & w1 & w2 & _ & _ & Hw & Hw2 & H)%getStopInfo_Ok_inv.
  rewrite Hfeed, Hts in H. cbv [default from_option id] in H.
  destruct H as (_ & -> & Hl).
  split; [|split; [|done]].
  - intros Hage. apply Z.ltb_lt in Hage. rewrite Hage in Hw.
    exists (Js.round_div (reading a 1 - ts) 1000). split.
    + pose proof (round_div_spec (reading a 1 - ts) 1000). lia.
    + rewrite Hw. apply elem_of_app. left. by apply list_elem_of_singleton.
  - intros Hage. split; [done|].
    assert ((120000 <? reading a 1 - ts) = false) as Hf by (apply Z.ltb_ge; lia).
    rewrite Hf in Hw. rewrite Hw. intros w Hin.
    destruct Hw2 as [-> | ->]; cbn in Hin.
    + by apply elem_of_nil in Hin.
    + by apply list_elem_of_singleton in Hin as ->.
Qed.

Lemma staleness_warning_witness :
  tripsFeed (gtfsMonitor Sample.stale) = Some (MkFeed [Sample.arrivalIn90s]) /\
  120000 < reading Sample.stale 1 - 1699999799650 /\
  "Real-time data is stale (201s old)"
    ∈ warnings (replyOf (getStopInfo "M20-2" None Sample.stale)).
Proof.
  pose proof (staleness_warning "M20-2" None Sample.stale
                (getStopInfo "M20-2" None Sample.stale).2
                (replyOf (getStopInfo "M20-2" None Sample.stale))
                (MkFeed [Sample.arrivalIn90s]) 1699999799650) as H.
  assert (Hage : 120000 < reading Sample.stale 1 - 1699999799650)
    by (vm_compute; reflexivity).
  split; [vm_compute; reflexivity|]. split; [exact Hage|].
  destruct H as [H _]; [vm_compute; reflexivity..|].
  destruct (H Hage) as (r & Hr & Hin).
  assert (reading Sample.stale 1 = 1700000000250) as Hrd by reflexivity.
  rewrite Hrd in Hr. assert (r = 201) as -> by lia.
  exact Hin.
Defined.

Lemma toISOString_in_range (ms : Z) :
  - Js.maxTime <= ms <= Js.maxTime -> Js.toISOString ms = Ok (Js.Iso ms).
Proof.
  intros [H1 H2]. unfold Js.toISOString.
  apply Z.leb_le in H1, H2. by rewrite H1, H2.
Qed.

Lemma delayOf_absent (u : StopTimeUpdate.t) :
  StopTimeUpdate.arrival u ≫= StopTimeEvent.delay = None ->
  StopTimeUpdate.departure u ≫= StopTimeEvent.delay = None ->
  delayOf u = 0.
Proof. unfold delayOf. by intros -> ->. Qed.

(** C4: every prediction of a reply was built from a stop time update
    [u] of the trip-updates snapshot, for the queried stop and in an
    entity whose trip resolves, whose time [t] (seconds) is after the
    clock reading of [_processTrips] floored to seconds.  Its estimated
    arrival is the instant [1000 t], strictly after that clock reading in
    milliseconds; its scheduled arrival is the estimated one minus the
    delay; the delay is [arrival.delay], else [departure.delay], else 0,
    so 0 when both are absent; and its minutes-until-arrival [m] is
    [(t - now) / 60] rounded to the nearest integer, halves up.
    Conversely, without a direction filter, an update of the snapshot
    that passes the test and carries no delay has a prediction with delay
    0, whose scheduled arrival is its estimated one.  An update whose
    arrival is 90 s ahead with a delay of 30 s yields exactly one
    prediction, with delay 30, 2 minutes, and a scheduled arrival 30 s
    before the estimated one, and the same update without a delay one
    with delay 0 and both arrivals equal; so does the whole call on the
    sample process for stop M20-2 "Montgomery St.". *)
Theorem arrival_prediction_fields :
  (forall stopId direction (a a' : App) (info : StopInfo) (p : TripInfo.t),
     getStopInfo stopId direction a = (Ok info, a') ->
     p ∈ upcomingTrips info ->
     exists feed trip u t,
       tripsFeed (gtfsMonitor a) = Some feed /\
       updateOf (staticDataService a) feed (TripInfo.tripId p) trip u /\
       StopTimeUpdate.stopId u = stopId /\
       timeOf u = Some t /\
       reading a 2 / 1000 < Js.Number t /\
       Js.Date_parse (TripInfo.estimatedArrival p) = 1000 * Js.Number t /\
       reading a 2 < Js.Date_parse (TripInfo.estimatedArrival p) /\
       Js.Date_parse (TripInfo.scheduledArrival p)
         = Js.Date_parse (TripInfo.estimatedArrival p) - 1000 * TripInfo.delay p /\
       TripInfo.delay p = delayOf u /\
       (StopTimeUpdate.arrival u ≫= StopTimeEvent.delay = None ->
        StopTimeUpdate.departure u ≫= StopTimeEvent.delay = None ->
        TripInfo.delay p = 0) /\
       60 * TripInfo.minutesUntilArrival p - 30
         <= Js.Number t - reading a 2 / 1000
         < 60 * TripInfo.minutesUntilArrival p + 30) /\
  (forall stopId (a a' : App) (info : StopInfo) feed tripId trip u,
     getStopInfo stopId None a = (Ok info, a') ->
     tripsFeed (gtfsMonitor a) = Some feed ->
     updateOf (staticDataService a) feed tripId trip u ->
     upcomingAt (reading a 2 / 1000) stopId u = true ->
     StopTimeUpdate.arrival u ≫= StopTimeEvent.delay = None ->
     StopTimeUpdate.departure u ≫= StopTimeEvent.delay = None ->
     exists p t,
       p ∈ upcomingTrips info /\
       TripInfo.tripId p = tripId /\
       timeOf u = Some t /\
       TripInfo.delay p = 0 /\
       TripInfo.estimatedArrival p = Js.Iso (Js.Number t * 1000) /\
       TripInfo.scheduledArrival p = TripInfo.estimatedArrival p) /\
  (forall now stopId tripId trip dir route vehicle,
     0 <= now -> 1000 * (now + 90) <= Js.maxTime ->
     (exists p,
        processStopTimeUpdate now stopId tripId trip dir route vehicle
          (StopTimeUpdate.Build stopId
             (Some (StopTimeEvent.Build (Some (Js.Num (now + 90))) (Some 30)))
             None) []
        = (Ok tt, [p]) /\
        TripInfo.delay p = 30 /\
        TripInfo.minutesUntilArrival p = 2 /\
        TripInfo.estimatedArrival p = Js.Iso (1000 * (now + 90)) /\
        TripInfo.scheduledArrival p = Js.Iso (1000 * (now + 90) - 30000)) /\
     (exists p,
        processStopTimeUpdate now stopId tripId trip dir route vehicle
          (StopTimeUpdate.Build stopId
             (Some (StopTimeEvent.Build (Some (Js.Num (now + 90))) None))
             None) []
        = (Ok tt, [p]) /\
        TripInfo.delay p = 0 /\
        TripInfo.minutesUntilArrival p = 2 /\
        TripInfo.estimatedArrival p = Js.Iso (1000 * (now + 90)) /\
        TripInfo.scheduledArrival p = Js.Iso (1000 * (now + 90)))) /\
  (exists p,
     upcomingTrips (replyOf (getStopInfo "M20-2" None Sample.arriving)) = [p] /\
     StopView.name <$> stop (replyOf (getStopInfo "M20-2" None Sample.arriving))
       = Some (Some "Montgomery St.") /\
     TripInfo.delay p = 30 /\
     TripInfo.minutesUntilArrival p = 2 /\
     TripInfo.estimatedArrival p = Js.Iso 1700000090000 /\
     TripInfo.scheduledArrival p = Js.Iso 1700000060000).
Proof.
  split; [|split; [|split]].
  - intros stopId direction a a' info p Hrun Hp.
    apply getStopInfo_Ok_inv in Hrun
      as (stop & pushed & w1 & w2 & _ & Hup & _ & _ & H).
    rewrite Hup in Hp. apply sortAndFilter_subset in Hp.
    destruct (tripsFeed (gtfsMonitor a)) as [feed|].
    2: { destruct H as [-> _]. by apply elem_of_nil in Hp. }
    destruct H as (Hpushed & _).
    destruct (pushed_sourced _ _ _ _ _ _ Hpushed p Hp)
      as (tripId & trip & u & Hu & Hstop & t & Ht & Hfut & Hid & _ & _
          & Hest & Hsch & Hmin & Hdelay & _).
    exists feed, trip, u, t. rewrite Hest, Hsch, Hmin, Hdelay, Hid.
    cbn [Js.Date_parse].
    pose proof (round_div_spec (Js.Number t - reading a 2 / 1000) 60).
    pose proof (Z.div_mod (reading a 2) 1000).
    pose proof (Z.mod_pos_bound (reading a 2) 1000).
    repeat split; try done; try lia.
    apply delayOf_absent.
  - intros stopId a a' info feed tripId trip u Hrun Hfeed Hu Hup Harr Hdep.
    apply getStopInfo_Ok_inv in Hrun
      as (stop & pushed & w1 & w2 & _ & Hinfo & _ & _ & H).
    rewrite Hfeed in H. destruct H as (Hpushed & _).
    destruct (upcoming_pushed _ _ _ _ _ _ _ _ Hpushed Hu Hup)
      as (p & Hp & t & Ht & _ & Hid & _ & _ & Hest & Hsch & _ & Hdelay & _).
    rewrite (delayOf_absent u Harr Hdep) in Hsch, Hdelay.
    exists p, t. rewrite Hinfo, sortAndFilter_unfiltered.
    repeat split; try done.
    rewrite Hest, Hsch. f_equal. lia.
  - intros now stopId tripId trip dir route vehicle Hnow Hmax.
    assert (Hnz : (now + 90 =? 0) = false) by (apply Z.eqb_neq; lia).
    assert (Hlt : (now <? now + 90) = true) by (apply Z.ltb_lt; lia).
    split.
    all: unfold processStopTimeUpdate, Js.or_int64, Js.truthy_int64.
    all: rewrite String.eqb_refl.
    all: cbn -[Js.toISOString Z.mul Z.add Z.sub Js.round_div].
    all: rewrite ?Hnz, ?Hlt; cbn -[Js.toISOString Z.mul Z.add Z.sub Js.round_div].
    all: rewrite ?Hnz, ?Hlt; cbn -[Js.toISOString Z.mul Z.add Z.sub Js.round_div].
    all: rewrite !toISOString_in_range by (unfold Js.maxTime in *; lia).
    all: unfold lift, mbind, M_bind, bind.
    all: eexists; split; [reflexivity|]; cbn -[Z.mul Z.add Z.sub Js.round_div].
    all: repeat split; try (f_equal; lia).
    all: unfold Js.round_div; replace (2 * (now + 90 - now) + 60) with 240 by lia.
    all: reflexivity.
  - eexists. vm_compute. repeat split.
Qed.

(** *** Calls that return *)

Lemma processStopTimeUpdate_returns now stopId tripId trip dir route vehicle u l :
  (forall t, timeOf u = Some t ->
             timeValid (Js.Number t) /\ timeValid (Js.Number t - delayOf u)) ->
  exists l',
    processStopTimeUpdate now stopId tripId trip dir route vehicle u l = (Ok tt, l').
Proof.
  unfold processStopTimeUpdate, timeOf, delayOf, timeValid. intros Hvalid.
  destruct (String.eqb _ stopId); [|by eexists].
  destruct (_ || _); [|by eexists].
  destruct (Js.or_int64 _ _) as [t|]; [|by eexists].
  destruct (_ && _); [|by eexists].
  destruct (Hvalid t eq_refl) as [H1 H2].
  rewrite !toISOString_in_range by done.
  by eexists.
Qed.

Lemma processEntity_returns sds now stopId e l :
  (forall tu updates u t,
     FeedEntity.tripUpdate e = Some tu ->
     TripUpdate.stopTimeUpdate tu = Some updates ->
     u ∈ updates ->
     timeOf u = Some t ->
     timeValid (Js.Number t) /\ timeValid (Js.Number t - delayOf u)) ->
  exists l', processEntity sds now stopId e l = (Ok tt, l').
Proof.
  intros Hvalid. rewrite processEntity_run.
  destruct (FeedEntity.tripUpdate e) as [tu|] eqn:Htu; [|by eexists].
  destruct (TripUpdate.trip tu ≫= TripDescriptor.tripId) as [tripId|]; [|by eexists].
  destruct (String.eqb tripId ""); [by eexists|].
  destruct (StaticData.getTrip tripId sds) as [trip|]; [|by eexists].
  destruct (TripUpdate.stopTimeUpdate tu) as [updates|] eqn:Hups; [|by eexists].
  apply forEach_returns. intros u s Hu.
  apply processStopTimeUpdate_returns. intros t Ht. by eapply Hvalid.
Qed.

Lemma periodBound_returns (b : option Js.int64) :
  (forall v, b = Some v -> timeValid (Js.Number v)) ->
  exists r, periodBound b = Ok r.
Proof.
  intros Hvalid. unfold periodBound. destruct b as [v|]; [|by eexists].
  destruct (Js.truthy_int64 _); [|by eexists].
  rewrite toISOString_in_range by exact (Hvalid v eq_refl). by eexists.
Qed.

Lemma processAlertEntity_returns stopId e l :
  (forall al periods ap v,
     FeedEntity.alert e = Some al ->
     Alert.activePeriod al = Some periods ->
     ap ∈ periods ->
     TimeRange.start ap = Some v \/ TimeRange.end_ ap = Some v ->
     timeValid (Js.Number v)) ->
  exists l', processAlertEntity stopId e l = (Ok tt, l').
Proof.
  intros Hvalid. unfold processAlertEntity.
  destruct (FeedEntity.alert e) as [al|] eqn:Hal; [|by eexists].
  destruct (match Alert.informedEntity al with Some _ => _ | None => _ end);
    [|by eexists].
  destruct (Alert.activePeriod al) as [periods|] eqn:Hp; [|by eexists].
  destruct (forEach_returns mapPeriod periods) with (s := @nil (option Js.IsoString * option Js.IsoString))
    as [ps Hps].
  { intros ap s Hap. unfold mapPeriod.
    destruct (periodBound_returns (TimeRange.start ap)) as [r1 Hr1];
      [intros v Hv; eapply Hvalid; eauto|].
    destruct (periodBound_returns (TimeRange.end_ ap)) as [r2 Hr2];
      [intros v Hv; eapply Hvalid; eauto|].
    unfold mbind, M_bind, bind, lift. rewrite Hr1, Hr2. by eexists. }
  unfold mbind, M_bind, bind. rewrite collect_run, Hps. by eexists.
Qed.

(** For a known stop and feeds whose times are valid dates,
    [getStopInfo] returns a reply. *)
Lemma getStopInfo_returns (stopId : string) (direction : option string)
    (a : App) (stop : Stop.t) :
  StaticData.getStop stopId (staticDataService a) = Some stop ->
  (forall feed, tripsFeed (gtfsMonitor a) = Some feed -> tripTimesValid feed) ->
  (forall feed, alertsFeed (gtfsMonitor a) = Some feed -> alertTimesValid feed) ->
  exists info a', getStopInfo stopId direction a = (Ok info, a').
Proof.
  intros Hstop Htrips Halerts. rewrite getStopInfo_run, Hstop.
  assert (forall k pushed w1 lu, exists info a',
            finish stopId direction a k stop pushed w1 lu = (Ok info, a')) as Hfin.
  { intros k pushed w1 lu. unfold finish.
    destruct (alertsFeed (gtfsMonitor a)) as [afeed|]; [|by eexists _, _].
    destruct (forEach_returns (processAlertEntity stopId) (entity afeed))
      with (s := @nil AlertView.t) as [views Hviews].
    { intros e s He. apply processAlertEntity_returns.
      intros al periods ap v. by eapply (Halerts afeed eq_refl). }
    rewrite Hviews. by eexists _, _. }
  destruct (tripsFeed (gtfsMonitor a)) as [feed|]; [|apply Hfin].
  cbv zeta.
  destruct (forEach_returns
              (processEntity (staticDataService a) (reading a 2 / 1000) stopId)
              (entity feed)) with (s := @nil TripInfo.t) as [pushed Hpushed].
  { intros e s He. apply processEntity_returns.
    intros tu updates u t. by eapply (Htrips feed eq_refl). }
  rewrite Hpushed. apply Hfin.
Qed.

Lemma sortAndFilter_passes l direction p :
  p ∈ _sortAndFilterTrips l direction <-> p ∈ l /\ passes direction p.
Proof.
  unfold passes. destruct direction as [d|].
  2: { rewrite sortAndFilter_unfiltered. split; [by intros ?|by intros [? _]]. }
  destruct (String.eqb_spec (Js.toLowerCase d) "eastbound") as [He|He].
  { rewrite sortAndFilter_filtered by (by left).
    rewrite list_elem_of_filter, sort_Permutation, directionMatches_eastbound by done.
    split.
    - intros [Hr Hp]. split; [done|]. intros d' [= <-]. split; [done|congruence].
    - intros [Hp Hr]. split; [|done]. by apply (Hr d). }
  destruct (String.eqb_spec (Js.toLowerCase d) "westbound") as [Hw|Hw].
  { rewrite sortAndFilter_filtered by (by right).
    rewrite list_elem_of_filter, sort_Permutation, directionMatches_westbound by done.
    split.
    - intros [Hr Hp]. split; [done|]. intros d' [= <-]. split; [congruence|done].
    - intros [Hp Hr]. split; [|done]. by apply (Hr d). }
  assert (_sortAndFilterTrips l (Some d) ≡ₚ l) as ->.
  { unfold _sortAndFilterTrips. destruct (Js.truthy_str _);
      [|apply sort_Permutation].
    rewrite filter_all; [apply sort_Permutation|].
    intros x. by apply directionMatches_other. }
  split; [|by intros [? _]]. intros Hp. split; [done|].
  intros d' [= <-]. by split.
Qed.

(** C10: a stop time update that passes the test and belongs to a trip
    that resolves has its prediction built even when the route of the
    trip does not resolve; the prediction carries the raw route
    identifier as route name, an empty long name and no colors.  It is
    then filtered like any other, on that fallback route name: it is in
    the reply exactly when it passes the direction filter of the call,
    and always when the call has no direction.  In any reply, every
    prediction belongs to a trip that resolves, and one whose route does
    not resolve has these fallback fields. *)
Theorem unresolved_route_kept :
  (forall stopId direction (a a' : App) (info : StopInfo) feed tripId trip u,
     getStopInfo stopId direction a = (Ok info, a') ->
     tripsFeed (gtfsMonitor a) = Some feed ->
     updateOf (staticDataService a) feed tripId trip u ->
     StaticData.getRoute (Trip.route_id trip) (staticDataService a) = None ->
     upcomingAt (reading a 2 / 1000) stopId u = true ->
     exists p t,
       timeOf u = Some t /\
       TripInfo.tripId p = tripId /\
       TripInfo.estimatedArrival p = Js.Iso (Js.Number t * 1000) /\
       TripInfo.headsign p = Trip.trip_headsign trip /\
       TripInfo.routeId p = Trip.route_id trip /\
       TripInfo.routeName p = Trip.route_id trip /\
       TripInfo.routeLongName p = "" /\
       TripInfo.routeColor p = None /\
       TripInfo.routeTextColor p = None /\
       (p ∈ upcomingTrips info <-> passes direction p) /\
       (direction = None -> p ∈ upcomingTrips info)) /\
  (forall stopId direction (a a' : App) (info : StopInfo) (p : TripInfo.t),
     getStopInfo stopId direction a = (Ok info, a') ->
     p ∈ upcomingTrips info ->
     (exists trip,
        StaticData.getTrip (TripInfo.tripId p) (staticDataService a) = Some trip /\
        TripInfo.routeId p = Trip.route_id trip) /\
     (StaticData.getRoute (TripInfo.routeId p) (staticDataService a) = None ->
      TripInfo.routeName p = TripInfo.routeId p /\
      TripInfo.routeLongName p = "" /\
      TripInfo.routeColor p = None /\
      TripInfo.routeTextColor p = None)).
Proof.
  split.
  - intros stopId direction a a' info feed tripId trip u Hrun Hfeed Hu Hroute Hup.
    apply getStopInfo_Ok_inv in Hrun
      as (stop & pushed & w1 & w2 & _ & Hinfo & _ & _ & H).
    rewrite Hfeed in H. destruct H as (Hpushed & _).
    destruct (upcoming_pushed _ _ _ _ _ _ _ _ Hpushed Hu Hup)
      as (p & Hp & t & Ht & _ & Hid & Hrid & Hhead & Hest & _ & _ & _
          & Hname & Hlong & Hcol & Htext).
    rewrite Hroute in *. exists p, t. rewrite Hinfo.
    do 9 (split; [done|]). split.
    + rewrite sortAndFilter_passes. tauto.
    + intros ->. by apply sortAndFilter_unfiltered.
  - intros stopId direction a a' info p Hrun Hp.
    apply getStopInfo_Ok_inv in Hrun
      as (stop & pushed & w1 & w2 & _ & Hinfo & _ & _ & H).
    rewrite Hinfo in Hp. apply sortAndFilter_subset in Hp.
    destruct (tripsFeed (gtfsMonitor a)) as [feed|].
    2: { destruct H as [-> _]. by apply elem_of_nil in Hp. }
    destruct H as (Hpushed & _).
    destruct (pushed_sourced _ _ _ _ _ _ Hpushed p Hp)
      as (tripId & trip & u & (e & tu & ups & _ & _ & _ & _ & Htrip & _) & _
          & t & _ & _ & Hid & Hrid & _ & _ & _ & _ & _
          & Hname & Hlong & Hcol & Htext).
    split; [exists trip; by rewrite Hid|].
    rewrite Hrid. intros Hroute. rewrite Hroute in *. by repeat split.
Qed.

Lemma unresolved_route_kept_witness :
  getStopInfo "M20-2" None Sample.routeLost
    = (Ok (replyOf (getStopInfo "M20-2" None Sample.routeLost)),
       (getStopInfo "M20-2" None Sample.routeLost).2) /\
  StaticData.getRoute "1" (staticDataService Sample.routeLost) = None /\
  exists p,
    p ∈ upcomingTrips (replyOf (getStopInfo "M20-2" None Sample.routeLost)) /\
    TripInfo.tripId p = "1508086" /\
    TripInfo.routeName p = "1" /\
    TripInfo.routeLongName p = "" /\
    TripInfo.routeColor p = None /\
    TripInfo.routeTextColor p = None.
Proof.
  assert (H : getStopInfo "M20-2" None Sample.routeLost
              = (Ok (replyOf (getStopInfo "M20-2" None Sample.routeLost)),
                 (getStopInfo "M20-2" None Sample.routeLost).2))
    by (vm_compute; reflexivity).
  assert (Hr : StaticData.getRoute (Trip.route_id Sample.trip1)
                 (staticDataService Sample.routeLost) = None)
    by (vm_compute; reflexivity).
  split; [exact H|]. split; [exact Hr|].
  destruct (proj1 unresolved_route_kept "M20-2" None Sample.routeLost _ _
              (MkFeed [Sample.arrivalIn90s]) "1508086" Sample.trip1
              Sample.update90 H)
    as (p & t & _ & Hid & _ & _ & _ & Hname & Hlong & Hcol & Htext & _ & Hp).
  - reflexivity.
  - exists Sample.arrivalIn90s, Sample.tripUpdate90, [Sample.update90].
    split; [by apply list_elem_of_singleton|].
    repeat split; try reflexivity; try done.
    by apply list_elem_of_singleton.
  - exact Hr.
  - vm_compute; reflexivity.
  - exists p. split; [by apply Hp|]. by repeat split.
Defined.

(** C10, counterexample: a train of route 1 "Yellow-N" that ends at
    Pleasant Hill, asked for with the direction "eastbound", as
    [GET /station] does by default.  While route 1 resolves, the
    prediction is returned, its route name containing "n".  Once the
    route table has lost route 1, the trip still resolves and the
    prediction is still built, with the route name "1", and the filter
    drops it: the reply is empty.  Without a direction it is returned. *)
Lemma unresolved_route_dropped :
  StaticData.getTrip "1508090" (staticDataService Fixture.shortTurnLost)
    = Some Fixture.tripToPleasantHill /\
  StaticData.getRoute "1" (staticDataService Fixture.shortTurn)
    = Some Sample.yellow /\
  StaticData.getRoute "1" (staticDataService Fixture.shortTurnLost) = None /\
  gtfsMonitor Fixture.shortTurnLost = gtfsMonitor Fixture.shortTurn /\
  TripInfo.routeName
    <$> upcomingTrips
          (replyOf (getStopInfo "M20-2" (Some "eastbound") Fixture.shortTurn))
    = ["Yellow-N"] /\
  (getStopInfo "M20-2" (Some "eastbound") Fixture.shortTurnLost).1
    = Ok (replyOf (getStopInfo "M20-2" (Some "eastbound") Fixture.shortTurnLost)) /\
  upcomingTrips
    (replyOf (getStopInfo "M20-2" (Some "eastbound") Fixture.shortTurnLost)) = [] /\
  TripInfo.routeName
    <$> upcomingTrips (replyOf (getStopInfo "M20-2" None Fixture.shortTurnLost))
    = ["1"] /\
  (upcomingTrips <$> stopInfoOf (Http.station None Fixture.shortTurn)) ≫= head
    <> None /\
  upcomingTrips <$> stopInfoOf (Http.station None Fixture.shortTurnLost)
    = Some [].
Proof. by vm_compute. Qed.

Lemma arrival_prediction_fields_witness :
  getStopInfo "M20-2" None Sample.arriving
    = (Ok (replyOf (getStopInfo "M20-2" None Sample.arriving)),
       (getStopInfo "M20-2" None Sample.arriving).2) /\
  Forall (fun p =>
            reading Sample.arriving 2 < Js.Date_parse (TripInfo.estimatedArrival p) /\
            Js.Date_parse (TripInfo.scheduledArrival p)
              = Js.Date_parse (TripInfo.estimatedArrival p) - 1000 * TripInfo.delay p /\
            TripInfo.delay p = delayOf Sample.update90 /\
            TripInfo.delay p = 30)
         (upcomingTrips (replyOf (getStopInfo "M20-2" None Sample.arriving))) /\
  upcomingAt (reading Sample.twoTrains 2 / 1000) "M20-2" Fixture.onTime600 = true /\
  exists p,
    p ∈ upcomingTrips (replyOf (getStopInfo "M20-2" None Sample.twoTrains)) /\
    TripInfo.delay p = 0 /\
    TripInfo.estimatedArrival p = Js.Iso 1700000600000 /\
    TripInfo.scheduledArrival p = Js.Iso 1700000600000.
Proof.
  assert (H : getStopInfo "M20-2" None Sample.arriving
              = (Ok (replyOf (getStopInfo "M20-2" None Sample.arriving)),
                 (getStopInfo "M20-2" None Sample.arriving).2))
    by (vm_compute; reflexivity).
  assert (H2 : getStopInfo "M20-2" None Sample.twoTrains
               = (Ok (replyOf (getStopInfo "M20-2" None Sample.twoTrains)),
                  (getStopInfo "M20-2" None Sample.twoTrains).2))
    by (vm_compute; reflexivity).
  assert (Hup : upcomingAt (reading Sample.twoTrains 2 / 1000) "M20-2"
                  Fixture.onTime600 = true) by (vm_compute; reflexivity).
  destruct arrival_prediction_fields as (Hback & Hforth & _).
  split; [exact H|]. split; [|split; [exact Hup|]].
  - apply Forall_forall. intros p Hp.
    destruct (Hback _ _ _ _ _ p H Hp)
      as (feed & trip & u & t & Hfeed & Hu & _ & _ & _ & _ & Hest & Hsch & Hdelay & _).
    injection Hfeed as <-.
    destruct Hu as (e & tu & updates & He & Htu & _ & _ & _ & Hups & Hin).
    apply list_elem_of_singleton in He as ->.
    injection Htu as <-. injection Hups as <-.
    apply list_elem_of_singleton in Hin as ->.
    by repeat split.
  - destruct (Hforth "M20-2" Sample.twoTrains _ _
                (MkFeed [Sample.arrivalIn600s; Sample.arrivalIn90s])
                "1508086" Sample.trip1 Fixture.onTime600 H2 eq_refl)
      as (p & t & Hp & _ & Ht & Hdelay & Hest & Hsch).
    + eexists Sample.arrivalIn600s, _, [Fixture.onTime600].
      split; [by left|]. repeat split; try reflexivity; try done.
      by apply list_elem_of_singleton.
    + exact Hup.
    + reflexivity.
    + reflexivity.
    + injection Ht as <-. exists p. rewrite Hsch, Hest. by repeat split.
Defined.

End GetStopInfoFacts.

(** ** The next-arrivals projection *)

Section NextFacts.

Import Next.

Lemma destinationOf_segment (h : string) :
  h <> "" -> destinationOf (Some h) = finalSegment " / " h.
Proof.
  intros Hh. unfold destinationOf, finalSegment, Js.truthy_str, Js.or_str.
  destruct (String.eqb_spec h ""); [done|]. cbn [negb].
  pose proof (split_join " / " h) as Hjoin.
  destruct (Js.split " / " h) as [|x [|y l]]; [done| |done].
  cbn in *. symmetry. by apply Hjoin.
Qed.

Lemma handler_run query_stop query_direction parsedLimit (a : App) :
  handler query_stop query_direction parsedLimit a =
  let stopId := Js.or_str query_stop config.station_id in
  let direction := Js.or_str query_direction config.station_direction in
  match Transit.getStopInfo stopId (Some direction) a with
  | (Ok info, a1) =>
      (Ok (NextJson (NextBody.Build
             (stop info ≫= StopView.name)
             (stop info ≫= StopView.platform)
             (Js.or_str (Some direction) "all")
             (nextArrivalsOf (limitOf parsedLimit) (upcomingTrips info))
             (lastUpdated info)
             (if (0 <? length (warnings info))%nat
              then Some (warnings info) else None))),
       a1)
  | (Throw e, a1) =>
      (Ok (NextFailed 500 (message e) (Js.Iso (reading a1 0))), ticked 1 [] a1)
  end.
Proof.
  unfold handler, try_catch. unfold mbind at 1. unfold M_bind, bind. cbv zeta.
  destruct (Transit.getStopInfo _ _ a) as [[info|e] a1]; [done|].
  destruct a1 as [sds mon [fs ck tk nt sn tr]].
  unfold_monad. unfold ticked, reading, with_world. cbn. by rewrite app_nil_r.
Qed.

(** C9 (as amended): the handler answers with [toArrival] mapped over the
    first [N] predictions of the reply of [getStopInfo], [N] being the
    parsed limit when it is positive and 4 when it is missing, zero or not
    a number.  The destination of an entry is the last of the parts that
    the separator " / " (space, slash, space) cuts the headsign into: it
    does not contain the separator, and the headsign is either the
    destination itself or ends with the separator followed by it; it is
    the headsign itself when that does not contain the separator, and
    "Unknown" when the headsign is missing or empty.  The status is
    "arriving" exactly when minutes-until-arrival is at most 1, and
    "scheduled" otherwise. *)
Theorem next_projection :
  (forall query_stop query_direction parsedLimit (a a1 : App) (info : StopInfo),
     Transit.getStopInfo (Js.or_str query_stop config.station_id)
       (Some (Js.or_str query_direction config.station_direction)) a
     = (Ok info, a1) ->
     exists body,
       handler query_stop query_direction parsedLimit a = (Ok (NextJson body), a1) /\
       NextBody.nextArrivals body
       = nextArrivalsOf (limitOf parsedLimit) (upcomingTrips info)) /\
  (limitOf None = 4 /\ limitOf (Some 0) = 4 /\
   forall n, n <> 0 -> limitOf (Some n) = n) /\
  (forall limit (l : list TripInfo.t), 0 < limit ->
     nextArrivalsOf limit l = toArrival <$> take (Z.to_nat limit) l) /\
  (forall p h, TripInfo.headsign p = Some h -> h <> "" ->
     Arrival.destination (toArrival p) = finalSegment " / " h /\
     Js.includes " / " (Arrival.destination (toArrival p)) = false /\
     (h = Arrival.destination (toArrival p) \/
      exists pre, h = pre +:+ " / " +:+ Arrival.destination (toArrival p)) /\
     (Js.includes " / " h = false -> Arrival.destination (toArrival p) = h)) /\
  (forall p, TripInfo.headsign p = None \/ TripInfo.headsign p = Some "" ->
     Arrival.destination (toArrival p) = "Unknown") /\
  (forall p, Arrival.minutesUntilArrival (toArrival p)
             = TripInfo.minutesUntilArrival p) /\
  (forall p, Arrival.status (toArrival p) = "arriving"
             <-> TripInfo.minutesUntilArrival p <= 1) /\
  (forall p, Arrival.status (toArrival p) = "scheduled"
             <-> 1 < TripInfo.minutesUntilArrival p).
Proof.
  split; [|split; [|split; [|split; [|split; [|split; [|split]]]]]].
  - intros qs qd pl a a1 info Hrun. rewrite handler_run. cbv zeta.
    rewrite Hrun. by eexists.
  - split; [done|]. split; [done|]. intros n Hn. unfold limitOf.
    by destruct (Z.eqb_spec n 0).
  - intros limit l Hl. unfold nextArrivalsOf, Js.slice0.
    by destruct (Z.ltb_spec limit 0); [lia|].
  - intros p h Hh Hne. cbn [toArrival Arrival.destination]. rewrite Hh.
    rewrite destinationOf_segment by done.
    destruct (split_last " / " h) as (d & Hd & Hfree & Hend); [done|].
    unfold finalSegment. rewrite Hd. cbn [default from_option id].
    repeat split; try done.
    intros Habs. unfold Js.split in Hd. rewrite split_go_absent in Hd by done.
    by injection Hd as <-.
  - intros p [Hh|Hh]; cbn [toArrival Arrival.destination]; by rewrite Hh.
  - done.
  - intros p. cbn [toArrival Arrival.status]. unfold statusOf.
    destruct (Z.leb_spec (TripInfo.minutesUntilArrival p) 1); split; done || lia.
  - intros p. cbn [toArrival Arrival.status]. unfold statusOf.
    destruct (Z.leb_spec (TripInfo.minutesUntilArrival p) 1); split; done || lia.
Qed.

(** C9, counterexample: for the headsign "SFO/Millbrae" the final
    "/"-delimited segment is "Millbrae", but the destination the handler
    shows is the whole headsign, which has no " / " in it. *)
Lemma destination_keeps_bare_slash :
  TripInfo.headsign Sample.toMillbrae = Some "SFO/Millbrae" /\
  finalSegment "/" "SFO/Millbrae" = "Millbrae" /\
  Arrival.destination (toArrival Sample.toMillbrae) = "SFO/Millbrae" /\
  Arrival.destination (toArrival Sample.toMillbrae)
    <> finalSegment "/" "SFO/Millbrae".
Proof. by vm_compute. Qed.

Lemma next_projection_witness :
  Transit.getStopInfo (Js.or_str None config.station_id)
    (Some (Js.or_str None config.station_direction)) Sample.arriving
  = (Ok (replyOf (Transit.getStopInfo "M20-2" (Some "eastbound") Sample.arriving)),
     (Transit.getStopInfo "M20-2" (Some "eastbound") Sample.arriving).2) /\
  exists body,
    (handler None None None Sample.arriving).1 = Ok (NextJson body) /\
    NextBody.nextArrivals body = [Arrival.Build "Antioch" 2 "scheduled" None None].
Proof.
  assert (H : Transit.getStopInfo (Js.or_str None config.station_id)
                (Some (Js.or_str None config.station_direction)) Sample.arriving
              = (Ok (replyOf (Transit.getStopInfo "M20-2" (Some "eastbound")
                                Sample.arriving)),
                 (Transit.getStopInfo "M20-2" (Some "eastbound") Sample.arriving).2))
    by (vm_compute; reflexivity).
  split; [exact H|].
  destruct (proj1 next_projection None None None _ _ _ H) as (body & Hb & Hn).
  exists body. split; [by rewrite Hb|].
  etransitivity; [exact Hn|]. vm_compute. reflexivity.
Defined.

End NextFacts.

(** ** StaticDataService: loading, reloading and counting *)

Section StaticIndexFacts.

Import StaticData.

Lemma push_stopTime_lookup (st : StopTime.t) (m : gmap string (list StopTime.t))
    (id : string) :
  push_stopTime st m !! id
  = if decide (StopTime.trip_id st = id)
    then Some (default [] (m !! id) ++ [st])
    else m !! id.
Proof.
  unfold push_stopTime.
  destruct (m !! StopTime.trip_id st) as [g|] eqn:Hg.
  - rewrite Hg. destruct (decide (StopTime.trip_id st = id)) as [<-|Hne].
    + by rewrite lookup_insert_eq, Hg.
    + by rewrite lookup_insert_ne.
  - rewrite lookup_insert_eq.
    destruct (decide (StopTime.trip_id st = id)) as [<-|Hne].
    + by rewrite lookup_insert_eq, Hg.
    + by rewrite !lookup_insert_ne.
Qed.

Lemma foldl_push_lookup (rows : list StopTime.t)
    (m : gmap string (list StopTime.t)) (id : string) :
  foldl (fun m r => push_stopTime r m) m rows !! id
  = match filter (fun r => StopTime.trip_id r = id) rows with
    | [] => m !! id
    | g => Some (default [] (m !! id) ++ g)
    end.
Proof.
  revert m. induction rows as [|r rows IH]; intros m; [done|].
  cbn [foldl]. rewrite IH, filter_cons, push_stopTime_lookup.
  destruct (decide (StopTime.trip_id r = id)) as [Heq|Hne].
  - destruct (filter _ rows) as [|r' g]; [done|].
    cbn. by rewrite <- app_assoc.
  - done.
Qed.

Lemma foldl_set_stopTimes
    (g : StopTime.t -> gmap string (list StopTime.t) -> gmap string (list StopTime.t))
    rows s :
  foldl (fun s r => set_stopTimes (g r) s) s rows
  = set_stopTimes (fun m => foldl (fun m r => g r m) m rows) s.
Proof.
  revert s. induction rows as [|r rows IH]; intros s; cbn [foldl].
  - by destruct s.
  - rewrite IH. by destruct s.
Qed.

Lemma load_Ok_run (a : App) srows rrows trows strows :
  initialized (staticDataService a) = false ->
  files (world a) = MkFiles (Ok srows) (Ok rrows) (Ok trows) (Ok strows) ->
  load a = (Ok tt, with_static (fun s => loaded s srows rrows trows strows) a).
Proof.
  intros Hi Hf. rewrite load_run, Hf by done.
  destruct a as [[st ro tr stt ini] mon w]. unfold with_static, loaded. cbn.
  by rewrite foldl_set_stops, foldl_set_routes, foldl_set_trips, foldl_set_stopTimes.
Qed.

Lemma load_initialized (a : App) :
  initialized (staticDataService a) = true -> load a = (Ok tt, a).
Proof.
  intros Hi. unfold load. rewrite (bind_Ok get _ a a a) by done. by rewrite Hi.
Qed.

(** What a call of [load] comes to, whatever the files. *)
Lemma load_cases (a : App) :
  (initialized (staticDataService a) = true /\ load a = (Ok tt, a))
  \/ (initialized (staticDataService a) = false /\
      exists srows rrows trows strows,
        files (world a) = MkFiles (Ok srows) (Ok rrows) (Ok trows) (Ok strows) /\
        load a = (Ok tt, with_static (fun s => loaded s srows rrows trows strows) a))
  \/ (initialized (staticDataService a) = false /\
      exists e srows rrows trows,
        load a = (Throw e,
                  with_static (fun s =>
                    MkStatic (foldl (fun m r => <[Stop.stop_id r := r]> m) (stops s) srows)
                             (foldl (fun m r => <[Route.route_id r := r]> m) (routes s) rrows)
                             (foldl (fun m r => <[Trip.trip_id r := r]> m) (trips s) trows)
                             (stopTimes s) false) a)).
Proof.
  destruct (initialized (staticDataService a)) eqn:Hi.
  { left. split; [done|]. by apply load_initialized. }
  right. rewrite load_run by done.
  destruct a as [[st ro tr stt ini] mon w]. cbn in Hi. subst ini. cbn.
  destruct (files w) as [[srows|e1] [rrows|e2] [trows|e3] [strows|e4]]; cbn.
  1: left; split; [done|]; exists srows, rrows, trows, strows; split; [done|];
     unfold with_static, loaded; cbn;
     rewrite foldl_set_stops, foldl_set_routes, foldl_set_trips, foldl_set_stopTimes;
     done.
  all: right; split; [done|].
  1: exists e4, srows, rrows, trows.
  2,3: exists e3, srows, rrows, [].
  4,5,6,7: exists e2, srows, [], [].
  8-15: exists e1, [], [], [].
  all: unfold with_static; cbn;
    rewrite ?foldl_set_stops, ?foldl_set_routes, ?foldl_set_trips; done.
Qed.

Lemma lastRow_None {R} (key : R -> string) (id : string) (rows : list R) :
  lastRow key id rows = None <-> id ∉ key <$> rows.
Proof.
  unfold lastRow. rewrite last_None, list_elem_of_fmap. split.
  - intros Hf (r & -> & Hr).
    assert (r ∈ filter (fun r' => key r' = key r) rows) as Hin
      by (by apply list_elem_of_filter).
    rewrite Hf in Hin. by apply elem_of_nil in Hin.
  - intros Hn. destruct (filter _ rows) as [|r l] eqn:Hf; [done|].
    assert (r ∈ filter (fun r' => key r' = id) rows) as Hin
      by (rewrite Hf; by left).
    apply list_elem_of_filter in Hin as [<- Hr]. destruct Hn. eauto.
Qed.

Lemma groupOf_lookup (rows : list StopTime.t) (id : string) :
  foldl (fun m r => push_stopTime r m) ∅ rows !! id = groupOf id rows.
Proof.
  rewrite foldl_push_lookup, lookup_empty. unfold groupOf.
  by destruct (filter _ rows).
Qed.

Lemma lookup_foldl_insert_empty {R} (key : R -> string) (rows : list R) (id : string) :
  foldl (fun m r => <[key r := r]> m) (∅ : gmap string R) rows !! id
  = lastRow key id rows.
Proof. rewrite lookup_foldl_insert, lookup_empty. by destruct (lastRow _ _ _). Qed.

(** X1: when the four files parse, [reload()] returns and the index it
    leaves is that of the files alone, whatever it held before: an
    identifier resolves to the last row of its file that carries it, the
    stop times of a trip are its rows in the order of the file, and an
    identifier the new files do not list no longer resolves.  The service
    is initialized; the monitor and the world are untouched. *)
Theorem reload_replaces_index (a : App) (srows : list Stop.t)
    (rrows : list Route.t) (trows : list Trip.t) (strows : list StopTime.t) :
  files (world a) = MkFiles (Ok srows) (Ok rrows) (Ok trows) (Ok strows) ->
  (reload a).1 = Ok tt /\
  initialized (staticDataService (reload a).2) = true /\
  (forall id, getStop id (staticDataService (reload a).2)
              = lastRow Stop.stop_id id srows) /\
  (forall id, getRoute id (staticDataService (reload a).2)
              = lastRow Route.route_id id rrows) /\
  (forall id, getTrip id (staticDataService (reload a).2)
              = lastRow Trip.trip_id id trows) /\
  (forall id, stopTimes (staticDataService (reload a).2) !! id
              = groupOf id strows) /\
  (forall id, id ∉ Stop.stop_id <$> srows ->
              getStop id (staticDataService (reload a).2) = None) /\
  (forall id, id ∉ Trip.trip_id <$> trows ->
              getTrip id (staticDataService (reload a).2) = None) /\
  gtfsMonitor (reload a).2 = gtfsMonitor a /\
  world (reload a).2 = world a.
Proof.
  intros Hf. rewrite reload_run, (load_Ok_run _ srows rrows trows strows); [|done..].
  unfold getStop, getRoute, getTrip. cbn.
  repeat split; try done.
  - intros id. apply lookup_foldl_insert_empty.
  - intros id. apply lookup_foldl_insert_empty.
  - intros id. apply lookup_foldl_insert_empty.
  - intros id. apply groupOf_lookup.
  - intros id Hid. rewrite lookup_foldl_insert_empty. by apply lastRow_None.
  - intros id Hid. rewrite lookup_foldl_insert_empty. by apply lastRow_None.
Qed.

Lemma reload_replaces_index_witness :
  getStop "M20-2" (staticDataService Fixture.powellOnDisk) = Some Sample.montgomery /\
  getStop "M20-2" (staticDataService (reload Fixture.powellOnDisk).2) = None /\
  getStop "M30-2" (staticDataService (reload Fixture.powellOnDisk).2)
    = Some Fixture.powell.
Proof.
  destruct (reload_replaces_index Fixture.powellOnDisk _ _ _ _ eq_refl)
    as (_ & _ & Hs & _).
  split; [reflexivity|].
  split; (etransitivity; [apply Hs|]; vm_compute; reflexivity).
Defined.

(** X2: the stop-times table is always the grouping of the rows of one
    file (every group is non-empty and holds rows of its own trip only),
    and it is empty while the service is not initialized.  This holds of
    the constructed service and is kept by [load()] and by [reload()],
    whatever the files hold and whether the call returns or throws.  A
    [load()] that succeeds on such a service leaves each trip exactly its
    rows of the current stop_times.txt, each once: loading again after a
    failed load does not double them. *)
Theorem stop_times_grouped (a : App) :
  grouped constructor /\
  (grouped (staticDataService a) -> grouped (staticDataService (load a).2)) /\
  grouped (staticDataService (reload a).2) /\
  (forall strows,
     grouped (staticDataService a) ->
     initialized (staticDataService a) = false ->
     stop_times_txt (files (world a)) = Ok strows ->
     (load a).1 = Ok tt ->
     forall id, stopTimes (staticDataService (load a).2) !! id = groupOf id strows).
Proof.
  assert (forall b, grouped (staticDataService b) ->
                    grouped (staticDataService (load b).2)) as Hload.
  { intros b [[rows Hrows] Hclean].
    destruct (load_cases b)
      as [[_ ->]|[(Hi & srows & rrows & trows & strows & _ & ->)
                 |(Hi & e & srows & rrows & trows & ->)]]; cbn.
    - split; [by exists rows|done].
    - split; [|done]. exists strows. intros id.
      unfold loaded. cbn. rewrite (Hclean Hi). apply groupOf_lookup.
    - split; [by exists rows|]. intros _. by apply Hclean. }
  split; [|split; [|split]].
  - split; [|done]. exists []. intros id. apply lookup_empty.
  - apply Hload.
  - rewrite reload_run. apply Hload. split; [|done].
    exists []. intros id. apply lookup_empty.
  - intros strows [_ Hclean] Hi Hst Hok id.
    destruct (load_cases a)
      as [[Hi' _]|[(_ & srows & rrows & trows & strows' & Hf & Hrun)
                  |(_ & e & srows & rrows & trows & Hrun)]].
    + congruence.
    + rewrite Hrun. rewrite Hf in Hst. injection Hst as <-.
      unfold loaded. cbn. rewrite (Hclean Hi). apply groupOf_lookup.
    + by rewrite Hrun in Hok.
Qed.

Lemma stop_times_grouped_witness :
  grouped (staticDataService Fixture.fresh) /\
  grouped (staticDataService (load Fixture.fresh).2) /\
  stopTimes (staticDataService (load Fixture.fresh).2) !! "1508086"
  = Some [Sample.stopTime1].
Proof.
  assert (H : grouped (staticDataService Fixture.fresh)).
  { split; [|done]. exists []. intros id. apply lookup_empty. }
  destruct (stop_times_grouped Fixture.fresh) as (_ & Hl & _ & Hg).
  split; [exact H|]. split; [exact (Hl H)|].
  etransitivity; [apply (Hg [Sample.stopTime1] H); reflexivity|].
  reflexivity.
Defined.

(** X3: once [load()] has returned, the service is initialized and a
    further [load()] does nothing, even when the files have changed in
    between: it returns without reading them and leaves the process as it
    is. *)
Theorem load_once (a a1 : App) (fs : StaticFiles) :
  load a = (Ok tt, a1) ->
  initialized (staticDataService a1) = true /\
  load (with_files fs a1) = (Ok tt, with_files fs a1).
Proof.
  intros Hrun.
  assert (initialized (staticDataService a1) = true) as Hi.
  { destruct (load_cases a)
      as [[Hi Ha]|[(_ & srows & rrows & trows & strows & _ & Ha)
                  |(_ & e & srows & rrows & trows & Ha)]];
      rewrite Ha in Hrun; by simplify_eq. }
  split; [done|]. by apply load_initialized.
Qed.

Lemma load_once_witness :
  load Fixture.fresh = (Ok tt, (load Fixture.fresh).2) /\
  getRoute "1" (staticDataService (load Fixture.fresh).2) = Some Sample.yellow /\
  load (with_files Sample.filesWithoutRoutes (load Fixture.fresh).2)
  = (Ok tt, with_files Sample.filesWithoutRoutes (load Fixture.fresh).2).
Proof.
  assert (H : load Fixture.fresh = (Ok tt, (load Fixture.fresh).2))
    by (vm_compute; reflexivity).
  split; [exact H|]. split; [vm_compute; reflexivity|].
  exact (proj2 (load_once _ _ Sample.filesWithoutRoutes H)).
Defined.

Lemma foldl_insert_dom {R} (key : R -> string) (rows : list R)
    (m : gmap string R) :
  dom m ⊆ dom (foldl (fun m r => <[key r := r]> m) m rows).
Proof.
  revert m. induction rows as [|r rows IH]; intros m; [done|].
  cbn [foldl]. etransitivity; [|apply IH]. apply dom_insert_subseteq.
Qed.

(** X4: [load()] never removes an entry.  Whether it returns or throws,
    every stop, route and trip identifier the index held before the call
    is held after it, and the stop times of a trip are what they were
    with, at most, rows added at the end. *)
Theorem load_keeps_entries (a : App) :
  dom (stops (staticDataService a)) ⊆ dom (stops (staticDataService (load a).2)) /\
  dom (routes (staticDataService a)) ⊆ dom (routes (staticDataService (load a).2)) /\
  dom (trips (staticDataService a)) ⊆ dom (trips (staticDataService (load a).2)) /\
  (forall id g, stopTimes (staticDataService a) !! id = Some g ->
     exists g', stopTimes (staticDataService (load a).2) !! id = Some (g ++ g')).
Proof.
  destruct (load_cases a)
    as [[_ ->]|[(_ & srows & rrows & trows & strows & _ & ->)
               |(_ & e & srows & rrows & trows & ->)]]; cbn.
  - repeat split; try done. intros id g Hg. exists []. by rewrite app_nil_r.
  - repeat split; try apply foldl_insert_dom.
    intros id g Hg. rewrite foldl_push_lookup, Hg. cbn.
    destruct (filter _ strows) as [|r l]; [|by eexists].
    exists []. by rewrite app_nil_r.
  - repeat split; try apply foldl_insert_dom.
    intros id g Hg. exists []. by rewrite app_nil_r.
Qed.

Lemma load_keeps_entries_witness :
  stopTimes (staticDataService Sample.routesFileLost) !! "1508086"
    = Some [Sample.stopTime1] /\
  exists g', stopTimes (staticDataService (load Sample.routesFileLost).2) !! "1508086"
             = Some ([Sample.stopTime1] ++ g').
Proof.
  split; [reflexivity|].
  destruct (load_keeps_entries Sample.routesFileLost) as (_ & _ & _ & H).
  by apply H.
Defined.

Lemma foldl_insert_dom_eq {R} (key : R -> string) (rows : list R) :
  dom (foldl (fun m r => <[key r := r]> m) (∅ : gmap string R) rows)
  = list_to_set (key <$> rows).
Proof.
  apply set_eq. intros id.
  rewrite elem_of_dom, lookup_foldl_insert_empty, elem_of_list_to_set.
  destruct (lastRow key id rows) as [r|] eqn:Hl.
  - split; [intros _|by eauto].
    destruct (decide (id ∈ key <$> rows)) as [|Hn]; [done|].
    apply lastRow_None in Hn. congruence.
  - apply lastRow_None in Hl. split; [by intros [? [=]]|done].
Qed.

Lemma size_foldl_insert {R} (key : R -> string) (rows : list R) :
  size (foldl (fun m r => <[key r := r]> m) (∅ : gmap string R) rows)
  = distinct key rows.
Proof.
  rewrite <- size_dom, foldl_insert_dom_eq. unfold distinct.
  rewrite <- (size_list_to_set (C := gset string) (remove_dups (key <$> rows)))
    by apply NoDup_remove_dups.
  f_equal. apply set_eq. intros id.
  by rewrite !elem_of_list_to_set, elem_of_remove_dups.
Qed.

Lemma distinct_le {R} (key : R -> string) (rows : list R) :
  (distinct key rows <= length rows)%nat.
Proof.
  unfold distinct. rewrite <- (length_fmap key rows).
  generalize (key <$> rows). intros l.
  induction l as [|x l IH]; cbn; [done|].
  destruct (decide_rel _ _ _); cbn; lia.
Qed.

Lemma remove_dups_NoDup (l : list string) : NoDup l -> remove_dups l = l.
Proof.
  induction 1 as [|x l Hx Hl IH]; cbn; [done|].
  destruct (decide_rel _ _ _); [done|]. by rewrite IH.
Qed.

(** X5: after a [reload()] of files that parse, [getStats()] counts the
    different identifiers of stops.txt, routes.txt and trips.txt, not
    their rows: at most the number of rows, and exactly that number when
    no identifier is repeated. *)
Theorem getStats_counts_identifiers (a : App) (srows : list Stop.t)
    (rrows : list Route.t) (trows : list Trip.t) (strows : list StopTime.t) :
  files (world a) = MkFiles (Ok srows) (Ok rrows) (Ok trows) (Ok strows) ->
  getStats (staticDataService (reload a).2)
  = StaticStats.Build (distinct Stop.stop_id srows)
                      (distinct Route.route_id rrows)
                      (distinct Trip.trip_id trows) /\
  (distinct Stop.stop_id srows <= length srows)%nat /\
  (NoDup (Stop.stop_id <$> srows) -> distinct Stop.stop_id srows = length srows).
Proof.
  intros Hf. rewrite reload_run, (load_Ok_run _ srows rrows trows strows); [|done..].
  unfold getStats. cbn. rewrite !size_foldl_insert.
  split; [done|]. split; [apply distinct_le|].
  intros Hnd. unfold distinct. by rewrite remove_dups_NoDup, length_fmap.
Qed.

Lemma getStats_counts_identifiers_witness :
  stops_txt (files (world Fixture.powellOnDisk))
    = Ok [Fixture.powell; Fixture.powell] /\
  getStats (staticDataService (reload Fixture.powellOnDisk).2)
    = StaticStats.Build 1 1 1.
Proof.
  split; [reflexivity|].
  etransitivity;
    [exact (proj1 (getStats_counts_identifiers Fixture.powellOnDisk
                     _ _ _ _ eq_refl))|].
  vm_compute. reflexivity.
Defined.

End StaticIndexFacts.


(** ** GtfsMonitor: the bookkeeping of refreshes, and the health check *)

Section PollingFacts.

Import Monitor.

(** A call of [fetchFeed] makes one to three requests and touches
    nothing but the network and the trace. *)
Lemma fetchFeed_frame (url type : string) (a : App) :
  exists (k : nat) (evs : list Event),
    (1 <= k <= 3)%nat /\ (fetchFeed url type a).2 = advanced k evs a.
Proof.
  rewrite fetchFeed_run. cbv zeta.
  destruct (attemptResult (upcoming a 0));
    [exists 1%nat; eexists; split; [lia|done]|].
  destruct (attemptResult (upcoming a 1));
    [exists 2%nat; eexists; split; [lia|done]|].
  destruct (attemptResult (upcoming a 2));
    exists 3%nat; eexists; (split; [lia|done]).
Qed.

(** What a refresh does to the process, by the outcome of its fetch. *)
Lemma refresh_run (kind : FeedKind) (a : App) :
  exists (k : nat) (evs : list Event),
    (1 <= k <= 3)%nat /\
    ((exists feed,
        (fetchFeed (feedUrl kind) (feedType kind) a).1 = Ok feed /\
        refresh kind a
        = (Ok tt,
           with_monitor
             (match kind with
              | TripsFeed => fun m =>
                  set_stats incr_tripUpdates
                    (set_tripsError None
                       (set_lastTripsUpdate (Some (reading a 0))
                          (set_tripsFeed (Some feed) m)))
              | AlertsFeed => fun m =>
                  set_stats incr_alertUpdates
                    (set_alertsError None
                       (set_lastAlertsUpdate (Some (reading a 0))
                          (set_alertsFeed (Some feed) m)))
              end)
             (ticked 1 [] (advanced k evs a))))
     \/
     (exists e,
        (fetchFeed (feedUrl kind) (feedType kind) a).1 = Throw e /\
        refresh kind a
        = (Ok tt,
           with_monitor
             (match kind with
              | TripsFeed => fun m => set_stats incr_tripErrors
                                        (set_tripsError (Some e) m)
              | AlertsFeed => fun m => set_stats incr_alertErrors
                                         (set_alertsError (Some e) m)
              end)
             (advanced k evs a)))).
Proof.
  destruct (fetchFeed_frame (feedUrl kind) (feedType kind) a) as (k & evs & Hk & Ha1).
  exists k, evs. split; [done|].
  destruct (fetchFeed (feedUrl kind) (feedType kind) a) as [[feed|e] a1] eqn:Hf;
    cbn [snd] in Ha1; subst a1.
  - left. exists feed. split; [done|].
    destruct kind; unfold refresh; cbn [feedUrl feedType] in Hf.
    + by rewrite (updateTrips_succeeded _ _ _ Hf).
    + by rewrite (updateAlerts_succeeded _ _ _ Hf).
  - right. exists e. split; [done|].
    destruct kind; unfold refresh; cbn [feedUrl feedType] in Hf.
    + by rewrite (updateTrips_failed _ _ _ Hf).
    + by rewrite (updateAlerts_failed _ _ _ Hf).
Qed.

(** X6: a refresh of a feed never throws, whatever its attempts meet.  It
    adds one to exactly one of the two counters of its feed, makes between
    one and three requests, and leaves the slot of the other feed
    (snapshot, status, counters), the static index and the files as they
    were. *)
Theorem refresh_accounting (kind : FeedKind) (a : App) :
  (refresh kind a).1 = Ok tt /\
  successCount kind (gtfsMonitor (refresh kind a).2)
  + errorCount kind (gtfsMonitor (refresh kind a).2)
  = successCount kind (gtfsMonitor a) + errorCount kind (gtfsMonitor a) + 1 /\
  (successCount kind (gtfsMonitor (refresh kind a).2)
   = successCount kind (gtfsMonitor a)
   \/ errorCount kind (gtfsMonitor (refresh kind a).2)
      = errorCount kind (gtfsMonitor a)) /\
  (forall other, other <> kind ->
     snapshot other (gtfsMonitor (refresh kind a).2)
       = snapshot other (gtfsMonitor a) /\
     statusOf other (status_of (gtfsMonitor (refresh kind a).2))
       = statusOf other (status_of (gtfsMonitor a)) /\
     successCount other (gtfsMonitor (refresh kind a).2)
       = successCount other (gtfsMonitor a) /\
     errorCount other (gtfsMonitor (refresh kind a).2)
       = errorCount other (gtfsMonitor a)) /\
  staticDataService (refresh kind a).2 = staticDataService a /\
  files (world (refresh kind a).2) = files (world a) /\
  (1 + sent (world a) <= sent (world (refresh kind a).2) <= 3 + sent (world a))%nat.
Proof.
  destruct (refresh_run kind a)
    as (k & evs & Hk & [(feed & _ & ->)|(e & _ & ->)]);
    destruct a as [sds mon [fs ck tk nt sn tr]]; destruct kind; cbn;
    (repeat split; try lia; try (by left); try (by right);
     try (by destruct other)).
Qed.

Lemma refresh_accounting_witness :
  errorCount TripsFeed (gtfsMonitor (refresh TripsFeed Sample.serving).2) = 1 /\
  successCount TripsFeed (gtfsMonitor (refresh TripsFeed Sample.serving).2) = 1 /\
  statusOf AlertsFeed (status_of (gtfsMonitor (refresh TripsFeed Sample.serving).2))
  = statusOf AlertsFeed (status_of (gtfsMonitor Sample.serving)).
Proof.
  destruct (refresh_accounting TripsFeed Sample.serving)
    as (_ & _ & _ & Hother & _).
  split; [vm_compute; reflexivity|]. split; [vm_compute; reflexivity|].
  by destruct (Hother AlertsFeed) as (_ & Hst & _).
Defined.

(** [fetchFeed] when the [k]-th attempt is the first to succeed. *)
Lemma fetchFeed_first_success (url type : string) (a : App) (k : nat)
    (feed : FeedMessage) :
  (k < 3)%nat ->
  attemptResult (upcoming a k) = Ok feed ->
  (forall i, (i < k)%nat -> exists e, attemptResult (upcoming a i) = Throw e) ->
  exists evs,
    fetchFeed url type a = (Ok feed, advanced (S k) evs a) /\
    sleepsOf evs = take k [1000; 2000].
Proof.
  intros Hk Hok Hbefore. rewrite fetchFeed_run. cbv zeta.
  destruct k as [|[|[|k]]]; [| | |lia].
  - rewrite Hok. eexists. split; [done|]. apply sleepsOf_attempt.
  - destruct (Hbefore 0%nat) as [e0 ->]; [lia|]. rewrite Hok.
    eexists. split; [done|].
    by rewrite !sleepsOf_app, !sleepsOf_attempt.
  - destruct (Hbefore 0%nat) as [e0 ->]; [lia|].
    destruct (Hbefore 1%nat) as [e1 ->]; [lia|]. rewrite Hok.
    eexists. split; [done|].
    by rewrite !sleepsOf_app, !sleepsOf_attempt.
Qed.

(** X7: when attempt [k+1] of a refresh ([k < 3]) is the first that
    succeeds, the feed it decoded becomes the snapshot, the time of the
    update is the clock reading taken right after the fetch, and the error
    of the feed is cleared: the [k] failures leave nothing in the status.
    The success counter goes up by one, the error counter stays; [k+1]
    requests were made, with waits of 1000 ms and then 2000 ms between
    them. *)
Theorem refresh_first_success (kind : FeedKind) (a : App) (k : nat)
    (feed : FeedMessage) :
  (k < 3)%nat ->
  attemptResult (upcoming a k) = Ok feed ->
  (forall i, (i < k)%nat -> exists e, attemptResult (upcoming a i) = Throw e) ->
  snapshot kind (gtfsMonitor (refresh kind a).2) = Some feed /\
  lastUpdateOf kind (gtfsMonitor (refresh kind a).2) = Some (reading a 0) /\
  Status.error (statusOf kind (status_of (gtfsMonitor (refresh kind a).2))) = None /\
  successCount kind (gtfsMonitor (refresh kind a).2)
    = successCount kind (gtfsMonitor a) + 1 /\
  errorCount kind (gtfsMonitor (refresh kind a).2)
    = errorCount kind (gtfsMonitor a) /\
  sent (world (refresh kind a).2) = (k + 1 + sent (world a))%nat /\
  exists evs, trace (world (refresh kind a).2) = trace (world a) ++ evs
              /\ sleepsOf evs = take k [1000; 2000].
Proof.
  intros Hk Hok Hbefore.
  destruct (fetchFeed_first_success (feedUrl kind) (feedType kind) a k feed
              Hk Hok Hbefore) as (evs & Hf & Hsl).
  destruct kind; unfold refresh; cbn [feedUrl feedType] in Hf.
  - rewrite (updateTrips_succeeded _ _ _ Hf).
    destruct a as [sds mon [fs ck tk nt sn tr]]. cbn.
    repeat split; try done; try (f_equal; lia).
    exists evs. by rewrite app_nil_r.
  - rewrite (updateAlerts_succeeded _ _ _ Hf).
    destruct a as [sds mon [fs ck tk nt sn tr]]. cbn.
    repeat split; try done; try (f_equal; lia).
    exists evs. by rewrite app_nil_r.
Qed.

Lemma refresh_first_success_witness :
  attemptResult (upcoming Fixture.polling 0)
    = Throw (MkError "HTTP 503: Service Unavailable") /\
  snapshot TripsFeed (gtfsMonitor (refresh TripsFeed Fixture.polling).2)
    = Some Fixture.feed90 /\
  lastUpdateOf TripsFeed (gtfsMonitor (refresh TripsFeed Fixture.polling).2)
    = Some 5000 /\
  Status.error (statusOf TripsFeed
                  (status_of (gtfsMonitor (refresh TripsFeed Fixture.polling).2)))
    = None /\
  errorCount TripsFeed (gtfsMonitor (refresh TripsFeed Fixture.polling).2) = 0.
Proof.
  assert (H0 : attemptResult (upcoming Fixture.polling 0)
               = Throw (MkError "HTTP 503: Service Unavailable"))
    by (vm_compute; reflexivity).
  assert (H1 : attemptResult (upcoming Fixture.polling 1) = Ok Fixture.feed90)
    by (vm_compute; reflexivity).
  split; [exact H0|].
  destruct (refresh_first_success TripsFeed Fixture.polling 1 Fixture.feed90)
    as (Hs & Hl & He & _ & Hc & _).
  - lia.
  - exact H1.
  - intros i Hi. assert (i = 0%nat) as -> by lia. eexists. exact H0.
  - split; [exact Hs|]. split; [etransitivity; [exact Hl|]; reflexivity|].
    split; [exact He|]. etransitivity; [exact Hc|]. reflexivity.
Defined.

(** A refresh never takes a snapshot away. *)
Lemma refresh_keeps_snapshot (kind held : FeedKind) (a : App) :
  is_Some (snapshot held (gtfsMonitor a)) ->
  is_Some (snapshot held (gtfsMonitor (refresh kind a).2)).
Proof.
  intros Hheld.
  destruct (refresh_run kind a)
    as (k & evs & Hk & [(feed & _ & ->)|(e & _ & ->)]);
    destruct a as [sds mon [fs ck tk nt sn tr]]; destruct kind, held; cbn in *;
    done || by eexists.
Qed.

Lemma refreshes_cons (kind : FeedKind) (kinds : list FeedKind) (a : App) :
  refreshes (kind :: kinds) a = refreshes kinds (refresh kind a).2.
Proof.
  unfold refreshes. cbn [forEach].
  destruct (refresh_run kind a)
    as (k & evs & Hk & [(feed & _ & Hr)|(e & _ & Hr)]);
    rewrite Hr; by erewrite bind_Ok.
Qed.

Lemma refreshes_keep_snapshot (kinds : list FeedKind) (held : FeedKind) (a : App) :
  is_Some (snapshot held (gtfsMonitor a)) ->
  (refreshes kinds a).1 = Ok tt /\
  is_Some (snapshot held (gtfsMonitor (refreshes kinds a).2)).
Proof.
  revert a. induction kinds as [|kind kinds IH]; intros a Hheld; [done|].
  rewrite refreshes_cons. apply IH. by apply refresh_keeps_snapshot.
Qed.

(** X8: a snapshot is never taken away.  Once the monitor holds a
    snapshot of a feed, it holds one after any sequence of refreshes of
    either feed, whatever they meet; the sequence never throws, and the
    getter of that feed keeps returning a feed. *)
Theorem snapshot_outlives_failures (kinds : list FeedKind) (held : FeedKind)
    (a : App) :
  is_Some (snapshot held (gtfsMonitor a)) ->
  (refreshes kinds a).1 = Ok tt /\
  is_Some (snapshot held (gtfsMonitor (refreshes kinds a).2)) /\
  exists feed, (getSnapshot held (refreshes kinds a).2).1 = Ok (Some feed).
Proof.
  intros Hheld.
  destruct (refreshes_keep_snapshot kinds held a Hheld) as [Hok [feed Hfeed]].
  split; [done|]. split; [by exists feed|]. exists feed.
  destruct ((refreshes kinds a).2) as [sds mon w].
  destruct held; cbn in *; unfold getTrips, getAlerts; unfold_monad;
    by rewrite Hfeed.
Qed.

Lemma snapshot_outlives_failures_witness :
  snapshot TripsFeed (gtfsMonitor Sample.serving) = Some Sample.emptyFeed /\
  Status.error (statusOf TripsFeed
     (status_of (gtfsMonitor
        (refreshes [TripsFeed; AlertsFeed; TripsFeed] Sample.serving).2)))
    = Some "HTTP 503: Service Unavailable" /\
  is_Some (snapshot TripsFeed
     (gtfsMonitor (refreshes [TripsFeed; AlertsFeed; TripsFeed] Sample.serving).2)).
Proof.
  split; [reflexivity|]. split; [vm_compute; reflexivity|].
  apply (snapshot_outlives_failures [TripsFeed; AlertsFeed; TripsFeed] TripsFeed
           Sample.serving).
  by eexists.
Defined.

Lemma health_run (a : App) :
  Http.health a
  = let status := status_of (gtfsMonitor a) in
    let isHealthy := negb (Js.truthy_str (Status.error (Status.trips status)))
                     || Status.hasData (Status.trips status) in
    (Ok (Http.Send (if isHealthy then 200 else 503)
           (Http.MkHealth (if isHealthy then "healthy" else "unhealthy")
                          (Js.Iso (reading a 0)) status
                          (StaticData.getStats (staticDataService a)))),
     ticked 1 [Read ReadStatus] a).
Proof.
  destruct a as [sds mon [fs ck tk nt sn tr]].
  unfold Http.health, Monitor.getStatus. unfold_monad.
  by unfold ticked, reading, with_world.
Qed.

Lemma healthOf_eq (a : App) :
  healthOf a
  = if negb (Js.truthy_str (message <$> tripsError (gtfsMonitor a)))
       || bool_decide (is_Some (tripsFeed (gtfsMonitor a)))
    then (200, "healthy") else (503, "unhealthy").
Proof.
  unfold healthOf. rewrite health_run. cbn.
  by destruct (negb _ || _).
Qed.

(** X9: [GET /health] answers 200 "healthy" on a freshly constructed
    monitor (before any data), and, once a trip-updates snapshot is held,
    after any sequence of refreshes however they end.  It answers 503
    "unhealthy" after a refresh of the trip updates whose three attempts
    failed while no snapshot was ever obtained (the error having a
    message).  A refresh of the alerts never changes the answer. *)
Theorem health_check :
  (forall a, gtfsMonitor a = Monitor.constructor -> healthOf a = (200, "healthy")) /\
  (forall a kinds, is_Some (tripsFeed (gtfsMonitor a)) ->
     healthOf (refreshes kinds a).2 = (200, "healthy")) /\
  (forall a e1 e2 e3,
     tripsFeed (gtfsMonitor a) = None ->
     attemptResult (upcoming a 0) = Throw e1 ->
     attemptResult (upcoming a 1) = Throw e2 ->
     attemptResult (upcoming a 2) = Throw e3 ->
     message e3 <> "" ->
     healthOf (refresh TripsFeed a).2 = (503, "unhealthy")) /\
  (forall a, healthOf (refresh AlertsFeed a).2 = healthOf a).
Proof.
  split; [|split; [|split]].
  - intros a Hm. by rewrite healthOf_eq, Hm.
  - intros a kinds Hdata. rewrite healthOf_eq.
    destruct (refreshes_keep_snapshot kinds TripsFeed a Hdata) as [_ Hs].
    cbn in Hs. by rewrite (bool_decide_eq_true_2 _ Hs), orb_true_r.
  - intros a e1 e2 e3 Hnone H1 H2 H3 Hmsg. rewrite healthOf_eq.
    destruct (fetchFeed_exhausted config.feeds_trips "trips" a _ _ _ H1 H2 H3)
      as [evs Hf].
    unfold refresh. rewrite (updateTrips_failed _ _ _ Hf). cbn.
    rewrite Hnone. unfold Js.truthy_str.
    by destruct (String.eqb_spec (message e3) "").
  - intros a. rewrite !healthOf_eq.
    destruct (refresh_run AlertsFeed a)
      as (k & evs & Hk & [(feed & _ & ->)|(e & _ & ->)]);
      by destruct a as [sds mon [fs ck tk nt sn tr]].
Qed.

Lemma health_check_witness :
  healthOf Fixture.down = (200, "healthy") /\
  healthOf (refresh TripsFeed Fixture.down).2 = (503, "unhealthy") /\
  healthOf (refreshes [TripsFeed; TripsFeed] Sample.serving).2 = (200, "healthy").
Proof.
  destruct health_check as (H1 & H2 & H3 & _).
  split; [by apply H1|]. split.
  - apply (H3 Fixture.down (MkError "HTTP 503: Service Unavailable")
              (MkError "HTTP 503: Service Unavailable")
              (MkError "HTTP 503: Service Unavailable")); vm_compute; done.
  - apply H2. by eexists.
Defined.

Lemma fetchedUrls_app evs1 evs2 :
  fetchedUrls (evs1 ++ evs2) = fetchedUrls evs1 ++ fetchedUrls evs2.
Proof.
  induction evs1 as [|[] evs1 IH]; cbn; by rewrite ?IH.
Qed.

Lemma fetchedUrls_attempt url att : fetchedUrls (attemptEvents url att) = [url].
Proof.
  unfold attemptEvents.
  destruct (latency att <? timeout); [|done].
  destruct (reply att) as [e|status statusText bodyTime payload]; [done|].
  by destruct (ok status).
Qed.

Lemma fetchFeed_urls (url type : string) (a : App) :
  exists (k : nat) (evs : list Event),
    (1 <= k <= 3)%nat /\
    (fetchFeed url type a).2 = advanced k evs a /\
    fetchedUrls evs = replicate k url.
Proof.
  rewrite fetchFeed_run. cbv zeta.
  destruct (attemptResult (upcoming a 0)).
  { exists 1%nat. eexists. split; [lia|]. split; [done|].
    by rewrite fetchedUrls_attempt. }
  destruct (attemptResult (upcoming a 1)).
  { exists 2%nat. eexists. split; [lia|]. split; [done|].
    by rewrite !fetchedUrls_app, !fetchedUrls_attempt. }
  destruct (attemptResult (upcoming a 2)).
  all: exists 3%nat; eexists; split; [lia|]; split; [done|];
    by rewrite !fetchedUrls_app, !fetchedUrls_attempt.
Qed.

(** X10: with the default configuration (no address set in the
    environment), every request of a refresh goes to the address of its
    own feed, and there are between one and three of them; the two feeds
    have different addresses, so a refresh of one never fetches the
    other. *)
Theorem refresh_fetches_own_url (kind : FeedKind) (a : App) :
  exists evs,
    trace (world (refresh kind a).2) = trace (world a) ++ evs /\
    Forall (fun url => url = feedUrl kind) (fetchedUrls evs) /\
    (1 <= length (fetchedUrls evs) <= 3)%nat /\
    feedUrl TripsFeed <> feedUrl AlertsFeed.
Proof.
  destruct (fetchFeed_urls (feedUrl kind) (feedType kind) a)
    as (k & evs & Hk & Ha1 & Hurls).
  exists evs. rewrite Hurls, length_replicate.
  split; [|split; [by apply Forall_replicate|split; [lia|done]]].
  destruct (fetchFeed (feedUrl kind) (feedType kind) a) as [[feed|e] a1] eqn:Hf;
    cbn [snd] in Ha1; subst a1;
    destruct kind; unfold refresh; cbn [feedUrl feedType] in Hf.
  - rewrite (updateTrips_succeeded _ _ _ Hf).
    destruct a as [sds mon [fs ck tk nt sn tr]]. cbn. by rewrite app_nil_r.
  - rewrite (updateAlerts_succeeded _ _ _ Hf).
    destruct a as [sds mon [fs ck tk nt sn tr]]. cbn. by rewrite app_nil_r.
  - by rewrite (updateTrips_failed _ _ _ Hf).
  - by rewrite (updateAlerts_failed _ _ _ Hf).
Qed.

(** What one refresh adds to the counters of a feed, and to the number
    of requests made. *)
Lemma refresh_counts (kind counted : FeedKind) (a : App) :
  successCount counted (gtfsMonitor (refresh kind a).2)
  + errorCount counted (gtfsMonitor (refresh kind a).2)
  = successCount counted (gtfsMonitor a) + errorCount counted (gtfsMonitor a)
    + (if decide (kind = counted) then 1 else 0) /\
  (1 + sent (world a) <= sent (world (refresh kind a).2) <= 3 + sent (world a))%nat.
Proof.
  destruct (refresh_run kind a)
    as (k & evs & Hk & [(feed & _ & ->)|(e & _ & ->)]);
    destruct a as [sds mon [fs ck tk nt sn tr]]; destruct kind, counted;
    (destruct (decide _) as [?|?]; try done); cbn; (split; lia).
Qed.

(** X11: over any sequence of refreshes, the two counters of a feed
    together grow by the number of refreshes of that feed: a refresh
    counts once, however many attempts it took.  The number of requests
    made lies between the number of refreshes and three times that
    number. *)
Theorem refreshes_counted (kinds : list FeedKind) (kind : FeedKind) (a : App) :
  successCount kind (gtfsMonitor (refreshes kinds a).2)
  + errorCount kind (gtfsMonitor (refreshes kinds a).2)
  = successCount kind (gtfsMonitor a) + errorCount kind (gtfsMonitor a)
    + Z.of_nat (length (filter (fun k => k = kind) kinds)) /\
  (length kinds + sent (world a) <= sent (world (refreshes kinds a).2)
   <= 3 * length kinds + sent (world a))%nat.
Proof.
  revert a. induction kinds as [|k kinds IH]; intros a.
  - cbn. split; lia.
  - rewrite refreshes_cons, filter_cons.
    destruct (IH (refresh k a).2) as [Hc Hs].
    destruct (refresh_counts k kind a) as [Hc1 Hs1].
    rewrite Hc, Hc1. destruct (decide (k = kind)); cbn [length]; split; lia.
Qed.

(** X12: starting from a freshly constructed monitor, after any sequence
    of refreshes every snapshot held comes with the time it was taken.
    So when [getStopInfo] finds a trip-updates snapshot, [lastUpdated] is
    that time: the fallbacks of [getStopInfo] for a snapshot without a
    time (age measured from the epoch, [lastUpdated] set to the time of
    the request) are never taken. *)
Theorem snapshot_always_timestamped (kinds : list FeedKind) (a : App) :
  gtfsMonitor a = Monitor.constructor ->
  timestamped (gtfsMonitor (refreshes kinds a).2) /\
  forall stopId direction info a' feed,
    tripsFeed (gtfsMonitor (refreshes kinds a).2) = Some feed ->
    Transit.getStopInfo stopId direction (refreshes kinds a).2 = (Ok info, a') ->
    exists ts, lastTripsUpdate (gtfsMonitor (refreshes kinds a).2) = Some ts /\
               lastUpdated info = Js.Iso ts.
Proof.
  intros Hfresh.
  assert (timestamped (gtfsMonitor (refreshes kinds a).2)) as Hts.
  { assert (timestamped (gtfsMonitor a)) as Ha
      by (rewrite Hfresh; apply constructor_timestamped).
    clear Hfresh. revert a Ha. induction kinds as [|k kinds IH]; intros a Ha; [done|].
    rewrite refreshes_cons. apply IH. by apply refresh_timestamped. }
  split; [done|]. intros stopId direction info a' feed Hfeed Hrun.
  destruct (Hts TripsFeed) as [ts Hlast]; [by eexists|]. cbn in Hlast.
  exists ts. split; [done|].
  apply getStopInfo_Ok_inv in Hrun as (stop & pushed & w1 & w2 & _ & _ & _ & _ & H).
  rewrite Hfeed, Hlast in H. by destruct H as (_ & _ & ->).
Qed.

Lemma snapshot_always_timestamped_witness :
  gtfsMonitor Fixture.polling = Monitor.constructor /\
  tripsFeed (gtfsMonitor (refreshes [TripsFeed] Fixture.polling).2)
  = Some Fixture.feed90 /\
  lastUpdated (replyOf (Transit.getStopInfo "M20-2" None
                          (refreshes [TripsFeed] Fixture.polling).2))
  = Js.Iso 5000.
Proof.
  assert (Hf : tripsFeed (gtfsMonitor (refreshes [TripsFeed] Fixture.polling).2)
               = Some Fixture.feed90) by (vm_compute; reflexivity).
  split; [reflexivity|]. split; [exact Hf|].
  destruct (snapshot_always_timestamped [TripsFeed] Fixture.polling eq_refl)
    as [_ H].
  destruct (H "M20-2" None
              (replyOf (Transit.getStopInfo "M20-2" None
                          (refreshes [TripsFeed] Fixture.polling).2))
              (Transit.getStopInfo "M20-2" None
                 (refreshes [TripsFeed] Fixture.polling).2).2
              Fixture.feed90 Hf)
    as (ts & Hts & Hlu); [vm_compute; reflexivity|].
  rewrite Hlu. f_equal.
  assert (lastTripsUpdate (gtfsMonitor (refreshes [TripsFeed] Fixture.polling).2)
          = Some 5000) as Hc by (vm_compute; reflexivity).
  rewrite Hc in Hts. by injection Hts.
Defined.

End PollingFacts.


(** ** TransitService: what a reply holds, and when there is none *)

Section ReplyFacts.

Import Transit.

(** *** Loops as lists *)

(** A loop that throws, throws at one of its elements. *)
Lemma forEach_Throw_elem {S A} (f : A -> M S unit) (l : list A) s e s' :
  forEach f l s = (Throw e, s') ->
  exists x s1, x ∈ l /\ f x s1 = (Throw e, s').
Proof.
  revert s. induction l as [|x l IH]; intros s Hrun; [done|].
  cbn [forEach] in Hrun. unfold mbind, M_bind, bind in Hrun.
  destruct (f x s) as [[[]|e'] s1] eqn:Hx.
  - destruct (IH _ Hrun) as (y & t & Hy & Ht). exists y, t. split; [by right|done].
  - injection Hrun as <- <-. exists x, s. split; [by left|done].
Qed.

Lemma stopTimeUpdates_pushed now stopId tripId trip dir route vehicle updates l l' :
  forEach (processStopTimeUpdate now stopId tripId trip dir route vehicle) updates l
  = (Ok tt, l') ->
  exists ps, l' = l ++ ps /\
    Forall2 (fun u p => emitted now tripId trip route u p)
            (filter (fun u => upcomingAt now stopId u = true) updates) ps.
Proof.
  revert l. induction updates as [|u updates IH]; intros l Hrun.
  - injection Hrun as <-. exists []. by rewrite app_nil_r.
  - cbn [forEach] in Hrun. unfold mbind, M_bind, bind in Hrun.
    pose proof (processStopTimeUpdate_run now stopId tripId trip dir route vehicle u l)
      as Hu. cbv zeta in Hu.
    destruct (processStopTimeUpdate _ _ _ _ _ _ _ u l) as [[[]|e] l1]; [|done].
    destruct (IH _ Hrun) as (ps & -> & Hps).
    rewrite filter_cons. destruct (upcomingAt now stopId u).
    + destruct Hu as [(p & [= ->] & Hp)|(e & [=])].
      exists (p :: ps). rewrite <- app_assoc. split; [done|].
      rewrite decide_True by done. by constructor.
    + injection Hu as ->. exists ps. split; [done|].
      by rewrite decide_False by done.
Qed.

Lemma entities_pushed sds now stopId es l l' :
  forEach (processEntity sds now stopId) es l = (Ok tt, l') ->
  exists ps, l' = l ++ ps /\
    Forall2 (predicts sds now) (es ≫= candidates sds now stopId) ps.
Proof.
  revert l. induction es as [|e es IH]; intros l Hrun.
  - injection Hrun as <-. exists []. by rewrite app_nil_r.
  - cbn [forEach] in Hrun. unfold mbind, M_bind, bind in Hrun.
    destruct (processEntity sds now stopId e l) as [[[]|err] l1] eqn:He; [|done].
    destruct (IH _ Hrun) as (ps & -> & Hps).
    assert (exists qs, l1 = l ++ qs /\
              Forall2 (predicts sds now) (candidates sds now stopId e) qs)
      as (qs & -> & Hqs).
    { rewrite processEntity_run in He. unfold candidates.
      destruct (FeedEntity.tripUpdate e) as [tu|];
        [|injection He as <-; exists []; by rewrite app_nil_r].
      destruct (TripUpdate.trip tu ≫= TripDescriptor.tripId) as [tripId|];
        [|injection He as <-; exists []; by rewrite app_nil_r].
      destruct (String.eqb_spec tripId "") as [Heq|Hne].
      { injection He as <-. exists []. rewrite app_nil_r. split; [done|].
        destruct (StaticData.getTrip tripId sds); [|done].
        destruct (TripUpdate.stopTimeUpdate tu); [|done].
        by rewrite decide_True. }
      destruct (StaticData.getTrip tripId sds) as [trip|];
        [|injection He as <-; exists []; by rewrite app_nil_r].
      destruct (TripUpdate.stopTimeUpdate tu) as [updates|];
        [|injection He as <-; exists []; by rewrite app_nil_r].
      rewrite decide_False by done.
      apply stopTimeUpdates_pushed in He as (qs & -> & Hqs).
      exists qs. split; [done|]. by apply Forall2_fmap_l. }
    exists (qs ++ ps). rewrite <- app_assoc. split; [done|].
    cbn. by apply Forall2_app.
Qed.

(** X13: the predictions [_processTrips] pushes are, in the order of the
    feed, one for each stop time update that is for the requested stop,
    carries a time after now and belongs to an entity whose trip
    identifier is non-empty and resolves: nothing is merged and nothing
    else is dropped.  [upcomingTrips] is that list sorted and filtered;
    without a direction it is a permutation of it, with as many entries
    as there are such updates. *)
Theorem one_prediction_per_update (stopId : string) (direction : option string)
    (a a' : App) (info : StopInfo) (feed : FeedMessage) :
  getStopInfo stopId direction a = (Ok info, a') ->
  tripsFeed (gtfsMonitor a) = Some feed ->
  exists pushed,
    Forall2 (predicts (staticDataService a) (reading a 2 / 1000))
            (qualifying (staticDataService a) (reading a 2 / 1000) stopId feed)
            pushed /\
    upcomingTrips info = _sortAndFilterTrips pushed direction /\
    (direction = None ->
       upcomingTrips info ≡ₚ pushed /\
       length (upcomingTrips info)
       = length (qualifying (staticDataService a) (reading a 2 / 1000) stopId feed)).
Proof.
  intros Hrun Hfeed.
  apply getStopInfo_Ok_inv in Hrun as (stop & pushed & w1 & w2 & _ & Hup & _ & _ & H).
  rewrite Hfeed in H. destruct H as (Hpushed & _).
  apply entities_pushed in Hpushed as (ps & Hps & Hall). cbn in Hps. subst ps.
  exists pushed. split; [done|]. split; [done|].
  intros ->. rewrite Hup. unfold _sortAndFilterTrips.
  split; [apply sort_Permutation|].
  rewrite sort_Permutation. symmetry. by eapply Forall2_length.
Qed.

Lemma one_prediction_per_update_witness :
  getStopInfo "M20-2" None Sample.twoTrains
    = (Ok (replyOf (getStopInfo "M20-2" None Sample.twoTrains)),
       (getStopInfo "M20-2" None Sample.twoTrains).2) /\
  length (qualifying Sample.index 1700000000 "M20-2"
            (MkFeed [Sample.arrivalIn600s; Sample.arrivalIn90s])) = 2%nat /\
  length (upcomingTrips (replyOf (getStopInfo "M20-2" None Sample.twoTrains))) = 2%nat.
Proof.
  assert (H : getStopInfo "M20-2" None Sample.twoTrains
              = (Ok (replyOf (getStopInfo "M20-2" None Sample.twoTrains)),
                 (getStopInfo "M20-2" None Sample.twoTrains).2))
    by (vm_compute; reflexivity).
  split; [exact H|]. split; [vm_compute; reflexivity|].
  destruct (one_prediction_per_update _ _ _ _ _
              (MkFeed [Sample.arrivalIn600s; Sample.arrivalIn90s]) H eq_refl)
    as (pushed & _ & _ & Hlen).
  destruct (Hlen eq_refl) as [_ Hl].
  etransitivity; [exact Hl|]. vm_compute. reflexivity.
Defined.

(** *** Where an exception comes from *)

Lemma toISOString_Throw (ms : Z) (e : Error) :
  Js.toISOString ms = Throw e ->
  e = invalidTime /\ ~ (- Js.maxTime <= ms <= Js.maxTime).
Proof.
  unfold Js.toISOString.
  destruct (Z.leb_spec (- Js.maxTime) ms); destruct (Z.leb_spec ms Js.maxTime);
    cbn; intros [=]; subst; split; try done; lia.
Qed.

Lemma processStopTimeUpdate_Throw now stopId tripId trip dir route vehicle u l e l' :
  processStopTimeUpdate now stopId tripId trip dir route vehicle u l = (Throw e, l') ->
  e = invalidTime.
Proof.
  unfold processStopTimeUpdate.
  destruct (String.eqb _ stopId); [|done].
  destruct (_ || _); [|done].
  destruct (Js.or_int64 _ _) as [t|]; [|done].
  destruct (_ && _); [|done].
  unfold mbind, M_bind, bind, lift, push, modify.
  destruct (Js.toISOString _) as [s1|e1] eqn:H1.
  - destruct (Js.toISOString _) as [s2|e2] eqn:H2 in |- *; [done|].
    intros [= <- <-]. by apply toISOString_Throw in H2 as [-> _].
  - intros [= <- <-]. by apply toISOString_Throw in H1 as [-> _].
Qed.

Lemma processEntity_Throw sds now stopId entity l e l' :
  processEntity sds now stopId entity l = (Throw e, l') -> e = invalidTime.
Proof.
  rewrite processEntity_run.
  destruct (FeedEntity.tripUpdate entity) as [tu|]; [|done].
  destruct (TripUpdate.trip tu ≫= TripDescriptor.tripId) as [tripId|]; [|done].
  destruct (String.eqb tripId ""); [done|].
  destruct (StaticData.getTrip tripId sds) as [trip|]; [|done].
  destruct (TripUpdate.stopTimeUpdate tu) as [updates|]; [|done].
  intros (u & l1 & _ & Hu)%forEach_Throw_elem.
  by eapply processStopTimeUpdate_Throw.
Qed.

Lemma periodBound_Throw (b : option Js.int64) (e : Error) :
  periodBound b = Throw e -> e = invalidTime.
Proof.
  unfold periodBound. destruct b as [v|]; [|done].
  destruct (Js.truthy_int64 _); [|done].
  destruct (Js.toISOString _) as [s|e'] eqn:H; [done|].
  intros [= <-]. by apply toISOString_Throw in H as [-> _].
Qed.

Lemma periodBound_Ok (b : option Js.int64) (r : option Js.IsoString) :
  periodBound b = Ok r -> r = boundView b.
Proof.
  unfold periodBound, boundView. destruct b as [[v|v]|]; [| |by intros [= <-]];
    cbn; [destruct (v =? 0); [by intros [= <-]|]; cbn|];
    unfold Js.toISOString; (destruct (_ && _); [|done]); by intros [= <-].
Qed.

Lemma mapPeriod_run (ap : TimeRange.t) l r l' :
  mapPeriod ap l = (r, l') ->
  (r = Ok tt /\
   l' = l ++ [(boundView (TimeRange.start ap), boundView (TimeRange.end_ ap))])
  \/ (r = Throw invalidTime /\ l' = l).
Proof.
  unfold mapPeriod, mbind, M_bind, bind, lift, push, modify.
  destruct (periodBound (TimeRange.start ap)) as [s|es] eqn:Hs.
  - destruct (periodBound (TimeRange.end_ ap)) as [e|ee] eqn:He.
    + intros [= <- <-]. left.
      by rewrite (periodBound_Ok _ _ Hs), (periodBound_Ok _ _ He).
    + intros [= <- <-]. right. by rewrite (periodBound_Throw _ _ He).
  - intros [= <- <-]. right. by rewrite (periodBound_Throw _ _ Hs).
Qed.

Lemma periods_mapped (aps : list TimeRange.t) l r l' :
  forEach mapPeriod aps l = (r, l') ->
  (r = Ok tt /\
   l' = l ++ ((fun ap => (boundView (TimeRange.start ap),
                          boundView (TimeRange.end_ ap))) <$> aps))
  \/ r = Throw invalidTime.
Proof.
  revert l. induction aps as [|ap aps IH]; intros l Hrun.
  - injection Hrun as <- <-. left. by rewrite app_nil_r.
  - cbn [forEach] in Hrun. unfold mbind, M_bind, bind in Hrun.
    destruct (mapPeriod ap l) as [r1 l1] eqn:Hap.
    apply mapPeriod_run in Hap as [[Hr1 Hl1]|[Hr1 Hl1]]; subst r1 l1.
    + apply IH in Hrun as [[Hr Hl]|Hr]; subst; [left|by right].
      split; [done|]. by rewrite <- app_assoc.
    + injection Hrun as <- <-. by right.
Qed.

Lemma existsb_eqb_elem (stopId : string) (ies : list string) :
  existsb (fun ie => String.eqb ie stopId) ies = true <-> stopId ∈ ies.
Proof.
  rewrite existsb_exists. split.
  - intros (ie & Hin & Heq). apply String.eqb_eq in Heq as ->.
    by apply list_elem_of_In.
  - intros Hin. exists stopId. split; [by apply list_elem_of_In|].
    apply String.eqb_refl.
Qed.

Lemma processAlertEntity_run stopId e l r l' :
  processAlertEntity stopId e l = (r, l') ->
  (r = Ok tt /\
   exists vs, l' = l ++ vs /\
     Forall2 shows (filter (affectsStop stopId) (omap FeedEntity.alert [e])) vs)
  \/ r = Throw invalidTime.
Proof.
  unfold processAlertEntity. cbn [omap list_omap].
  destruct (FeedEntity.alert e) as [al|]; cbn.
  2: { intros [= <- <-]. left. split; [done|]. exists [].
       by rewrite app_nil_r. }
  destruct (Alert.informedEntity al) as [ies|] eqn:Hies.
  2: { intros [= <- <-]. left. split; [done|]. exists []. rewrite app_nil_r.
       split; [done|]. rewrite decide_False; [done|].
       intros (ies & Hsome & _). congruence. }
  destruct (existsb _ ies) eqn:Hex.
  2: { intros [= <- <-]. left. split; [done|]. exists []. rewrite app_nil_r.
       split; [done|]. rewrite decide_False; [done|].
       intros (ies' & Hsome & Hin). rewrite Hies in Hsome. injection Hsome as <-.
       apply existsb_eqb_elem in Hin. congruence. }
  apply existsb_eqb_elem in Hex.
  rewrite decide_True by (by exists ies).
  unfold mbind, M_bind, bind, push, modify.
  destruct (Alert.activePeriod al) as [aps|] eqn:Haps.
  - rewrite collect_run.
    destruct (forEach mapPeriod aps []) as [rp ps] eqn:Hps.
    apply periods_mapped in Hps as [[Hr1 Hl1]|Hr1]; subst.
    + intros [= <- <-]. left. split; [done|]. eexists [_]. split; [done|].
      constructor; [|done]. unfold shows. cbn. by rewrite Haps.
    + intros [= <- <-]. by right.
  - intros [= <- <-]. left. split; [done|]. eexists [_]. split; [done|].
    constructor; [|done]. unfold shows. cbn. by rewrite Haps.
Qed.

Lemma alerts_shown stopId es l r l' :
  forEach (processAlertEntity stopId) es l = (r, l') ->
  (r = Ok tt /\
   exists vs, l' = l ++ vs /\
     Forall2 shows (filter (affectsStop stopId) (omap FeedEntity.alert es)) vs)
  \/ r = Throw invalidTime.
Proof.
  revert l. induction es as [|e es IH]; intros l Hrun.
  - injection Hrun as <- <-. left. split; [done|]. exists [].
    by rewrite app_nil_r.
  - cbn [forEach] in Hrun. unfold mbind, M_bind, bind in Hrun.
    destruct (processAlertEntity stopId e l) as [r1 l1] eqn:He.
    apply processAlertEntity_run in He as [(Hr1 & vs & Hl1 & Hvs)|Hr1]; subst.
    + apply IH in Hrun as [(Hr & ws & Hl & Hws)|Hr]; subst; [left|by right].
      split; [done|]. exists (vs ++ ws). rewrite <- app_assoc. split; [done|].
      change (e :: es) with ([e] ++ es). rewrite omap_app, filter_app.
      by apply Forall2_app.
    + injection Hrun as <- <-. by right.
Qed.

(** The last part of [getStopInfo], by what the monitor holds. *)
Lemma finish_cases stopId direction (a : App) (k : nat) (row : Stop.t)
    (pushed : list TripInfo.t) (w1 : list string) (lu : Js.IsoString) :
  exists reads,
    (finish stopId direction a k row pushed w1 lu).2 = ticked k (Read <$> reads) a /\
    ((finish stopId direction a k row pushed w1 lu).1 = Throw invalidTime
     \/ exists info,
          (finish stopId direction a k row pushed w1 lu).1 = Ok info /\
          stop info = Some (viewOf row) /\
          upcomingTrips info = _sortAndFilterTrips pushed direction /\
          lastUpdated info = lu /\
          match alertsFeed (gtfsMonitor a) with
          | Some feed =>
              warnings info = w1 /\
              Forall2 shows (filter (affectsStop stopId) (alertsOf feed))
                      (alerts info)
          | None =>
              alerts info = [] /\
              warnings info
              = w1 ++ (if Js.truthy_str (message <$> alertsError (gtfsMonitor a))
                       then ["Real-time alerts data unavailable"] else [])
          end).
Proof.
  unfold finish. destruct (alertsFeed (gtfsMonitor a)) as [feed|].
  - exists [ReadTrips; ReadStatus; ReadAlerts].
    destruct (forEach _ (entity feed) []) as [r views] eqn:Hrun.
    apply alerts_shown in Hrun as [(Hr & vs & Hl & Hvs)|Hr]; subst.
    + split; [done|]. right. eexists. split; [done|]. cbn.
      rewrite app_nil_r. by repeat split.
    + split; [done|]. by left.
  - exists [ReadTrips; ReadStatus; ReadAlerts; ReadStatus].
    split; [done|]. right. eexists. split; [done|]. by repeat split.
Qed.

(** The exceptions of [getStopInfo]: an unknown stop, or a time of a
    feed that is no valid date. *)
Lemma getStopInfo_Throw stopId direction (a a' : App) (e : Error) :
  getStopInfo stopId direction a = (Throw e, a') ->
  (StaticData.getStop stopId (staticDataService a) = None /\ e = notFound stopId)
  \/ (is_Some (StaticData.getStop stopId (staticDataService a)) /\ e = invalidTime).
Proof.
  rewrite getStopInfo_run.
  destruct (StaticData.getStop stopId _) as [stop|]; [|intros [= <- _]; by left].
  intros Hrun. right. split; [by eexists|].
  destruct (tripsFeed (gtfsMonitor a)) as [feed|].
  - cbv zeta in Hrun.
    destruct (forEach _ (entity feed) []) as [[[]|e1] pushed] eqn:Hloop.
    + match type of Hrun with
      | finish ?s ?d ?a ?k ?st ?p ?w ?lu = _ =>
          destruct (finish_cases s d a k st p w lu) as (reads & _ & [H|(info & H & _)])
      end; rewrite Hrun in H; cbn in H; by simplify_eq.
    + injection Hrun as <- _.
      apply forEach_Throw_elem in Hloop as (x & l1 & _ & Hx).
      by eapply processEntity_Throw.
  - match type of Hrun with
    | finish ?s ?d ?a ?k ?st ?p ?w ?lu = _ =>
        destruct (finish_cases s d a k st p w lu) as (reads & _ & [H|(info & H & _)])
    end; rewrite Hrun in H; cbn in H; by simplify_eq.
Qed.

(** X14: [getStopInfo] only reads.  Whatever its arguments and its
    outcome, the static index, the monitor and the files are as before
    and no request is made; the clock is read between one and three
    times, and the trace grows by reads of the monitor only. *)
Theorem getStopInfo_read_only (stopId : string) (direction : option string)
    (a : App) :
  staticDataService (getStopInfo stopId direction a).2 = staticDataService a /\
  gtfsMonitor (getStopInfo stopId direction a).2 = gtfsMonitor a /\
  files (world (getStopInfo stopId direction a).2) = files (world a) /\
  sent (world (getStopInfo stopId direction a).2) = sent (world a) /\
  (ticks (world a) < ticks (world (getStopInfo stopId direction a).2)
   <= ticks (world a) + 3)%nat /\
  exists reads,
    trace (world (getStopInfo stopId direction a).2)
    = trace (world a) ++ (Read <$> reads).
Proof.
  assert (exists (k : nat) reads,
            (1 <= k <= 3)%nat /\
            (getStopInfo stopId direction a).2 = ticked k (Read <$> reads) a)
    as (k & reads & Hk & ->).
  { rewrite getStopInfo_run.
    destruct (StaticData.getStop stopId _) as [stop|];
      [|exists 1%nat, []; split; [lia|done]].
    destruct (tripsFeed (gtfsMonitor a)) as [feed|].
    - cbv zeta.
      destruct (forEach _ (entity feed) []) as [[[]|e1] pushed].
      + match goal with
        | |- context [finish ?s ?d ?a ?k ?st ?p ?w ?lu] =>
            destruct (finish_cases s d a k st p w lu) as (reads & -> & _)
        end.
        exists 3%nat, reads. split; [lia|done].
      + exists 3%nat, [ReadTrips; ReadStatus]. split; [lia|done].
    - match goal with
      | |- context [finish ?s ?d ?a ?k ?st ?p ?w ?lu] =>
          destruct (finish_cases s d a k st p w lu) as (reads & -> & _)
      end.
      exists 1%nat, reads. split; [lia|done]. }
  destruct a as [sds mon [fs ck tk nt sn tr]]. cbn.
  repeat split; try done; try lia. by exists reads.
Qed.

(** X15: the alerts of a reply are, in the order of the feed, one view for
    each alert of the alerts snapshot that names the requested stop in an
    informed entity, and no other.  The header of a view is the first
    translation of the header text, "Alert" if there is none or it is
    empty; the description likewise, with "" as default; the url is
    absent if there is none; each active period shows its bounds as
    instants.  A bound that is a [Long] object is shown whatever its
    value, so the 0 the decoder puts for a bound the feed leaves out is
    shown as 1970-01-01T00:00:00.000Z; only a plain number 0, or a member
    that is not there, is shown as null.  Without an alerts snapshot
    there are no alerts. *)
Theorem alerts_for_stop (stopId : string) (direction : option string)
    (a a' : App) (info : StopInfo) :
  getStopInfo stopId direction a = (Ok info, a') ->
  match alertsFeed (gtfsMonitor a) with
  | Some feed =>
      Forall2 shows (filter (affectsStop stopId) (alertsOf feed)) (alerts info)
  | None => alerts info = []
  end.
Proof.
  rewrite getStopInfo_run.
  destruct (StaticData.getStop stopId _) as [stop|]; [|done].
  assert (forall k pushed w1 lu,
            finish stopId direction a k stop pushed w1 lu = (Ok info, a') ->
            match alertsFeed (gtfsMonitor a) with
            | Some feed =>
                Forall2 shows (filter (affectsStop stopId) (alertsOf feed))
                        (alerts info)
            | None => alerts info = []
            end) as Hfin.
  { intros k pushed w1 lu Hrun.
    destruct (finish_cases stopId direction a k stop pushed w1 lu)
      as (reads & _ & [H|(info' & H & _ & _ & _ & Hal)]);
      rewrite Hrun in H; cbn in H; simplify_eq.
    destruct (alertsFeed (gtfsMonitor a)); by destruct Hal. }
  destruct (tripsFeed (gtfsMonitor a)) as [feed|]; [|apply Hfin].
  cbv zeta. destruct (forEach _ (entity feed) []) as [[[]|e1] pushed]; [|done].
  apply Hfin.
Qed.

Lemma alerts_for_stop_witness :
  getStopInfo "M20-2" None Fixture.alerted
    = (Ok (replyOf (getStopInfo "M20-2" None Fixture.alerted)),
       (getStopInfo "M20-2" None Fixture.alerted).2) /\
  filter (affectsStop "M20-2") (alertsOf Fixture.alertsFeed) = [Fixture.elevator] /\
  Forall2 shows [Fixture.elevator]
          (alerts (replyOf (getStopInfo "M20-2" None Fixture.alerted))) /\
  alerts (replyOf (getStopInfo "M20-2" None Fixture.alerted))
  = [AlertView.Build "Elevator out of service" "" None
                     [(Some (Js.Iso 1700000000000), Some (Js.Iso 0))]].
Proof.
  assert (H : getStopInfo "M20-2" None Fixture.alerted
              = (Ok (replyOf (getStopInfo "M20-2" None Fixture.alerted)),
                 (getStopInfo "M20-2" None Fixture.alerted).2))
    by (vm_compute; reflexivity).
  split; [exact H|]. split; [vm_compute; reflexivity|].
  split; [|vm_compute; reflexivity].
  exact (alerts_for_stop _ _ _ _ _ H).
Defined.

Lemma sortAndFilter_nil direction : _sortAndFilterTrips [] direction = [].
Proof.
  unfold _sortAndFilterTrips.
  destruct direction as [d|]; [|done]. by destruct (Js.truthy_str _).
Qed.

(** *** An alert whose dates are invalid *)

Lemma periodBound_cause (b : option Js.int64) :
  (exists e, periodBound b = Throw e)
  <-> exists v, b = Some v /\ ~ timeValid (Js.Number v).
Proof.
  unfold periodBound, timeValid. split.
  - intros [e He]. destruct b as [v|]; [|done]. exists v. split; [done|].
    destruct (Js.truthy_int64 _); [|done].
    destruct (Js.toISOString _) as [s|e'] eqn:H; [done|].
    by apply toISOString_Throw in H as [_ H].
  - intros (v & -> & Hv). exists invalidTime.
    assert (Js.truthy_int64 (Some v) = true) as ->.
    { destruct v as [z|z]; [|done]. cbn in *.
      destruct (Z.eqb_spec z 0) as [->|]; [|done].
      exfalso. apply Hv. unfold Js.maxTime. lia. }
    destruct (Js.toISOString _) as [s|e'] eqn:H.
    + exfalso. apply Hv. unfold Js.toISOString in H.
      destruct (Z.leb_spec (- Js.maxTime) (Js.Number v * 1000));
        destruct (Z.leb_spec (Js.Number v * 1000) Js.maxTime); cbn in H;
        done || lia.
    + by apply toISOString_Throw in H as [-> _].
Qed.

Lemma mapPeriod_cause (ap : TimeRange.t) l :
  (exists e l', mapPeriod ap l = (Throw e, l'))
  <-> exists v, (TimeRange.start ap = Some v \/ TimeRange.end_ ap = Some v)
                /\ ~ timeValid (Js.Number v).
Proof.
  unfold mapPeriod, mbind, M_bind, bind, lift, push, modify.
  pose proof (periodBound_cause (TimeRange.start ap)) as Hs.
  pose proof (periodBound_cause (TimeRange.end_ ap)) as He.
  destruct (periodBound (TimeRange.start ap)) as [s|es].
  - destruct (periodBound (TimeRange.end_ ap)) as [e|ee].
    + split; [by intros (? & ? & [=])|].
      intros (v & [Hv|Hv] & Hbad).
      * destruct (proj2 Hs) as [? [=]]. by exists v.
      * destruct (proj2 He) as [? [=]]. by exists v.
    + split; [|by eexists _, _].
      intros _. destruct (proj1 He) as (v & Hv & Hbad); [by eexists|].
      exists v. split; [by right|done].
  - split; [|by eexists _, _].
    intros _. destruct (proj1 Hs) as (v & Hv & Hbad); [by eexists|].
    exists v. split; [by left|done].
Qed.

(** A loop throws exactly when one of its steps does, whatever the state
    the step starts from. *)
Lemma forEach_Throw_iff {S A} (f : A -> M S unit) (P : A -> Prop) (l : list A) s :
  (forall x t, (exists e t', f x t = (Throw e, t')) <-> P x) ->
  (exists e s', forEach f l s = (Throw e, s')) <-> exists x, x ∈ l /\ P x.
Proof.
  intros Hf. revert s. induction l as [|x l IH]; intros s.
  - split; [by intros (? & ? & [=])|]. by intros (x & ?%elem_of_nil & _).
  - cbn [forEach]. unfold mbind, M_bind, bind.
    destruct (f x s) as [[[]|e] s1] eqn:Hx.
    + rewrite IH. split.
      * intros (y & Hy & HP). exists y. split; [by right|done].
      * intros (y & [->|Hy]%elem_of_cons & HP); [|by exists y].
        apply (Hf x s) in HP as (e & t' & He). congruence.
    + split; [|by eexists _, _]. intros _. exists x. split; [by left|].
      apply (Hf x s). by eexists _, _.
Qed.

Lemma processAlertEntity_cause stopId (ent : FeedEntity.t) l :
  (exists e l', processAlertEntity stopId ent l = (Throw e, l'))
  <-> exists al, FeedEntity.alert ent = Some al /\ datedBadly stopId al.
Proof.
  unfold processAlertEntity, datedBadly.
  destruct (FeedEntity.alert ent) as [al|].
  2: { split; [by intros (? & ? & [=])|]. by intros (? & [=] & _). }
  destruct (Alert.informedEntity al) as [ies|] eqn:Hies.
  2: { split; [by intros (? & ? & [=])|].
       intros (? & [= <-] & (ies & Hsome & _) & _). congruence. }
  destruct (existsb _ ies) eqn:Hex.
  2: { split; [by intros (? & ? & [=])|].
       intros (? & [= <-] & (ies' & Hsome & Hin) & _).
       rewrite Hies in Hsome. injection Hsome as <-.
       apply existsb_eqb_elem in Hin. congruence. }
  apply existsb_eqb_elem in Hex.
  assert (affectsStop stopId al) as Haff by (by exists ies).
  unfold mbind, M_bind, bind, push, modify.
  destruct (Alert.activePeriod al) as [aps|] eqn:Haps.
  2: { split; [by intros (? & ? & [=])|].
       intros (? & [= <-] & _ & (? & ? & ? & Hp & _)). congruence. }
  rewrite collect_run.
  pose proof (forEach_Throw_iff mapPeriod
                (fun ap => exists v,
                   (TimeRange.start ap = Some v \/ TimeRange.end_ ap = Some v)
                   /\ ~ timeValid (Js.Number v))
                aps [] (fun ap t => mapPeriod_cause ap t)) as Hloop.
  destruct (forEach mapPeriod aps []) as [[[]|e] ps].
  - split; [by intros (? & ? & [=])|].
    intros (? & [= <-] & _ & (periods & ap & v & Hp & Hap & Hv & Hbad)).
    rewrite Haps in Hp. injection Hp as <-.
    destruct (proj2 Hloop) as (? & ? & [=]). exists ap. split; [done|by exists v].
  - split; [|by eexists _, _]. intros _.
    destruct (proj1 Hloop) as (ap & Hap & v & Hv & Hbad); [by eexists _, _|].
    exists al. split; [done|]. split; [done|]. by exists aps, ap, v.
Qed.

(** The last part of [getStopInfo] throws exactly for such an alert. *)
Lemma finish_Throw stopId direction (a : App) (k : nat) (row : Stop.t)
    (pushed : list TripInfo.t) (w1 : list string) (lu : Js.IsoString) :
  (finish stopId direction a k row pushed w1 lu).1 = Throw invalidTime
  <-> exists feed, alertsFeed (gtfsMonitor a) = Some feed
                   /\ alertTimeInvalid stopId feed.
Proof.
  unfold finish, alertTimeInvalid, alertsOf.
  destruct (alertsFeed (gtfsMonitor a)) as [feed|].
  2: { split; [done|]. by intros (? & [=] & _). }
  pose proof (forEach_Throw_iff (processAlertEntity stopId)
                (fun ent => exists al, FeedEntity.alert ent = Some al
                                       /\ datedBadly stopId al)
                (entity feed) [] (fun ent t => processAlertEntity_cause stopId ent t))
    as Hloop.
  destruct (forEach _ (entity feed) []) as [[[]|e] views] eqn:Hrun.
  - split; [done|].
    intros (? & [= <-] & al & Hal & Hbad).
    apply list_elem_of_omap in Hal as (ent & Hent & Hal).
    destruct (proj2 Hloop) as (? & ? & [=]). exists ent. split; [done|by exists al].
  - apply alerts_shown in Hrun as [(? & _)|Hr]; [done|]. injection Hr as ->.
    split; [|done]. intros _.
    destruct (proj1 Hloop) as (ent & Hent & al & Hal & Hbad); [by eexists _, _|].
    exists feed. split; [done|]. exists al. split; [|done].
    apply list_elem_of_omap. by exists ent.
Qed.

(** X16: for a known stop, while the monitor holds no trip-updates
    snapshot, [getStopInfo] throws "Invalid time value" exactly when an
    alert of the alerts snapshot names the stop and has an active period
    with a bound that is no valid date.  Otherwise it returns a reply
    without predictions whose [lastUpdated] is the time the call began.
    Its first warning is "Real-time trip data unavailable: <message>"
    when the last refresh of the trip updates failed with a non-empty
    message, and "Real-time trip data initializing..." otherwise; only
    the warning about the alerts can follow it. *)
Theorem reply_without_snapshot (stopId : string) (direction : option string)
    (a : App) (row : Stop.t) :
  StaticData.getStop stopId (staticDataService a) = Some row ->
  tripsFeed (gtfsMonitor a) = None ->
  ((getStopInfo stopId direction a).1 = Throw (MkError "Invalid time value")
   <-> exists feed, alertsFeed (gtfsMonitor a) = Some feed
                    /\ alertTimeInvalid stopId feed) /\
  ((getStopInfo stopId direction a).1 = Throw (MkError "Invalid time value")
   \/ exists info w2,
        (getStopInfo stopId direction a).1 = Ok info /\
        stop info = Some (viewOf row) /\
        upcomingTrips info = [] /\
        lastUpdated info = Js.Iso (reading a 0) /\
        warnings info
        = match tripsError (gtfsMonitor a) with
          | Some e => if String.eqb (message e) ""
                      then "Real-time trip data initializing..."
                      else "Real-time trip data unavailable: " +:+ message e
          | None => "Real-time trip data initializing..."
          end :: w2 /\
        (w2 = [] \/ w2 = ["Real-time alerts data unavailable"])).
Proof.
  intros Hstop Hnone. rewrite getStopInfo_run, Hstop, Hnone.
  split; [apply finish_Throw|].
  match goal with
  | |- context [finish ?s ?d ?a ?k ?st ?p ?w ?lu] =>
      destruct (finish_cases s d a k st p w lu)
        as (reads & _ & [H|(info' & H & Hs & Hu & Hl & Hal)])
  end; [by left|right].
  rewrite sortAndFilter_nil in Hu.
  assert (forall w, warnings info'
            = [match message <$> tripsError (gtfsMonitor a) with
               | Some err => if Js.truthy_str (Some err)
                             then "Real-time trip data unavailable: " +:+ err
                             else "Real-time trip data initializing..."
               | None => "Real-time trip data initializing..."
               end] ++ w ->
          warnings info'
          = match tripsError (gtfsMonitor a) with
            | Some e => if String.eqb (message e) ""
                        then "Real-time trip data initializing..."
                        else "Real-time trip data unavailable: " +:+ message e
            | None => "Real-time trip data initializing..."
            end :: w) as Hw.
  { intros w ->. destruct (tripsError (gtfsMonitor a)) as [e|]; [|done]. cbn.
    by destruct (String.eqb (message e) ""). }
  destruct (alertsFeed (gtfsMonitor a)) as [afeed|].
  - destruct Hal as [Hwarn _]. exists info', []. repeat split; try done; [|by left].
    apply Hw. by rewrite Hwarn.
  - destruct Hal as [_ Hwarn]. eexists info', _. repeat split; try done.
    + by apply Hw.
    + destruct (Js.truthy_str _); [by right|by left].
Qed.

Lemma reply_without_snapshot_witness :
  tripsFeed (gtfsMonitor Fixture.failing) = None /\
  (exists info,
     (getStopInfo "M20-2" (Some "eastbound") Fixture.failing).1 = Ok info /\
     upcomingTrips info = [] /\
     hd "" (warnings info)
     = "Real-time trip data unavailable: HTTP 503: Service Unavailable") /\
  alertTimeInvalid "M20-2" Fixture.misdatedFeed /\
  (getStopInfo "M20-2" (Some "eastbound") Fixture.misdated).1
  = Throw (MkError "Invalid time value").
Proof.
  split; [reflexivity|].
  destruct (reply_without_snapshot "M20-2" (Some "eastbound") Fixture.failing
              Sample.montgomery eq_refl eq_refl) as [Hiff Hcases].
  destruct (reply_without_snapshot "M20-2" (Some "eastbound") Fixture.misdated
              Sample.montgomery eq_refl eq_refl) as [Hiff' _].
  assert (Hbad : alertTimeInvalid "M20-2" Fixture.misdatedFeed).
  { exists Fixture.endless. split; [by apply list_elem_of_singleton|].
    split; [by exists ["M20-2"]; split; [|left]|].
    eexists _, _, (Js.LongObj 8640000000001).
    split; [reflexivity|]. split; [by left|]. split; [by right|].
    unfold timeValid, Js.maxTime. cbn. lia. }
  split; [|split; [exact Hbad|]].
  - destruct Hcases as [Hthrow|(info & w2 & Hrun & _ & Hup & _ & Hw & _)].
    + apply Hiff in Hthrow as (feed & [=] & _).
    + exists info. split; [exact Hrun|]. split; [exact Hup|].
      rewrite Hw. reflexivity.
  - apply Hiff'. by exists Fixture.misdatedFeed.
Defined.

Lemma processStopTimeUpdate_invalid now stopId tripId trip dir route vehicle u t l :
  upcomingAt now stopId u = true ->
  timeOf u = Some t ->
  Js.maxTime < Js.Number t * 1000 ->
  processStopTimeUpdate now stopId tripId trip dir route vehicle u l
  = (Throw invalidTime, l).
Proof.
  intros Hup Ht Hbig.
  pose proof (processStopTimeUpdate_run now stopId tripId trip dir route vehicle u l)
    as Hrun.
  cbv zeta in Hrun. rewrite Hup in Hrun.
  destruct Hrun as [(p & Hrun & Hp)|(e & Hrun)].
  - exfalso. revert Hrun. unfold processStopTimeUpdate.
    unfold upcomingAt in Hup. apply andb_true_iff in Hup as [Hid Hup].
    rewrite Ht in Hup. apply andb_true_iff in Hup as [Htr Hfut].
    unfold timeOf in Ht. rewrite Hid.
    destruct (_ || _);
      [|intros [= Hl]; apply (f_equal length) in Hl;
        rewrite length_app in Hl; cbn in Hl; lia].
    rewrite Ht, Htr, Hfut. cbn [andb].
    unfold mbind, M_bind, bind, lift, push, modify.
    destruct (Js.toISOString ((Js.Number t - _) * 1000)); [|done].
    unfold Js.toISOString.
    destruct (Z.leb_spec (Js.Number t * 1000) Js.maxTime); [lia|].
    by rewrite andb_false_r.
  - rewrite Hrun. by rewrite (processStopTimeUpdate_Throw _ _ _ _ _ _ _ _ _ _ _ Hrun).
Qed.

(** X17: one stop time update for the requested stop whose time lies
    after now and beyond the range of [Date] (more than 8.64e15 ms) makes
    [getStopInfo] throw "Invalid time value", the RangeError of
    [toISOString], whatever else the feed holds: no reply is returned for
    the other predictions. *)
Theorem invalid_time_throws (stopId : string) (direction : option string)
    (a : App) (stop : Stop.t) (feed : FeedMessage) (tripId : string)
    (trip : Trip.t) (u : StopTimeUpdate.t) (t : Js.int64) :
  StaticData.getStop stopId (staticDataService a) = Some stop ->
  tripsFeed (gtfsMonitor a) = Some feed ->
  updateOf (staticDataService a) feed tripId trip u ->
  upcomingAt (reading a 2 / 1000) stopId u = true ->
  timeOf u = Some t ->
  Js.maxTime < Js.Number t * 1000 ->
  (getStopInfo stopId direction a).1 = Throw (MkError "Invalid time value").
Proof.
  intros Hstop Hfeed (e & tu & updates & He & Htu & Hid & Hne & Htrip & Hups & Hu)
    Hup Ht Hbig.
  rewrite getStopInfo_run, Hstop, Hfeed. cbv zeta.
  destruct (forEach _ (entity feed) []) as [[[]|err] pushed] eqn:Hloop.
  - exfalso.
    destruct (forEach_Ok_elem prefix _ _
                (processEntity_prefix (staticDataService a) (reading a 2 / 1000) stopId)
                _ _ _ Hloop He) as (l1 & l2 & _ & Hstep & _).
    rewrite processEntity_run, Htu, Hid, Htrip, Hups in Hstep.
    destruct (String.eqb_spec tripId ""); [done|].
    match type of Hstep with
    | forEach (processStopTimeUpdate _ _ _ _ ?dir ?route ?vehicle) _ _ = _ =>
        destruct (forEach_Ok_elem prefix _ _
                    (processStopTimeUpdate_prefix (reading a 2 / 1000) stopId
                       tripId trip dir route vehicle)
                    _ _ _ Hstep Hu) as (m1 & m2 & _ & Hone & _)
    end.
    by rewrite (processStopTimeUpdate_invalid _ _ _ _ _ _ _ _ t) in Hone.
  - cbn. f_equal.
    apply forEach_Throw_elem in Hloop as (x & l1 & _ & Hx).
    by apply processEntity_Throw in Hx.
Qed.

Lemma invalid_time_throws_witness :
  Js.maxTime < 8640000000001 * 1000 /\
  (getStopInfo "M20-2" None Fixture.corrupt).1
  = Throw (MkError "Invalid time value").
Proof.
  split; [reflexivity|].
  apply (invalid_time_throws "M20-2" None Fixture.corrupt Sample.montgomery
           Fixture.corruptFeed "1508086" Sample.trip1 Fixture.farFuture
           (Js.Num 8640000000001)).
  - reflexivity.
  - reflexivity.
  - eexists _, _, [Fixture.farFuture].
    split; [right; by left|].
    repeat split; try reflexivity; try done. by left.
  - vm_compute; reflexivity.
  - reflexivity.
  - reflexivity.
Defined.

(** X18: in a reply, the warning "Real-time alerts data unavailable" is
    present exactly when the monitor holds no alerts snapshot and the last
    refresh of the alerts failed with a non-empty message. *)
Theorem alerts_warning (stopId : string) (direction : option string)
    (a a' : App) (info : StopInfo) :
  getStopInfo stopId direction a = (Ok info, a') ->
  "Real-time alerts data unavailable" ∈ warnings info
  <-> alertsFeed (gtfsMonitor a) = None
      /\ exists e, alertsError (gtfsMonitor a) = Some e /\ message e <> "".
Proof.
  rewrite getStopInfo_run.
  destruct (StaticData.getStop stopId _) as [stop|]; [|done].
  assert (forall k pushed w1 lu,
            "Real-time alerts data unavailable" ∉ w1 ->
            finish stopId direction a k stop pushed w1 lu = (Ok info, a') ->
            "Real-time alerts data unavailable" ∈ warnings info
            <-> alertsFeed (gtfsMonitor a) = None
                /\ exists e, alertsError (gtfsMonitor a) = Some e /\ message e <> "")
    as Hfin.
  { intros k pushed w1 lu Hw1 Hrun.
    destruct (finish_cases stopId direction a k stop pushed w1 lu)
      as (reads & _ & [H|(info' & H & _ & _ & _ & Hal)]);
      rewrite Hrun in H; cbn in H; simplify_eq.
    destruct (alertsFeed (gtfsMonitor a)) as [afeed|].
    - destruct Hal as [-> _]. split; [done|]. by intros [[=] _].
    - destruct Hal as [_ ->]. rewrite elem_of_app.
      destruct (alertsError (gtfsMonitor a)) as [[msg]|]; cbn.
      + destruct (String.eqb_spec msg "") as [->|Hmsg]; cbn.
        * split; [intros [?|?%elem_of_nil]; done|].
          intros [_ (e & [= <-] & Hne)]. done.
        * split; [|intros _; right; by left].
          intros _. split; [done|]. by eexists.
      + split; [intros [?|?%elem_of_nil]; done|].
        by intros [_ (e & [=] & _)]. }
  destruct (tripsFeed (gtfsMonitor a)) as [feed|].
  - cbv zeta. destruct (forEach _ (entity feed) []) as [[[]|e1] pushed]; [|done].
    apply Hfin. destruct (_ <? _); [|by intros ?%elem_of_nil].
    intros Hin%list_elem_of_singleton. unfold staleWarning in Hin.
    cbn in Hin. discriminate.
  - apply Hfin. intros Hin%list_elem_of_singleton.
    destruct (message <$> tripsError (gtfsMonitor a)) as [err|];
      [destruct (Js.truthy_str _)|]; cbn in Hin; discriminate.
Qed.

Lemma alerts_warning_witness :
  alertsFeed (gtfsMonitor Sample.arriving) = None /\
  alertsError (gtfsMonitor Sample.arriving) = None /\
  "Real-time alerts data unavailable"
    ∉ warnings (replyOf (getStopInfo "M20-2" None Sample.arriving)).
Proof.
  split; [reflexivity|]. split; [reflexivity|].
  assert (H : getStopInfo "M20-2" None Sample.arriving
              = (Ok (replyOf (getStopInfo "M20-2" None Sample.arriving)),
                 (getStopInfo "M20-2" None Sample.arriving).2))
    by (vm_compute; reflexivity).
  intros Hin. apply (alerts_warning _ _ _ _ _ H) in Hin as [_ (e & He & _)].
  discriminate He.
Defined.

(** *** The direction and the vehicle label of a prediction *)

Lemma processStopTimeUpdate_labels now stopId tripId trip dir route vehicle u l r l' :
  processStopTimeUpdate now stopId tripId trip dir route vehicle u l = (r, l') ->
  forall p, p ∈ l' ->
    p ∈ l \/ (TripInfo.tripId p = tripId /\ TripInfo.direction p = dir
              /\ TripInfo.vehicleLabel p <> Some "").
Proof.
  unfold processStopTimeUpdate.
  destruct (String.eqb _ stopId); [|intros [= <- <-]; by left].
  destruct (_ || _); [|intros [= <- <-]; by left].
  destruct (Js.or_int64 _ _) as [t|]; [|intros [= <- <-]; by left].
  destruct (_ && _); [|intros [= <- <-]; by left].
  unfold mbind, M_bind, bind, lift, push, modify.
  destruct (Js.toISOString _) as [s1|e1]; [|intros [= <- <-]; by left].
  destruct (Js.toISOString _) as [s2|e2]; [|intros [= <- <-]; by left].
  intros [= <- <-] p [Hp|Hp%list_elem_of_singleton]%elem_of_app; [by left|].
  right. subst p. cbn. repeat split.
  destruct vehicle as [v|]; cbn; [|done].
  destruct (Vehicle.label v) as [lbl|]; cbn; [|done].
  destruct (String.eqb_spec lbl ""); cbn; congruence.
Qed.

(** X19: each prediction of a reply belongs to a trip of the static
    tables: its [tripId] resolves.  Its [direction] is "outbound" exactly
    when the [direction_id] of that trip is "0", and "inbound" otherwise,
    also when the column is missing.  Its [vehicleLabel] is never the
    empty string. *)
Theorem prediction_direction (stopId : string) (direction : option string)
    (a a' : App) (info : StopInfo) (p : TripInfo.t) :
  getStopInfo stopId direction a = (Ok info, a') ->
  p ∈ upcomingTrips info ->
  exists trip,
    StaticData.getTrip (TripInfo.tripId p) (staticDataService a) = Some trip /\
    (TripInfo.direction p = "outbound" <-> Trip.direction_id trip = Some "0") /\
    (TripInfo.direction p = "inbound" <-> Trip.direction_id trip <> Some "0") /\
    TripInfo.vehicleLabel p <> Some "".
Proof.
  intros Hrun Hp.
  apply getStopInfo_Ok_inv in Hrun as (stop & pushed & w1 & w2 & _ & Hup & _ & _ & H).
  rewrite Hup in Hp. apply sortAndFilter_subset in Hp.
  destruct (tripsFeed (gtfsMonitor a)) as [feed|].
  2: { destruct H as [-> _]. by apply elem_of_nil in Hp. }
  destruct H as (Hpushed & _).
  revert p Hp.
  set (Q := fun p : TripInfo.t =>
         exists trip,
           StaticData.getTrip (TripInfo.tripId p) (staticDataService a)
             = Some trip /\
           (TripInfo.direction p = "outbound"
            <-> Trip.direction_id trip = Some "0") /\
           (TripInfo.direction p = "inbound"
            <-> Trip.direction_id trip <> Some "0") /\
           TripInfo.vehicleLabel p <> Some "").
  eapply (forEach_invariant (fun l => forall p, p ∈ l -> Q p));
    [|exact Hpushed|by intros ? ?%elem_of_nil].
  clear Hpushed. intros e l r l' _ Hstep Hl.
  rewrite processEntity_run in Hstep.
  destruct (FeedEntity.tripUpdate e) as [tu|]; [|by injection Hstep as <- <-].
  destruct (TripUpdate.trip tu ≫= TripDescriptor.tripId) as [tripId|];
    [|by injection Hstep as <- <-].
  destruct (String.eqb tripId ""); [by injection Hstep as <- <-|].
  destruct (StaticData.getTrip tripId (staticDataService a)) as [trip|] eqn:Htrip;
    [|by injection Hstep as <- <-].
  destruct (TripUpdate.stopTimeUpdate tu) as [updates|];
    [|by injection Hstep as <- <-].
  eapply (forEach_invariant (fun l => forall p, p ∈ l -> Q p));
    [|exact Hstep|exact Hl].
  intros u m r1 m' _ Hu Hm p Hp.
  apply (processStopTimeUpdate_labels _ _ _ _ _ _ _ _ _ _ _ Hu) in Hp
    as [Hp|(Hid & Hdir & Hlbl)]; [by apply Hm|].
  exists trip. rewrite Hid, Hdir. split; [done|].
  destruct (decide (Trip.direction_id trip = Some "0")) as [Hd|Hd].
  - rewrite bool_decide_eq_true_2 by done. by repeat split.
  - rewrite bool_decide_eq_false_2 by done. by repeat split.
Qed.

Lemma prediction_direction_witness :
  Trip.direction_id Sample.trip1 = Some "0" /\
  Forall (fun p => TripInfo.direction p = "outbound")
    (upcomingTrips (replyOf (getStopInfo "M20-2" None Sample.twoTrains))).
Proof.
  split; [reflexivity|].
  assert (H : getStopInfo "M20-2" None Sample.twoTrains
              = (Ok (replyOf (getStopInfo "M20-2" None Sample.twoTrains)),
                 (getStopInfo "M20-2" None Sample.twoTrains).2))
    by (vm_compute; reflexivity).
  apply Forall_forall. intros p Hp.
  destruct (prediction_direction _ _ _ _ _ p H Hp) as (trip & Htrip & Hout & _).
  apply Hout.
  assert (TripInfo.tripId p = "1508086") as Hid.
  { revert Hp. vm_compute.
    intros Hp. repeat (apply elem_of_cons in Hp as [->|Hp]; [reflexivity|]).
    by apply elem_of_nil in Hp. }
  rewrite Hid in Htrip. vm_compute in Htrip. by injection Htrip as <-.
Defined.

End ReplyFacts.


(** ** The station handlers and the edges of [GET /next] *)

Section HandlerFacts.

Import Http.

Lemma station_run (query_direction : option string) (a : App) :
  station query_direction a =
  match Transit.getStopInfo config.station_id
          (Some (Js.or_str query_direction config.station_direction)) a with
  | (Ok info, a1) => (Ok (Send 200 (StopInfoJson info)), a1)
  | (Throw e, a1) =>
      (Ok (Send 500 (StationFailure (MkFailure (message e) (Js.Iso (reading a1 0))))),
       ticked 1 [] a1)
  end.
Proof.
  unfold station, try_catch. unfold mbind at 1. unfold M_bind, bind. cbv zeta.
  destruct (Transit.getStopInfo _ _ a) as [[info|e] a1]; [done|].
  destruct a1 as [sds mon [fs ck tk nt sn tr]].
  unfold_monad. unfold ticked, reading, with_world. cbn. by rewrite app_nil_r.
Qed.

Lemma notFound_includes (stopId : string) :
  Js.includes "not found" (message (Transit.notFound stopId)) = true.
Proof.
  apply includes_spec. exists ("Stop " +:+ stopId +:+ " "), "". cbn.
  by rewrite !append_assoc, append_nil_r.
Qed.

Lemma stationById_run (stopId : string) (query_direction : Js.loose) (a : App) :
  stationById stopId query_direction a =
  match Transit.getStopInfo_any stopId (Js.or_null query_direction) a with
  | (Ok info, a1) => (Ok (Send 200 (StopInfoJson info)), a1)
  | (Throw e, a1) =>
      (Ok (Send (if Js.includes "not found" (message e) then 404 else 500)
              (StationFailure (MkFailure (message e) (Js.Iso (reading a1 0))))),
       ticked 1 [] a1)
  end.
Proof.
  unfold stationById, try_catch. unfold mbind at 1. unfold M_bind, bind. cbv zeta.
  destruct (Transit.getStopInfo_any _ _ a) as [[info|e] a1]; [done|].
  destruct a1 as [sds mon [fs ck tk nt sn tr]].
  unfold_monad. unfold ticked, reading, with_world. cbn. by rewrite app_nil_r.
Qed.

(** A direction that is a string, or missing, is handed on as it is,
    the empty string as none. *)
Lemma getStopInfo_any_string (stopId : string) (query_direction : Js.loose)
    (a : App) :
  query_direction <> Js.Obj ->
  Transit.getStopInfo_any stopId (Js.or_null query_direction) a
  = Transit.getStopInfo stopId
      match query_direction with
      | Js.Str d => if String.eqb d "" then None else Some d
      | _ => None
      end a.
Proof.
  intros Hq. unfold Transit.getStopInfo.
  destruct query_direction as [|d|]; [done| |done].
  cbn. by destruct (String.eqb d "").
Qed.

(** A direction that is an object: the call goes as without a direction
    when there is no prediction, and throws otherwise, also where the
    call without a direction would have thrown for an alert. *)
Lemma getStopInfo_any_object (stopId : string) (a : App) :
  (Transit.getStopInfo_any stopId Js.Obj a = Transit.getStopInfo stopId None a
   /\ forall info, (Transit.getStopInfo stopId None a).1 = Ok info ->
                   upcomingTrips info = [])
  \/ ((Transit.getStopInfo_any stopId Js.Obj a).1 = Throw Transit.notAFunction
      /\ is_Some (StaticData.getStop stopId (staticDataService a))
      /\ forall info, (Transit.getStopInfo stopId None a).1 = Ok info ->
                      upcomingTrips info <> []).
Proof.
  rewrite getStopInfo_any_run, getStopInfo_run.
  destruct (StaticData.getStop stopId _) as [row|]; [|by left].
  assert (forall k w1 lu info,
            (finish stopId None a k row [] w1 lu).1 = Ok info ->
            upcomingTrips info = []) as Hnil.
  { intros k w1 lu info Hrun.
    destruct (finish_cases stopId None a k row [] w1 lu)
      as (reads & _ & [H|(info' & H & _ & Hu & _)]);
      rewrite Hrun in H; by simplify_eq. }
  destruct (tripsFeed (gtfsMonitor a)) as [feed|].
  - cbv zeta.
    destruct (forEach _ (entity feed) []) as [[[]|e] pushed]; [|by left].
    destruct pushed as [|p pushed]; [left; split; [done|apply Hnil]|].
    right. split; [done|]. split; [by eexists|].
    intros info Hrun.
    match type of Hrun with
    | (finish ?s ?d ?a ?k ?st ?p ?w ?lu).1 = _ =>
        destruct (finish_cases s d a k st p w lu)
          as (reads & _ & [H|(info' & H & _ & Hu & _)])
    end; rewrite Hrun in H; simplify_eq.
    rewrite Hu. unfold Transit._sortAndFilterTrips. intros Hs.
    by apply sort_nil_inv in Hs.
  - left. split; [done|]. apply Hnil.
Qed.

(** X20: [GET /station/:stopId] always answers, with 200, 404 or 500.  It
    answers 404 exactly when the stop is unknown, the error being "Stop
    <id> not found".  It answers 500 with the error "Invalid time value",
    or, when the direction of the query is an array or an object (a
    repeated or bracketed parameter), with "direction.toLowerCase is not
    a function": that request fails whenever the call without a direction
    would return a prediction, and is answered as without a direction
    otherwise.  A 200 carries the reply of [getStopInfo] for that stop
    and the direction of the query, none when it is missing or empty. *)
Theorem station_by_id_status (stopId : string) (query_direction : Js.loose)
    (a : App) :
  (codeOf (stationById stopId query_direction a) = 200
   \/ codeOf (stationById stopId query_direction a) = 404
   \/ codeOf (stationById stopId query_direction a) = 500) /\
  (codeOf (stationById stopId query_direction a) = 404
   <-> StaticData.getStop stopId (staticDataService a) = None) /\
  (codeOf (stationById stopId query_direction a) = 404 ->
   failureOf (stationById stopId query_direction a)
   = Some ("Stop " +:+ stopId +:+ " not found")) /\
  (codeOf (stationById stopId query_direction a) = 500 ->
   failureOf (stationById stopId query_direction a) = Some "Invalid time value"
   \/ (query_direction = Js.Obj /\
       failureOf (stationById stopId query_direction a)
       = Some "direction.toLowerCase is not a function")) /\
  (codeOf (stationById stopId query_direction a) = 200
   <-> exists info, stopInfoOf (stationById stopId query_direction a) = Some info) /\
  (forall info,
     stopInfoOf (stationById stopId query_direction a) = Some info ->
     (Transit.getStopInfo stopId
        match query_direction with
        | Js.Str d => if String.eqb d "" then None else Some d
        | _ => None
        end a).1
     = Ok info) /\
  (query_direction = Js.Obj ->
   forall info,
     (Transit.getStopInfo stopId None a).1 = Ok info ->
     match upcomingTrips info with
     | [] => stopInfoOf (stationById stopId query_direction a) = Some info
     | _ :: _ =>
         codeOf (stationById stopId query_direction a) = 500 /\
         failureOf (stationById stopId query_direction a)
         = Some "direction.toLowerCase is not a function"
     end).
Proof.
  assert (forall direction,
            stationById stopId query_direction a =
            match Transit.getStopInfo stopId direction a with
            | (Ok info, a1) => (Ok (Send 200 (StopInfoJson info)), a1)
            | (Throw e, a1) =>
                (Ok (Send (if Js.includes "not found" (message e) then 404 else 500)
                        (StationFailure
                           (MkFailure (message e) (Js.Iso (reading a1 0))))),
                 ticked 1 [] a1)
            end ->
            (codeOf (stationById stopId query_direction a) = 200
             \/ codeOf (stationById stopId query_direction a) = 404
             \/ codeOf (stationById stopId query_direction a) = 500) /\
            (codeOf (stationById stopId query_direction a) = 404
             <-> StaticData.getStop stopId (staticDataService a) = None) /\
            (codeOf (stationById stopId query_direction a) = 404 ->
             failureOf (stationById stopId query_direction a)
             = Some ("Stop " +:+ stopId +:+ " not found")) /\
            (codeOf (stationById stopId query_direction a) = 500 ->
             failureOf (stationById stopId query_direction a)
             = Some "Invalid time value") /\
            (codeOf (stationById stopId query_direction a) = 200
             <-> exists info,
                   stopInfoOf (stationById stopId query_direction a) = Some info) /\
            (forall info,
               stopInfoOf (stationById stopId query_direction a) = Some info ->
               (Transit.getStopInfo stopId direction a).1 = Ok info)) as Hstring.
  { intros direction ->.
    destruct (Transit.getStopInfo _ _ a) as [[info|e] a1] eqn:Hrun.
    - unfold codeOf, failureOf, stopInfoOf. cbn.
      assert (StaticData.getStop stopId (staticDataService a) <> None) as Hknown.
      { apply getStopInfo_Ok_inv in Hrun as (stop & ? & ? & ? & Hs & _).
        congruence. }
      split; [by left|]. split; [by split|]. split; [done|]. split; [done|].
      split; [split; [by eexists|done]|]. by intros info' [= <-].
    - apply getStopInfo_Throw in Hrun as [[Hnone Hmsg]|[Hsome Hmsg]]; subst e.
      + unfold codeOf, failureOf, stopInfoOf. cbn [fst].
        rewrite notFound_includes. cbn.
        split; [right; by left|]. split; [by split|]. split; [done|].
        split; [done|]. split; [split; [done|by intros [? [=]]]|done].
      + unfold codeOf, failureOf, stopInfoOf. cbn.
        split; [right; by right|]. split; [split; [done|]|].
        { intros Hnone. rewrite Hnone in Hsome. by destruct Hsome. }
        split; [done|]. split; [done|].
        split; [split; [done|by intros [? [=]]]|done]. }
  assert (query_direction = Js.Obj \/ query_direction <> Js.Obj) as [->|Hq]
    by (destruct query_direction; auto).
  - destruct (getStopInfo_any_object stopId a)
      as [[Heq Hnil]|(Hthrow & Hknown & Hsome)].
    + destruct (Hstring None) as (H1 & H2 & H3 & H4 & H5 & H6).
      { rewrite stationById_run. cbn [Js.or_null]. by rewrite Heq. }
      split; [done|]. split; [done|]. split; [done|].
      split; [intros Hc; left; by apply H4|]. split; [done|]. split; [done|].
      intros _ info Hrun. rewrite (Hnil info Hrun).
      rewrite stationById_run. cbn [Js.or_null]. rewrite Heq.
      destruct (Transit.getStopInfo stopId None a) as [[info'|e] a1]; [|done].
      cbn in Hrun. by simplify_eq.
    + rewrite stationById_run. cbn [Js.or_null].
      destruct (Transit.getStopInfo_any stopId Js.Obj a) as [r a1].
      cbn in Hthrow. subst r.
      unfold codeOf, failureOf, stopInfoOf. cbn.
      split; [right; by right|]. split; [split; [done|]|].
      { intros Hnone. rewrite Hnone in Hknown. by destruct Hknown. }
      split; [done|]. split; [intros _; by right|].
      split; [split; [done|by intros [? [=]]]|]. split; [done|].
      intros _ info Hrun. specialize (Hsome info Hrun).
      by destruct (upcomingTrips info).
  - destruct (Hstring match query_direction with
                      | Js.Str d => if String.eqb d "" then None else Some d
                      | _ => None
                      end) as (H1 & H2 & H3 & H4 & H5 & H6).
    { rewrite stationById_run. by rewrite getStopInfo_any_string. }
    split; [done|]. split; [done|]. split; [done|].
    split; [intros Hc; left; by apply H4|]. split; [done|]. split; [done|].
    done.
Qed.

Lemma station_by_id_status_witness :
  StaticData.getStop "X99" (staticDataService Sample.serving) = None /\
  codeOf (stationById "X99" Js.Nullish Sample.serving) = 404 /\
  failureOf (stationById "X99" Js.Nullish Sample.serving)
    = Some "Stop X99 not found" /\
  codeOf (stationById "M20-2" Js.Nullish Fixture.corrupt) = 500 /\
  failureOf (stationById "M20-2" Js.Nullish Fixture.corrupt)
    = Some "Invalid time value" /\
  codeOf (stationById "M20-2" (Js.Str "eastbound") Sample.arriving) = 200 /\
  codeOf (stationById "M20-2" Js.Obj Sample.arriving) = 500 /\
  failureOf (stationById "M20-2" Js.Obj Sample.arriving)
    = Some "direction.toLowerCase is not a function".
Proof.
  destruct (station_by_id_status "X99" Js.Nullish Sample.serving)
    as (_ & H404 & Hmsg & _).
  destruct (station_by_id_status "M20-2" Js.Nullish Fixture.corrupt)
    as (_ & _ & _ & H500 & _).
  destruct (station_by_id_status "M20-2" Js.Obj Sample.arriving)
    as (_ & _ & _ & _ & _ & _ & Hobj).
  assert (Hnone : StaticData.getStop "X99" (staticDataService Sample.serving) = None)
    by reflexivity.
  split; [exact Hnone|]. split; [by apply H404|].
  split; [by apply Hmsg, H404|].
  assert (Hc : codeOf (stationById "M20-2" Js.Nullish Fixture.corrupt) = 500)
    by (vm_compute; reflexivity).
  split; [exact Hc|]. split.
  { destruct (H500 Hc) as [H|[H _]]; [exact H|discriminate H]. }
  split; [vm_compute; reflexivity|].
  assert (Hr : (Transit.getStopInfo "M20-2" None Sample.arriving).1
               = Ok (replyOf (Transit.getStopInfo "M20-2" None Sample.arriving)))
    by (vm_compute; reflexivity).
  specialize (Hobj eq_refl _ Hr).
  assert (Hu : exists p, upcomingTrips
                 (replyOf (Transit.getStopInfo "M20-2" None Sample.arriving)) = [p])
    by (eexists; vm_compute; reflexivity).
  destruct Hu as [p Hu]. rewrite Hu in Hobj. exact Hobj.
Defined.

(** X21: with the default configuration, [GET /station] serves the stop
    M20-2 and never answers 404: when that stop is unknown it answers 500 with "Stop M20-2
    not found".  A 200 carries the reply of [getStopInfo] for the
    direction of the query, "eastbound" when the query has none; in that
    case every prediction returned satisfies the eastbound rule. *)
Theorem station_configured (query_direction : option string) (a : App) :
  (codeOf (station query_direction a) = 200
   \/ codeOf (station query_direction a) = 500) /\
  (StaticData.getStop "M20-2" (staticDataService a) = None ->
   codeOf (station query_direction a) = 500 /\
   failureOf (station query_direction a) = Some "Stop M20-2 not found") /\
  (forall info,
     stopInfoOf (station query_direction a) = Some info ->
     (Transit.getStopInfo "M20-2"
        (Some (Js.or_str query_direction "eastbound")) a).1 = Ok info) /\
  (query_direction = None \/ query_direction = Some "" ->
   forall info p,
     stopInfoOf (station query_direction a) = Some info ->
     p ∈ upcomingTrips info -> eastboundRule p).
Proof.
  rewrite station_run.
  change config.station_id with "M20-2".
  change config.station_direction with "eastbound".
  destruct (Transit.getStopInfo _ _ a) as [[info|e] a1] eqn:Hrun.
  - unfold codeOf, failureOf, stopInfoOf. cbn.
    split; [by left|]. split; [|split].
    + intros Hnone.
      apply getStopInfo_Ok_inv in Hrun as (stop & ? & ? & ? & Hs & _). congruence.
    + by intros info' [= <-].
    + intros Hq info' p [= <-] Hp.
      assert (Js.or_str query_direction "eastbound" = "eastbound") as Hd
        by (by destruct Hq as [-> | ->]).
      rewrite Hd in Hrun.
      apply getStopInfo_Ok_inv in Hrun as (stop & pushed & ? & ? & _ & Hup & _).
      rewrite Hup, sortAndFilter_filtered in Hp by (by left).
      apply list_elem_of_filter in Hp as [Hp _].
      by apply directionMatches_eastbound in Hp.
  - unfold codeOf, failureOf, stopInfoOf. cbn.
    split; [by right|]. split; [|split; [done|]].
    + intros Hnone.
      apply getStopInfo_Throw in Hrun as [[_ ->]|[Hsome _]]; [done|].
      rewrite Hnone in Hsome. by destruct Hsome.
    + by intros _ info p [=].
Qed.

Lemma station_configured_witness :
  stopInfoOf (station None Sample.arriving)
    = Some (replyOf (Transit.getStopInfo "M20-2" (Some "eastbound") Sample.arriving)) /\
  Forall eastboundRule
    (upcomingTrips
       (replyOf (Transit.getStopInfo "M20-2" (Some "eastbound") Sample.arriving))) /\
  length (upcomingTrips
       (replyOf (Transit.getStopInfo "M20-2" (Some "eastbound") Sample.arriving)))
  = 1%nat.
Proof.
  assert (H : stopInfoOf (station None Sample.arriving)
              = Some (replyOf (Transit.getStopInfo "M20-2" (Some "eastbound")
                                 Sample.arriving)))
    by (vm_compute; reflexivity).
  split; [exact H|]. split; [|vm_compute; reflexivity].
  apply Forall_forall. intros p Hp.
  destruct (station_configured None Sample.arriving) as (_ & _ & _ & Hall).
  by apply (Hall (or_introl eq_refl) _ p H).
Defined.

(** X22: [GET /next?stop=<id>] for an unknown stop answers 500 with the
    error "Stop <id> not found" and the time of the second clock reading,
    while [GET /station/<id>] answers 404 for the same stop, whatever its
    direction parameter. *)
Theorem next_unknown_stop (stopId : string) (query_direction : option string)
    (parsedLimit : option Z) (station_direction : Js.loose) (a : App) :
  stopId <> "" ->
  StaticData.getStop stopId (staticDataService a) = None ->
  (Next.handler (Some stopId) query_direction parsedLimit a).1
  = Ok (NextFailed 500 ("Stop " +:+ stopId +:+ " not found")
                   (Js.Iso (reading a 1))) /\
  codeOf (stationById stopId station_direction a) = 404.
Proof.
  intros Hne Hnone. split.
  - rewrite handler_run. cbv zeta.
    assert (Js.or_str (Some stopId) config.station_id = stopId) as ->.
    { cbn. by destruct (String.eqb_spec stopId ""). }
    rewrite getStopInfo_run, Hnone. cbn. done.
  - rewrite stationById_run, getStopInfo_any_run, Hnone.
    unfold codeOf. cbn [fst]. by rewrite notFound_includes.
Qed.

Lemma next_unknown_stop_witness :
  (Next.handler (Some "X99") None None Sample.serving).1
  = Ok (NextFailed 500 "Stop X99 not found" (Js.Iso 31000)) /\
  codeOf (stationById "X99" Js.Nullish Sample.serving) = 404.
Proof.
  destruct (next_unknown_stop "X99" None None Js.Nullish Sample.serving) as [H1 H2];
    [done|reflexivity|].
  split; [|exact H2]. etransitivity; [exact H1|]. reflexivity.
Defined.

(** X23: with a negative limit [-k], [GET /next] returns all the
    predictions but the last [k] (none when there are at most [k]), as
    [slice(0, -k)] does; the limit is not replaced by the default. *)
Theorem next_negative_limit (query_stop query_direction : option string) (n : Z)
    (a a1 : App) (info : StopInfo) :
  n < 0 ->
  Transit.getStopInfo (Js.or_str query_stop config.station_id)
    (Some (Js.or_str query_direction config.station_direction)) a
  = (Ok info, a1) ->
  exists body,
    (Next.handler query_stop query_direction (Some n) a).1 = Ok (NextJson body) /\
    NextBody.nextArrivals body
    = Next.toArrival
        <$> take (length (upcomingTrips info) - Z.to_nat (- n)) (upcomingTrips info) /\
    length (NextBody.nextArrivals body)
    = (length (upcomingTrips info) - Z.to_nat (- n))%nat.
Proof.
  intros Hn Hrun. rewrite handler_run. cbv zeta. rewrite Hrun.
  eexists. split; [done|]. cbn [NextBody.nextArrivals].
  unfold Next.nextArrivalsOf, Next.limitOf, Js.slice0.
  destruct (Z.eqb_spec n 0); [lia|]. destruct (Z.ltb_spec n 0); [|lia].
  replace (Z.to_nat (Z.of_nat (length (upcomingTrips info)) + n))
    with (length (upcomingTrips info) - Z.to_nat (- n))%nat by lia.
  split; [done|]. rewrite length_fmap, length_take. lia.
Qed.

Lemma next_negative_limit_witness :
  length (upcomingTrips
            (replyOf (Transit.getStopInfo "M20-2" (Some "all") Sample.twoTrains)))
  = 2%nat /\
  exists body,
    (Next.handler None (Some "all") (Some (-1)) Sample.twoTrains).1
    = Ok (NextJson body) /\
    Arrival.minutesUntilArrival <$> NextBody.nextArrivals body = [2].
Proof.
  split; [vm_compute; reflexivity|].
  destruct (next_negative_limit None (Some "all") (-1) Sample.twoTrains
              (Transit.getStopInfo "M20-2" (Some "all") Sample.twoTrains).2
              (replyOf (Transit.getStopInfo "M20-2" (Some "all") Sample.twoTrains)))
    as (body & Hb & Hn & _); [lia|vm_compute; reflexivity|].
  exists body. split; [exact Hb|]. rewrite Hn. vm_compute. reflexivity.
Defined.

(** X24: with the default configuration, a reply of [GET /next] carries,
    around the arrivals, the name and
    the platform of the stop row, the [lastUpdated] of the reply of
    [getStopInfo], and the direction that was used for the filter: that of
    the query, "eastbound" when it has none.  The direction is never
    empty, and is "all" only when the query said so: the fallback to "all"
    is dead.  The [warnings] key is present exactly when there are
    warnings, and then holds them all; there are at most as many arrivals
    as predictions. *)
Theorem next_envelope (query_stop query_direction : option string)
    (parsedLimit : option Z) (a a1 : App) (info : StopInfo) :
  Transit.getStopInfo (Js.or_str query_stop "M20-2")
    (Some (Js.or_str query_direction "eastbound")) a
  = (Ok info, a1) ->
  exists body,
    Next.handler query_stop query_direction parsedLimit a = (Ok (NextJson body), a1) /\
    NextBody.station body = stop info ≫= StopView.name /\
    NextBody.platform body = stop info ≫= StopView.platform /\
    NextBody.direction body = Js.or_str query_direction "eastbound" /\
    NextBody.direction body <> "" /\
    (NextBody.direction body = "all" -> query_direction = Some "all") /\
    NextBody.lastUpdated body = lastUpdated info /\
    (NextBody.warnings body = None <-> warnings info = []) /\
    (forall w, NextBody.warnings body = Some w -> w = warnings info) /\
    (length (NextBody.nextArrivals body) <= length (upcomingTrips info))%nat.
Proof.
  intros Hrun. rewrite handler_run. cbv zeta.
  change config.station_id with "M20-2".
  change config.station_direction with "eastbound".
  rewrite Hrun. eexists. split; [done|]. cbn.
  assert (Js.or_str query_direction "eastbound" <> "") as Hne.
  { destruct query_direction as [d|]; cbn; [|done].
    by destruct (String.eqb_spec d ""). }
  destruct (String.eqb_spec (Js.or_str query_direction "eastbound") "") as [|_];
    [done|].
  repeat split; try done.
  - intros Hall. destruct query_direction as [d|]; cbn in Hall; [|done].
    destruct (String.eqb_spec d ""); [done|]. by subst d.
  - by destruct (warnings info).
  - by destruct (warnings info).
  - by destruct (warnings info); intros w [= <-].
  - unfold Next.nextArrivalsOf, Js.slice0. rewrite length_fmap.
    destruct (_ <? 0); rewrite length_take; lia.
Qed.

Lemma next_envelope_witness :
  exists body,
    Next.handler None None None Fixture.failing
    = (Ok (NextJson body), (Next.handler None None None Fixture.failing).2) /\
    NextBody.station body = Some "Montgomery St." /\
    NextBody.direction body = "eastbound" /\
    NextBody.warnings body
    = Some ["Real-time trip data unavailable: HTTP 503: Service Unavailable"].
Proof.
  destruct (next_envelope None None None Fixture.failing
              (Transit.getStopInfo "M20-2" (Some "eastbound") Fixture.failing).2
              (replyOf (Transit.getStopInfo "M20-2" (Some "eastbound") Fixture.failing)))
    as (body & Hb & Hs & _ & Hd & _ & _ & _ & Hnone & Hsome & _);
    [vm_compute; reflexivity|].
  exists body. split; [by rewrite Hb|].
  split; [etransitivity; [exact Hs|]; vm_compute; reflexivity|].
  split; [exact Hd|].
  destruct (NextBody.warnings body) as [w|].
  - rewrite (Hsome w eq_refl). vm_compute. reflexivity.
  - exfalso. assert (Hw := proj1 Hnone eq_refl). vm_compute in Hw. discriminate Hw.
Defined.

End HandlerFacts.


(** ** The fetch of the single-file server *)

Section LegacyFacts.

Import Legacy.

(** One iteration of the loop of [fetchGtfsRtData]. *)
Lemma fetchGtfsRtData_loop_step url retries remaining attempt (a : App) :
  fetchGtfsRtData_loop url retries (S remaining) attempt a
  = let att := upcoming a 0 in
    match settled att with
    | Some feed => (Ok (Some feed), advanced 1 (requestEvents url att) a)
    | None =>
        if attempt <? retries
        then fetchGtfsRtData_loop url retries remaining (attempt + 1)
               (advanced 1 (requestEvents url att ++ [Sleep 1000]) a)
        else (Ok None, advanced 1 (requestEvents url att) a)
    end.
Proof.
  destruct a as [sds mon [fs ck tk nt sn tr]].
  cbn [fetchGtfsRtData_loop]. unfold settled, upcoming, advanced, requestEvents.
  unfold mbind, M_bind, bind, try_catch, emit, modify, Monitor.next_attempt, throw,
    mret, M_ret, ret, with_world.
  cbn. destruct (reply (nt sn)) as [e|status statusText bodyTime payload]; cbn.
  - destruct (attempt <? retries); cbn; by rewrite <- ?app_assoc.
  - destruct (Monitor.ok status); cbn.
    + destruct payload as [feed|e]; cbn; [by rewrite <- ?app_assoc|].
      destruct (attempt <? retries); cbn; by rewrite <- ?app_assoc.
    + destruct payload as [feed|e]; cbn;
        destruct (attempt <? retries); cbn; by rewrite <- ?app_assoc.
Qed.

Lemma requestEvents_times url att :
  fetchTimes (requestEvents url att) = [latency att]
  /\ sleepsOf (requestEvents url att) = []
  /\ Forall (fun ev => forall ms, ev <> SetAbortTimer ms) (requestEvents url att).
Proof.
  unfold requestEvents.
  destruct (reply att) as [e|status statusText bodyTime payload];
    [|destruct (Monitor.ok status)]; cbn; by repeat constructor.
Qed.

(** [fetchGtfsRtData] with its default of two retries, attempt by
    attempt. *)
Lemma fetchGtfsRtData_run (url : string) (a : App) :
  fetchGtfsRtData url 2 a
  = let ev i := requestEvents url (upcoming a i) in
    match settled (upcoming a 0) with
    | Some feed => (Ok (Some feed), advanced 1 (ev 0%nat) a)
    | None =>
      match settled (upcoming a 1) with
      | Some feed =>
          (Ok (Some feed), advanced 2 (ev 0%nat ++ [Sleep 1000] ++ ev 1%nat) a)
      | None =>
        (Ok (settled (upcoming a 2)),
         advanced 3 (ev 0%nat ++ [Sleep 1000] ++ ev 1%nat ++ [Sleep 1000]
                     ++ ev 2%nat) a)
      end
    end.
Proof.
  unfold fetchGtfsRtData. change (Z.to_nat (2 + 1)) with 3%nat.
  rewrite fetchGtfsRtData_loop_step. cbv zeta.
  destruct (settled (upcoming a 0)) as [feed|]; [done|].
  change (0 <? 2) with true. cbv iota.
  rewrite fetchGtfsRtData_loop_step. cbv zeta.
  rewrite upcoming_advanced, advanced_advanced. change (0 + 1)%nat with 1%nat.
  destruct (settled (upcoming a 1)) as [feed|]; [by rewrite <- !app_assoc|].
  change (0 + 1 <? 2) with true. cbv iota.
  rewrite fetchGtfsRtData_loop_step. cbv zeta.
  rewrite !upcoming_advanced, !advanced_advanced.
  change (0 + 1 + 1)%nat with 2%nat.
  destruct (settled (upcoming a 2)) as [feed|]; [by rewrite <- !app_assoc|].
  change (0 + 1 + 1 <? 2) with false. by rewrite <- !app_assoc.
Qed.

(** X25: [fetchGtfsRtData] of the single-file server never throws.  It
    makes [k] requests, [1 <= k <= 3], and returns the feed of the first
    attempt that delivers one, or null when the third attempt delivers
    none either; it waits 1000 ms after each attempt that is not the last.
    It sets no abort timer (the [timeout] member it hands to the global
    [fetch] is not one [fetch] reads): every request is awaited for its
    full latency. *)
Theorem legacy_fetch_bounded (url : string) (a : App) :
  exists (k : nat) (evs : list Event),
    (1 <= k <= 3)%nat /\
    (fetchGtfsRtData url 2 a).2 = advanced k evs a /\
    (fetchGtfsRtData url 2 a).1 = Ok (settled (upcoming a (k - 1))) /\
    (forall i, (i < k - 1)%nat -> settled (upcoming a i) = None) /\
    (settled (upcoming a (k - 1)) = None -> k = 3%nat) /\
    sleepsOf evs = replicate (k - 1) 1000 /\
    fetchTimes evs = (fun i => latency (upcoming a i)) <$> seq 0 k /\
    Forall (fun ev => forall ms, ev <> SetAbortTimer ms) evs.
Proof.
  rewrite fetchGtfsRtData_run. cbv zeta.
  destruct (requestEvents_times url (upcoming a 0)) as (Ht0 & Hs0 & Hn0).
  destruct (requestEvents_times url (upcoming a 1)) as (Ht1 & Hs1 & Hn1).
  destruct (requestEvents_times url (upcoming a 2)) as (Ht2 & Hs2 & Hn2).
  assert (Hsleep : Forall (fun ev => forall ms, ev <> SetAbortTimer ms)
                          [Sleep 1000]) by (by repeat constructor).
  destruct (settled (upcoming a 0)) as [feed0|] eqn:H0;
    [|destruct (settled (upcoming a 1)) as [feed1|] eqn:H1].
  - exists 1%nat, (requestEvents url (upcoming a 0)).
    split; [lia|]. split; [done|].
    rewrite Hs0, Ht0. cbn. rewrite H0. repeat split; try done; try lia.
  - exists 2%nat,
      (requestEvents url (upcoming a 0) ++ [Sleep 1000]
       ++ requestEvents url (upcoming a 1)).
    split; [lia|]. split; [done|].
    rewrite !sleepsOf_app, !fetchTimes_app, Hs0, Hs1, Ht0, Ht1.
    cbn -[requestEvents].
    rewrite H1. repeat split; try done; try lia.
    + intros i Hi. by assert (i = 0%nat) as -> by lia.
    + repeat (rewrite Forall_app || rewrite Forall_cons). by repeat split.
  - exists 3%nat,
      (requestEvents url (upcoming a 0) ++ [Sleep 1000]
       ++ requestEvents url (upcoming a 1) ++ [Sleep 1000]
       ++ requestEvents url (upcoming a 2)).
    split; [lia|]. split; [done|].
    rewrite !sleepsOf_app, !fetchTimes_app, Hs0, Hs1, Hs2, Ht0, Ht1, Ht2.
    cbn -[requestEvents].
    repeat split; try done; try lia.
    + intros i Hi. assert (i = 0%nat \/ i = 1%nat) as [-> | ->] by lia; done.
    + repeat (rewrite Forall_app || rewrite Forall_cons). by repeat split.
Qed.

Lemma legacy_fetch_bounded_witness :
  (fetchGtfsRtData "u" 2 Sample.serving).1 = Ok None /\
  sent (world (fetchGtfsRtData "u" 2 Sample.serving).2) = 3%nat /\
  sleepsOf (trace (world (fetchGtfsRtData "u" 2 Sample.serving).2)) = [1000; 1000].
Proof.
  destruct (legacy_fetch_bounded "u" Sample.serving)
    as (k & evs & Hk & Hst & Hres & _ & Hnone & Hsl & _).
  assert (k = 3%nat) as -> by (by apply Hnone).
  split; [exact Hres|]. rewrite Hst. split; [reflexivity|].
  cbn. rewrite Hsl. reflexivity.
Defined.

Lemma settled_attemptResult (att : Attempt) :
  latency att < Monitor.timeout ->
  match attemptResult att with
  | Ok feed => settled att = Some feed
  | Throw _ => settled att = None
  end.
Proof.
  intros Hl. unfold attemptResult, settled.
  destruct (Z.ltb_spec (latency att) Monitor.timeout); [|lia].
  destruct (reply att) as [e|status statusText bodyTime payload]; [done|].
  destruct (Monitor.ok status); [|by destruct payload].
  by destruct payload.
Qed.

(** X26: when each of the first three replies arrives in less than the ten
    seconds after which [fetchFeed] aborts, the two fetchers agree: [fetchGtfsRtData] returns the feed that
    [fetchFeed] returns, and null where [fetchFeed] throws, after the same
    number of requests. *)
Theorem legacy_fetch_agrees (url type : string) (a : App) :
  (forall i, (i < 3)%nat -> latency (upcoming a i) < 10000) ->
  (fetchGtfsRtData url 2 a).1
  = match (Monitor.fetchFeed url type a).1 with
    | Ok feed => Ok (Some feed)
    | Throw _ => Ok None
    end /\
  sent (world (fetchGtfsRtData url 2 a).2)
  = sent (world (Monitor.fetchFeed url type a).2).
Proof.
  intros Hfast.
  pose proof (settled_attemptResult (upcoming a 0) (Hfast 0%nat ltac:(lia))) as H0.
  pose proof (settled_attemptResult (upcoming a 1) (Hfast 1%nat ltac:(lia))) as H1.
  pose proof (settled_attemptResult (upcoming a 2) (Hfast 2%nat ltac:(lia))) as H2.
  rewrite fetchGtfsRtData_run, fetchFeed_run. cbv zeta.
  destruct (attemptResult (upcoming a 0)); rewrite H0; [done|].
  destruct (attemptResult (upcoming a 1)); rewrite H1; [done|].
  destruct (attemptResult (upcoming a 2)); rewrite H2; done.
Qed.

Lemma legacy_fetch_agrees_witness :
  (fetchGtfsRtData "u" 2 Fixture.polling).1 = Ok (Some Fixture.feed90) /\
  (Monitor.fetchFeed "u" "trips" Fixture.polling).1 = Ok Fixture.feed90 /\
  sleepsOf (trace (world (fetchGtfsRtData "u" 2 Fixture.polling).2)) = [1000].
Proof.
  destruct (legacy_fetch_agrees "u" "trips" Fixture.polling) as [H _].
  { intros [|[|[|i]]] Hi; vm_compute; reflexivity || lia. }
  assert (Hf : (Monitor.fetchFeed "u" "trips" Fixture.polling).1 = Ok Fixture.feed90)
    by (vm_compute; reflexivity).
  rewrite Hf in H. split; [exact H|]. split; [exact Hf|]. vm_compute. reflexivity.
Defined.

End LegacyFacts.


(** ** GtfsUpdater: what an update check can and cannot do *)

Section UpdaterFacts.

Import Updater.

(** The address [_resolveDownloadUrl] comes to, read off the page. *)
Lemma resolve_run (s : Server) :
  exists r, _resolveDownloadUrl s = (r, s).
Proof.
  unfold _resolveDownloadUrl. rewrite (bind_Ok get _ s s s) by done.
  destruct (pageAt (internet s) bartUrl) as [page|e]; [|by eexists].
  destruct (Js.truthy_str (metaRefresh page)).
  - destruct (Js.startsWith _ _); by eexists.
  - destruct (_ && _); by eexists.
Qed.

Lemma resolve_internet (s s' : Server) :
  internet s = internet s' ->
  (_resolveDownloadUrl s).1 = (_resolveDownloadUrl s').1.
Proof.
  intros Hnet. unfold _resolveDownloadUrl.
  rewrite (bind_Ok get _ s s s), (bind_Ok get _ s' s' s') by done.
  rewrite Hnet.
  destruct (pageAt (internet s') bartUrl) as [page|e]; [|done].
  destruct (Js.truthy_str (metaRefresh page)).
  - by destruct (Js.startsWith _ _).
  - by destruct (_ && _).
Qed.

Lemma downloadFile_run (url : string) (s : Server) :
  _downloadFile url s
  = (match downloadAt (internet s) url with
     | Ok (MkDownload true _ (Ok buffer)) => Ok buffer
     | Ok (MkDownload true _ (Throw e)) => Throw e
     | Ok (MkDownload false statusText _) =>
         Throw (MkError ("Download failed: " +:+ statusText))
     | Throw e => Throw e
     end, s).
Proof.
  unfold _downloadFile. rewrite (bind_Ok get _ s s s) by done.
  destruct (downloadAt (internet s) url) as [[[] st [buffer|e]]|e]; done.
Qed.

Lemma processUpdate_run (buffer : result Archive) (s : Server) :
  _processUpdate buffer s
  = match buffer with
    | Throw e => (Throw e, s)
    | Ok zip =>
        if decide (complete zip) then
          let x := extractAllTo zip (files (world (services s))) in
          let a1 := with_files x.2 (services s) in
          match x.1 with
          | Throw e => (Throw e, MkServer a1 (gtfsUpdater s) (internet s))
          | Ok _ =>
              ((StaticData.reload a1).1,
               MkServer (StaticData.reload a1).2 (gtfsUpdater s) (internet s))
          end
        else (Throw (MkError "Invalid GTFS zip: missing required files"), s)
    end.
Proof.
  unfold _processUpdate. destruct buffer as [zip|e]; [|done].
  destruct (decide (complete zip)) as [[Ht Hs]|Hn].
  - rewrite !bool_decide_eq_true_2 by done. cbn [negb orb].
    unfold mbind, M_bind, bind, in_app, on_files. cbn -[StaticData.reload].
    destruct s as [a u net]. cbn -[StaticData.reload].
    destruct (extractAllTo zip (files (world a))) as [[[]|e] fs];
      cbn -[StaticData.reload];
      change (with_world _ a) with (with_files fs a); [|done].
    by destruct (StaticData.reload _) as [[[]|e] a2].
  - destruct (decide (is_Some (zip_trips zip))) as [Ht|Ht].
    + destruct (decide (is_Some (zip_stops zip))) as [Hs|Hs]; [by destruct Hn|].
      by rewrite (bool_decide_eq_true_2 _ Ht), (bool_decide_eq_false_2 _ Hs).
    + by rewrite (bool_decide_eq_false_2 _ Ht).
Qed.

(** The [try] block, step by step. *)
Lemma tryUpdate_run (s : Server) :
  tryUpdate s
  = match _resolveDownloadUrl s with
    | (Throw e, _) => (Throw e, s)
    | (Ok downloadUrl, _) =>
        if negb (Js.truthy_str downloadUrl)
        then (Throw (MkError "Could not resolve GTFS download URL"), s)
        else
          match _downloadFile (Js.or_str downloadUrl "") s with
          | (Throw e, _) => (Throw e, s)
          | (Ok buffer, _) =>
              match _processUpdate buffer s with
              | (Throw e, s1) => (Throw e, s1)
              | (Ok _, s1) =>
                  (Ok tt,
                   MkServer (ticked 1 [] (services s1))
                            (MkUpdater (isUpdating (gtfsUpdater s1))
                                       (Some (reading (services s1) 0)))
                            (internet s1))
              end
          end
    end.
Proof.
  unfold tryUpdate.
  destruct (resolve_run s) as [r Hr]. rewrite Hr.
  destruct r as [downloadUrl|e]; [|by erewrite bind_Throw].
  erewrite bind_Ok by exact Hr.
  destruct (negb (Js.truthy_str downloadUrl)); [by erewrite bind_Throw|].
  erewrite bind_Ok by done.
  rewrite downloadFile_run.
  destruct (downloadAt (internet s) (Js.or_str downloadUrl ""))
    as [[[] st [buffer|e]]|e] eqn:Hd.
  2-5: by erewrite bind_Throw; [|by rewrite downloadFile_run, Hd].
  erewrite bind_Ok by (by rewrite downloadFile_run, Hd).
  destruct (_processUpdate buffer s) as [[[]|e] s1] eqn:Hp;
    [|by erewrite bind_Throw].
  erewrite bind_Ok by exact Hp.
  destruct s1 as [[sds mon [fs ck tk nt sn tr]] u net].
  unfold mbind, M_bind, bind, in_app, Date_now, modify, set_lastUpdate, ticked,
    reading, with_world.
  cbn. by rewrite app_nil_r.
Qed.

Lemma checkForUpdates_run (s : Server) :
  checkForUpdates s
  = if isUpdating (gtfsUpdater s) then (Ok tt, s)
    else (Ok tt, set_isUpdating false (tryUpdate (set_isUpdating true s)).2).
Proof.
  unfold checkForUpdates. rewrite (bind_Ok get _ s s s) by done.
  destruct (isUpdating (gtfsUpdater s)); [done|].
  erewrite bind_Ok by done. unfold finally, try_catch.
  by destruct (tryUpdate _) as [[[]|e] s2].
Qed.

Lemma update_run (s : Server) :
  update s
  = (Ok (Http.Send 200
           (UpdateExecuted "Update executed"
              (Js.Iso (reading (services (checkForUpdates s).2) 0)))),
     MkServer (ticked 1 [] (services (checkForUpdates s).2))
              (gtfsUpdater (checkForUpdates s).2)
              (internet (checkForUpdates s).2)).
Proof.
  unfold update, try_catch.
  assert (checkForUpdates s = (Ok tt, (checkForUpdates s).2)) as Hc.
  { rewrite checkForUpdates_run. by destruct (isUpdating _). }
  erewrite bind_Ok by exact Hc.
  destruct ((checkForUpdates s).2) as [[sds mon [fs ck tk nt sn tr]] u net].
  unfold mbind, M_bind, bind, in_app, Date_now, ticked, reading, with_world.
  cbn. by rewrite app_nil_r.
Qed.

(** X27: [POST /update] always answers 200 "Update executed":
    [checkForUpdates] never throws, whatever the network, the archive or
    the files do, so the reply does not tell whether the data was updated.
    The call leaves [isUpdating] as it found it, and does nothing at all
    while an update is marked as running. *)
Theorem update_always_executed (s : Server) :
  updateReply (update s) = (200, Some "Update executed") /\
  (checkForUpdates s).1 = Ok tt /\
  isUpdating (gtfsUpdater (checkForUpdates s).2) = isUpdating (gtfsUpdater s) /\
  (isUpdating (gtfsUpdater s) = true -> checkForUpdates s = (Ok tt, s)).
Proof.
  split; [by rewrite update_run|].
  rewrite checkForUpdates_run.
  destruct (isUpdating (gtfsUpdater s)) eqn:Hi; by rewrite ?Hi.
Qed.

Lemma update_always_executed_witness :
  updateReply (update Fixture.offline) = (200, Some "Update executed") /\
  lastUpdate (gtfsUpdater (checkForUpdates Fixture.offline).2) = None /\
  checkForUpdates (set_isUpdating true (Fixture.server Fixture.archive))
  = (Ok tt, set_isUpdating true (Fixture.server Fixture.archive)).
Proof.
  split; [exact (proj1 (update_always_executed Fixture.offline))|].
  split; [vm_compute; reflexivity|].
  apply (update_always_executed (set_isUpdating true (Fixture.server Fixture.archive))).
  reflexivity.
Defined.

(** What the update check leaves, by how far it got. *)
Lemma checkForUpdates_eq (s : Server) :
  isUpdating (gtfsUpdater s) = false ->
  checkForUpdates s
  = (Ok tt,
     match (_resolveDownloadUrl s).1 with
     | Ok (Some url) =>
         if decide (url = "") then s
         else
           match downloadAt (internet s) url with
           | Ok (MkDownload true _ (Ok (Ok zip))) =>
               if decide (complete zip) then
                 let x := extractAllTo zip (files (world (services s))) in
                 let a1 := with_files x.2 (services s) in
                 match x.1 with
                 | Throw _ => MkServer a1 (gtfsUpdater s) (internet s)
                 | Ok _ =>
                     match (StaticData.reload a1).1 with
                     | Ok _ =>
                         MkServer (ticked 1 [] (StaticData.reload a1).2)
                                  (MkUpdater false
                                     (Some (reading (StaticData.reload a1).2 0)))
                                  (internet s)
                     | Throw _ =>
                         MkServer (StaticData.reload a1).2 (gtfsUpdater s)
                                  (internet s)
                     end
                 end
               else s
           | _ => s
           end
     | _ => s
     end).
Proof.
  intros Hi. rewrite checkForUpdates_run, Hi, tryUpdate_run.
  assert (set_isUpdating false (set_isUpdating true s) = s) as Hback.
  { destruct s as [a [up lu] net]. cbn in Hi. by subst up. }
  destruct (resolve_run (set_isUpdating true s)) as [r Hr].
  assert ((_resolveDownloadUrl s).1 = r) as ->.
  { rewrite (resolve_internet s (set_isUpdating true s)) by done. by rewrite Hr. }
  rewrite Hr.
  destruct r as [[url|]|e];
    cbn -[set_isUpdating StaticData.reload _downloadFile _processUpdate Js.or_str].
  2,3: by rewrite Hback.
  destruct (String.eqb_spec url "") as [->|Hne];
    cbn -[set_isUpdating StaticData.reload _downloadFile _processUpdate Js.or_str].
  { by rewrite Hback. }
  rewrite decide_False by done.
  rewrite downloadFile_run.
  assert (Js.or_str (Some url) "" = url) as ->.
  { cbn. by destruct (String.eqb_spec url ""). }
  change (internet (set_isUpdating true s)) with (internet s).
  destruct (downloadAt (internet s) url) as [[[] st [[zip|e]|e]]|e] eqn:Hd;
    rewrite ?processUpdate_run;
    cbn -[set_isUpdating StaticData.reload Js.or_str extractAllTo with_files];
    rewrite ?Hback; try done.
  destruct (decide (complete zip)) as [Hc|Hc];
    cbn -[set_isUpdating StaticData.reload Js.or_str extractAllTo with_files];
    [|by rewrite Hback].
  destruct (extractAllTo zip _) as [[[]|e] fs];
    cbn -[set_isUpdating StaticData.reload Js.or_str with_files].
  - destruct (StaticData.reload _) as [[[]|e] a2]; cbn; [done|].
    destruct s as [a [up lu] net]. cbn in Hi. by subst up.
  - destruct s as [a [up lu] net]. cbn in Hi. by subst up.
Qed.

Lemma checkForUpdates_cases (s : Server) :
  isUpdating (gtfsUpdater s) = false ->
  checkForUpdates s = (Ok tt, s)
  \/ exists url st zip,
       (_resolveDownloadUrl s).1 = Ok (Some url) /\ url <> "" /\
       downloadAt (internet s) url = Ok (MkDownload true st (Ok (Ok zip))) /\
       complete zip /\
       let x := extractAllTo zip (files (world (services s))) in
       let a1 := with_files x.2 (services s) in
       checkForUpdates s
       = (Ok tt,
          match x.1 with
          | Throw _ => MkServer a1 (gtfsUpdater s) (internet s)
          | Ok _ =>
              match (StaticData.reload a1).1 with
              | Ok _ =>
                  MkServer (ticked 1 [] (StaticData.reload a1).2)
                           (MkUpdater false
                              (Some (reading (StaticData.reload a1).2 0)))
                           (internet s)
              | Throw _ =>
                  MkServer (StaticData.reload a1).2 (gtfsUpdater s) (internet s)
              end
          end).
Proof.
  intros Hi. rewrite (checkForUpdates_eq s Hi).
  destruct ((_resolveDownloadUrl s).1) as [[url|]|e]; [|by left..].
  destruct (decide (url = "")) as [|Hne]; [by left|].
  destruct (downloadAt (internet s) url) as [[[] st [[zip|e]|e]]|e] eqn:Hd;
    [|by left..].
  destruct (decide (complete zip)) as [Hc|Hc]; [|by left].
  right. by exists url, st, zip.
Qed.

Lemma reload_frame (a : App) :
  world (StaticData.reload a).2 = world a /\
  gtfsMonitor (StaticData.reload a).2 = gtfsMonitor a /\
  initialized (staticDataService (StaticData.reload a).2)
  = match (StaticData.reload a).1 with Ok _ => true | Throw _ => false end.
Proof.
  rewrite reload_run.
  destruct (load_cases (cleared a))
    as [[Hi _]|[(_ & srows & rrows & trows & strows & _ & ->)
               |(_ & e & srows & rrows & trows & ->)]]; done.
Qed.

(** X28: an update check that starts while none is running either leaves
    the whole process as it was, or has downloaded an archive that holds
    both trips.txt and stops.txt and started to extract it over the data
    directory.  When the extraction throws part of the way, the data
    directory is left as the extraction left it, nothing is reloaded, and
    the index and the updater are as before: the index no longer agrees
    with the files, and [lastUpdate] is not set.  When the extraction
    completes, either the reload succeeded, the index is initialized and
    [lastUpdate] is the time read right after, or it failed, the index is
    not initialized and [lastUpdate] is what it was.  The monitor is
    untouched in every case. *)
Theorem update_needs_complete_archive (s : Server) :
  isUpdating (gtfsUpdater s) = false ->
  internet (checkForUpdates s).2 = internet s /\
  gtfsMonitor (services (checkForUpdates s).2) = gtfsMonitor (services s) /\
  ((checkForUpdates s).2 = s
   \/ exists url st zip,
        downloadAt (internet s) url = Ok (MkDownload true st (Ok (Ok zip))) /\
        complete zip /\
        files (world (services (checkForUpdates s).2))
        = (extractAllTo zip (files (world (services s)))).2 /\
        match (extractAllTo zip (files (world (services s)))).1 with
        | Throw _ =>
            staticDataService (services (checkForUpdates s).2)
            = staticDataService (services s) /\
            gtfsUpdater (checkForUpdates s).2 = gtfsUpdater s
        | Ok _ =>
            (initialized (staticDataService (services (checkForUpdates s).2)) = true /\
             lastUpdate (gtfsUpdater (checkForUpdates s).2)
             = Some (reading (services s) 0))
            \/ (initialized (staticDataService (services (checkForUpdates s).2))
                = false /\
                lastUpdate (gtfsUpdater (checkForUpdates s).2)
                = lastUpdate (gtfsUpdater s))
        end).
Proof.
  intros Hi.
  destruct (checkForUpdates_cases s Hi)
    as [->|(url & st & zip & _ & _ & Hd & Hc & ->)]; [by repeat split; left|].
  destruct (extractAllTo zip (files (world (services s)))) as [[[]|e] fs] eqn:Hx;
    cbn [fst snd].
  - destruct (reload_frame (with_files fs (services s))) as (Hw & Hm & Hinit).
    destruct (StaticData.reload _) as [[[]|e] a2]; cbn in *.
    + split; [done|]. split; [by rewrite Hm|]. right. exists url, st, zip.
      rewrite Hx. cbn [fst snd].
      split; [done|]. split; [done|]. rewrite Hw. split; [done|]. left.
      split; [done|]. unfold reading. by rewrite Hw.
    + split; [done|]. split; [by rewrite Hm|]. right. exists url, st, zip.
      rewrite Hx. cbn [fst snd].
      split; [done|]. split; [done|]. rewrite Hw. split; [done|]. by right.
  - cbn. split; [done|]. split; [done|]. right. exists url, st, zip.
    rewrite Hx. by cbn.
Qed.

Lemma update_needs_complete_archive_witness :
  ~ complete Fixture.incompleteArchive /\
  (checkForUpdates (Fixture.server Fixture.incompleteArchive)).2
  = Fixture.server Fixture.incompleteArchive /\
  stops_txt (files (world (services
     (checkForUpdates (Fixture.server Fixture.stuckArchive)).2)))
  = Ok [Fixture.powell] /\
  StaticData.getStop "M20-2" (staticDataService (services
     (checkForUpdates (Fixture.server Fixture.stuckArchive)).2))
  = Some Sample.montgomery /\
  lastUpdate (gtfsUpdater (checkForUpdates (Fixture.server Fixture.stuckArchive)).2)
  = None.
Proof.
  assert (Hn : ~ complete Fixture.incompleteArchive) by (by intros [_ [? [=]]]).
  split; [exact Hn|].
  destruct (update_needs_complete_archive (Fixture.server Fixture.incompleteArchive)
              eq_refl) as (_ & _ & H).
  destruct (update_needs_complete_archive (Fixture.server Fixture.stuckArchive)
              eq_refl) as (_ & _ & H').
  split.
  { destruct H as [H|(url & st & zip & Hd & Hc & _)]; [exact H|].
    exfalso. cbn in Hd. destruct (String.eqb url _); [|discriminate Hd].
    injection Hd as _ <-. by apply Hn. }
  destruct H' as [H'|(url & st & zip & Hd & Hc & Hf & Hx)].
  { exfalso. apply (f_equal (fun s => stops_txt (files (world (services s))))) in H'.
    vm_compute in H'. discriminate H'. }
  cbn in Hd. destruct (String.eqb url _); [|discriminate Hd].
  injection Hd as _ <-. cbn in Hx. destruct Hx as [Hs Hu].
  split; [by rewrite Hf|]. split; [by rewrite Hs|]. by rewrite Hu.
Defined.

(** X29: when the download address resolves, the download succeeds, the
    archive holds both required entries, its extraction completes and the
    four files then parse, the update check installs them: the data directory holds
    the extracted files (a file the archive lacks staying as it was), the
    index is the one of these files, as after a [reload()], and
    [lastUpdate] is the time read right after. *)
Theorem update_installs_archive (s : Server) (url st : string) (zip : Archive)
    (srows : list Stop.t) (rrows : list Route.t) (trows : list Trip.t)
    (strows : list StopTime.t) :
  isUpdating (gtfsUpdater s) = false ->
  (_resolveDownloadUrl s).1 = Ok (Some url) ->
  url <> "" ->
  downloadAt (internet s) url = Ok (MkDownload true st (Ok (Ok zip))) ->
  complete zip ->
  extractAllTo zip (files (world (services s)))
  = (Ok tt, MkFiles (Ok srows) (Ok rrows) (Ok trows) (Ok strows)) ->
  lastUpdate (gtfsUpdater (checkForUpdates s).2) = Some (reading (services s) 0) /\
  isUpdating (gtfsUpdater (checkForUpdates s).2) = false /\
  files (world (services (checkForUpdates s).2))
  = MkFiles (Ok srows) (Ok rrows) (Ok trows) (Ok strows) /\
  initialized (staticDataService (services (checkForUpdates s).2)) = true /\
  (forall id, StaticData.getStop id (staticDataService (services (checkForUpdates s).2))
              = lastRow Stop.stop_id id srows) /\
  (forall id, StaticData.getRoute id (staticDataService (services (checkForUpdates s).2))
              = lastRow Route.route_id id rrows) /\
  (forall id, StaticData.getTrip id (staticDataService (services (checkForUpdates s).2))
              = lastRow Trip.trip_id id trows) /\
  (forall id, stopTimes (staticDataService (services (checkForUpdates s).2)) !! id
              = groupOf id strows).
Proof.
  intros Hi Hr Hne Hd Hc Hfiles.
  rewrite (checkForUpdates_eq s Hi), Hr, decide_False, Hd, decide_True by done.
  cbv zeta. rewrite Hfiles. cbn [fst snd]. rewrite reload_run.
  rewrite (load_Ok_run _ srows rrows trows strows); [|done|done].
  unfold StaticData.getStop, StaticData.getRoute, StaticData.getTrip. cbn.
  repeat split; try done; intros id;
    apply lookup_foldl_insert_empty || apply groupOf_lookup.
Qed.

Lemma update_installs_archive_witness :
  StaticData.getStop "M20-2"
    (staticDataService (services (Fixture.server Fixture.archive)))
  = Some Sample.montgomery /\
  StaticData.getStop "M20-2"
    (staticDataService (services (checkForUpdates (Fixture.server Fixture.archive)).2))
  = None /\
  StaticData.getStop "M30-2"
    (staticDataService (services (checkForUpdates (Fixture.server Fixture.archive)).2))
  = Some Fixture.powell /\
  lastUpdate (gtfsUpdater (checkForUpdates (Fixture.server Fixture.archive)).2)
  = Some 31000.
Proof.
  destruct (update_installs_archive (Fixture.server Fixture.archive)
              "https://www.bart.gov/sites/default/files/google_transit.zip" "OK"
              Fixture.archive [Fixture.powell] [Sample.yellow] [Sample.trip1]
              [Sample.stopTime1])
    as (Hlu & _ & _ & _ & Hs & _).
  - reflexivity.
  - vm_compute. reflexivity.
  - done.
  - vm_compute. reflexivity.
  - split; by eexists.
  - reflexivity.
  - split; [reflexivity|].
    split; [etransitivity; [apply Hs|]; vm_compute; reflexivity|].
    split; [etransitivity; [apply Hs|]; vm_compute; reflexivity|].
    etransitivity; [exact Hlu|]. reflexivity.
Defined.

(** X30: when a complete archive has been extracted and one of the four
    files then fails to parse, [POST /update] still answers 200 "Update
    executed" and the updater is as before ([lastUpdate] is not set), but
    the data directory holds the new files and the index is the partial
    one a failed reload leaves: not initialized, without stop times, and
    with trips only if stops.txt, routes.txt and trips.txt parsed. *)
Theorem update_broken_archive (s : Server) (url st : string) (zip : Archive)
    (e : Error) :
  isUpdating (gtfsUpdater s) = false ->
  (_resolveDownloadUrl s).1 = Ok (Some url) ->
  url <> "" ->
  downloadAt (internet s) url = Ok (MkDownload true st (Ok (Ok zip))) ->
  complete zip ->
  (extractAllTo zip (files (world (services s)))).1 = Ok tt ->
  firstFailure (extractAllTo zip (files (world (services s)))).2 = Some e ->
  updateReply (update s) = (200, Some "Update executed") /\
  gtfsUpdater (checkForUpdates s).2 = gtfsUpdater s /\
  files (world (services (checkForUpdates s).2))
  = (extractAllTo zip (files (world (services s)))).2 /\
  initialized (staticDataService (services (checkForUpdates s).2)) = false /\
  stopTimes (staticDataService (services (checkForUpdates s).2)) = ∅ /\
  (forall id, StaticData.getTrip id (staticDataService (services (checkForUpdates s).2))
              = tripsAfterFailure
                  (extractAllTo zip (files (world (services s)))).2 id).
Proof.
  intros Hi Hr Hne Hd Hc Hdone Hfail.
  split; [by rewrite update_run|].
  rewrite (checkForUpdates_eq s Hi), Hr, decide_False, Hd, decide_True by done.
  cbv zeta. rewrite Hdone. rewrite reload_run, load_run by done.
  change (files (world (cleared (with_files ?fs ?a)))) with fs.
  unfold firstFailure, tripsAfterFailure in *. unfold StaticData.getTrip.
  destruct ((extractAllTo zip _).2)
    as [[srows|e1] [rrows|e2] [trows|e3] [strows|e4]];
    try discriminate Hfail; cbn;
    rewrite ?foldl_set_stops, ?foldl_set_routes, ?foldl_set_trips; cbn;
    (repeat split; try done); intros id;
    rewrite ?lookup_foldl_insert_empty; done.
Qed.

Lemma update_broken_archive_witness :
  StaticData.getTrip "1508086"
    (staticDataService (services (Fixture.server Fixture.brokenArchive)))
  = Some Sample.trip1 /\
  updateReply (update (Fixture.server Fixture.brokenArchive))
  = (200, Some "Update executed") /\
  initialized (staticDataService
     (services (checkForUpdates (Fixture.server Fixture.brokenArchive)).2)) = false /\
  StaticData.getTrip "1508086"
    (staticDataService
       (services (checkForUpdates (Fixture.server Fixture.brokenArchive)).2))
  = None.
Proof.
  destruct (update_broken_archive (Fixture.server Fixture.brokenArchive)
              "https://www.bart.gov/sites/default/files/google_transit.zip" "OK"
              Fixture.brokenArchive (MkError "Invalid Record Length"))
    as (Hrep & _ & _ & Hinit & _ & Ht).
  - reflexivity.
  - vm_compute. reflexivity.
  - done.
  - vm_compute. reflexivity.
  - split; by eexists.
  - reflexivity.
  - reflexivity.
  - split; [reflexivity|]. split; [exact Hrep|]. split; [exact Hinit|].
    etransitivity; [apply Ht|]. reflexivity.
Defined.

End UpdaterFacts.
